(** * ParsedCertificate: construction and extension lookup

    A shallow embedding of [net/cert/pki/parsed_certificate.cc]:
    [ParsedCertificate::GetExtension], [ParsedCertificate::Create] and
    [ParsedCertificate::CreateAndAddToVector], with the parsers they call
    (declared in other translation units) taken as an interface. *)

From Stdlib Require Import ZArith String List.
From stdpp Require Import base option list gmap strings.

Local Open Scope Z_scope.

(** ** Byte regions

    A [der::Input] is a view on a run of bytes, compared by content.  The
    backing [CRYPTO_BUFFER] is owned by the certificate for its whole
    lifetime, so a view is modelled by the bytes it covers. *)
Abbreviation der_Input := (list Z) (only parsing).

(** ** The error sink ([CertErrors])

    [CertErrors] is an append-only sequence of nodes.  [AddError] appends a
    node of high severity carrying the identifier.  An identifier is declared
    with [DEFINE_CERT_ERROR_ID(name, text)]; it is modelled by its text. *)
Abbreviation CertErrorId := string (only parsing).

Inductive Severity := SEVERITY_HIGH | SEVERITY_WARNING.

Record CertError := { err_severity : Severity; err_id : CertErrorId }.

Abbreviation CertErrors := (list CertError) (only parsing).

Definition AddError (id : CertErrorId) (errors : CertErrors) : CertErrors :=
  errors ++ [{| err_severity := SEVERITY_HIGH; err_id := id |}].

Definition kFailedParsingCertificate : CertErrorId := "Failed parsing Certificate".
Definition kFailedParsingTbsCertificate : CertErrorId := "Failed parsing TBSCertificate".
Definition kFailedParsingSignatureAlgorithm : CertErrorId := "Failed parsing SignatureAlgorithm".
Definition kFailedReadingIssuerOrSubject : CertErrorId := "Failed reading issuer or subject".
Definition kFailedNormalizingSubject : CertErrorId := "Failed normalizing subject".
Definition kFailedNormalizingIssuer : CertErrorId := "Failed normalizing issuer".
Definition kFailedParsingExtensions : CertErrorId := "Failed parsing extensions".
Definition kFailedParsingBasicConstraints : CertErrorId := "Failed parsing basic constraints".
Definition kFailedParsingKeyUsage : CertErrorId := "Failed parsing key usage".
Definition kFailedParsingEku : CertErrorId := "Failed parsing extended key usage".
Definition kFailedParsingSubjectAltName : CertErrorId := "Failed parsing subjectAltName".
Definition kSubjectAltNameNotCritical : CertErrorId :=
  "Empty subject and subjectAltName is not critical".
Definition kFailedParsingNameConstraints : CertErrorId := "Failed parsing name constraints".
Definition kFailedParsingAia : CertErrorId := "Failed parsing authority info access".
Definition kFailedParsingPolicies : CertErrorId := "Failed parsing certificate policies".
Definition kFailedParsingPolicyConstraints : CertErrorId := "Failed parsing policy constraints".
Definition kFailedParsingPolicyMappings : CertErrorId := "Failed parsing policy mappings".
Definition kFailedParsingInhibitAnyPolicy : CertErrorId := "Failed parsing inhibit any policy".
Definition kFailedParsingAuthorityKeyIdentifier : CertErrorId :=
  "Failed parsing authority key identifier".
Definition kFailedParsingSubjectKeyIdentifier : CertErrorId :=
  "Failed parsing subject key identifier".

(** ** Types declared outside this translation unit

    The typed values the sub-parsers produce are opaque to [Create]: it only
    stores them.  Types whose default-constructed value ends up in a
    [ParsedCertificate] come with that value. *)
Class ExternalTypes : Type := {
  ParseCertificateOptions : Type;
  BitString : Type;
  SignatureAlgorithm : Type;
  TbsOther : Type;
  ParsedBasicConstraints : Type;
  GeneralNames : Type;
  NameConstraints : Type;
  ParsedPolicyConstraints : Type;
  ParsedPolicyMapping : Type;
  ParsedAuthorityKeyIdentifier : Type;
  default_BitString : BitString;
  default_SignatureAlgorithm : SignatureAlgorithm;
  default_TbsOther : TbsOther;
  default_ParsedBasicConstraints : ParsedBasicConstraints;
  default_ParsedPolicyConstraints : ParsedPolicyConstraints;
  default_ParsedAuthorityKeyIdentifier : ParsedAuthorityKeyIdentifier
}.

(** [ParsedExtension]: one record of the extensions region.  A
    default-constructed one has empty views and [critical = false]. *)
Record ParsedExtension : Type := {
  oid : der_Input;
  value : der_Input;
  critical : bool
}.

Definition default_ParsedExtension : ParsedExtension :=
  {| oid := []; value := []; critical := false |}.

(** [ParsedTbsCertificate]: the fields [Create] reads, and the remaining ones
    (version, serial number, validity, ...) kept together as [tbs_other]. *)
Record ParsedTbsCertificate `{ExternalTypes} : Type := {
  issuer_tlv : der_Input;
  subject_tlv : der_Input;
  extensions_tlv : option der_Input;
  tbs_other : TbsOther
}.

Definition default_ParsedTbsCertificate `{ExternalTypes} : ParsedTbsCertificate :=
  {| issuer_tlv := []; subject_tlv := []; extensions_tlv := None;
     tbs_other := default_TbsOther |}.

(** ** The certificate object *)
Record ParsedCertificate `{ExternalTypes} : Type := {
  cert_data_ : der_Input;
  cert_ : der_Input;
  tbs_certificate_tlv_ : der_Input;
  signature_algorithm_tlv_ : der_Input;
  signature_value_ : BitString;
  tbs_ : ParsedTbsCertificate;
  signature_algorithm_ : SignatureAlgorithm;
  normalized_subject_ : der_Input;
  normalized_issuer_ : der_Input;
  extensions_ : gmap der_Input ParsedExtension;
  has_basic_constraints_ : bool;
  basic_constraints_ : ParsedBasicConstraints;
  has_key_usage_ : bool;
  key_usage_ : BitString;
  has_extended_key_usage_ : bool;
  extended_key_usage_ : list der_Input;
  subject_alt_names_extension_ : ParsedExtension;
  subject_alt_names_ : option GeneralNames;
  name_constraints_ : option NameConstraints;
  has_authority_info_access_ : bool;
  authority_info_access_extension_ : ParsedExtension;
  ca_issuers_uris_ : list der_Input;
  ocsp_uris_ : list der_Input;
  has_policy_oids_ : bool;
  policy_oids_ : list der_Input;
  has_policy_constraints_ : bool;
  policy_constraints_ : ParsedPolicyConstraints;
  has_policy_mappings_ : bool;
  policy_mappings_ : list ParsedPolicyMapping;
  has_inhibit_any_policy_ : bool;
  inhibit_any_policy_ : Z;
  subject_key_identifier_ : option der_Input;
  authority_key_identifier_ : option ParsedAuthorityKeyIdentifier
}.

(** [ParsedCertificate::ParsedCertificate() = default]. *)
Definition new_ParsedCertificate `{ExternalTypes} : ParsedCertificate :=
  {| cert_data_ := [];
     cert_ := [];
     tbs_certificate_tlv_ := [];
     signature_algorithm_tlv_ := [];
     signature_value_ := default_BitString;
     tbs_ := default_ParsedTbsCertificate;
     signature_algorithm_ := default_SignatureAlgorithm;
     normalized_subject_ := [];
     normalized_issuer_ := [];
     extensions_ := ∅;
     has_basic_constraints_ := false;
     basic_constraints_ := default_ParsedBasicConstraints;
     has_key_usage_ := false;
     key_usage_ := default_BitString;
     has_extended_key_usage_ := false;
     extended_key_usage_ := [];
     subject_alt_names_extension_ := default_ParsedExtension;
     subject_alt_names_ := None;
     name_constraints_ := None;
     has_authority_info_access_ := false;
     authority_info_access_extension_ := default_ParsedExtension;
     ca_issuers_uris_ := [];
     ocsp_uris_ := [];
     has_policy_oids_ := false;
     policy_oids_ := [];
     has_policy_constraints_ := false;
     policy_constraints_ := default_ParsedPolicyConstraints;
     has_policy_mappings_ := false;
     policy_mappings_ := [];
     has_inhibit_any_policy_ := false;
     inhibit_any_policy_ := 0;
     subject_key_identifier_ := None;
     authority_key_identifier_ := None |}.

(** *** Assignment to one member

    [set_f v r] is [r] after [r->f = v]: the record rebuilt from the
    projections of [r], with [v] in place of [f r]. *)
Definition rebuild `{ExternalTypes} (r : ParsedCertificate) : ParsedCertificate :=
  {| cert_data_ := cert_data_ r;
     cert_ := cert_ r;
     tbs_certificate_tlv_ := tbs_certificate_tlv_ r;
     signature_algorithm_tlv_ := signature_algorithm_tlv_ r;
     signature_value_ := signature_value_ r;
     tbs_ := tbs_ r;
     signature_algorithm_ := signature_algorithm_ r;
     normalized_subject_ := normalized_subject_ r;
     normalized_issuer_ := normalized_issuer_ r;
     extensions_ := extensions_ r;
     has_basic_constraints_ := has_basic_constraints_ r;
     basic_constraints_ := basic_constraints_ r;
     has_key_usage_ := has_key_usage_ r;
     key_usage_ := key_usage_ r;
     has_extended_key_usage_ := has_extended_key_usage_ r;
     extended_key_usage_ := extended_key_usage_ r;
     subject_alt_names_extension_ := subject_alt_names_extension_ r;
     subject_alt_names_ := subject_alt_names_ r;
     name_constraints_ := name_constraints_ r;
     has_authority_info_access_ := has_authority_info_access_ r;
     authority_info_access_extension_ := authority_info_access_extension_ r;
     ca_issuers_uris_ := ca_issuers_uris_ r;
     ocsp_uris_ := ocsp_uris_ r;
     has_policy_oids_ := has_policy_oids_ r;
     policy_oids_ := policy_oids_ r;
     has_policy_constraints_ := has_policy_constraints_ r;
     policy_constraints_ := policy_constraints_ r;
     has_policy_mappings_ := has_policy_mappings_ r;
     policy_mappings_ := policy_mappings_ r;
     has_inhibit_any_policy_ := has_inhibit_any_policy_ r;
     inhibit_any_policy_ := inhibit_any_policy_ r;
     subject_key_identifier_ := subject_key_identifier_ r;
     authority_key_identifier_ := authority_key_identifier_ r |}.

Ltac assign_member f :=
  let v := fresh "v" in
  let r := fresh "r" in
  intros v r;
  let body := eval cbv beta delta [rebuild] in (rebuild r) in
  lazymatch eval pattern (f r) in body with
  | ?g _ => let t := eval cbv beta in (g v) in exact t
  end.

Section Members.
Context `{ET : ExternalTypes}.

Definition set_cert_data_ : der_Input -> ParsedCertificate -> ParsedCertificate :=
ltac:(assign_member (@cert_data_ ET)).
Definition set_cert_ : der_Input -> ParsedCertificate -> ParsedCertificate :=
ltac:(assign_member (@cert_ ET)).
Definition set_tbs_certificate_tlv_ : der_Input -> ParsedCertificate -> ParsedCertificate :=
ltac:(assign_member (@tbs_certificate_tlv_ ET)).
Definition set_signature_algorithm_tlv_ : der_Input -> ParsedCertificate -> ParsedCertificate :=
ltac:(assign_member (@signature_algorithm_tlv_ ET)).
Definition set_signature_value_ : BitString -> ParsedCertificate -> ParsedCertificate :=
ltac:(assign_member (@signature_value_ ET)).
Definition set_tbs_ : ParsedTbsCertificate -> ParsedCertificate -> ParsedCertificate :=
ltac:(assign_member (@tbs_ ET)).
Definition set_signature_algorithm_ : SignatureAlgorithm -> ParsedCertificate -> ParsedCertificate :=
ltac:(assign_member (@signature_algorithm_ ET)).
Definition set_normalized_subject_ : der_Input -> ParsedCertificate -> ParsedCertificate :=
ltac:(assign_member (@normalized_subject_ ET)).
Definition set_normalized_issuer_ : der_Input -> ParsedCertificate -> ParsedCertificate :=
ltac:(assign_member (@normalized_issuer_ ET)).
Definition set_extensions_ : gmap der_Input ParsedExtension -> ParsedCertificate -> ParsedCertificate :=
ltac:(assign_member (@extensions_ ET)).
Definition set_has_basic_constraints_ : bool -> ParsedCertificate -> ParsedCertificate :=
ltac:(assign_member (@has_basic_constraints_ ET)).
Definition set_basic_constraints_ : ParsedBasicConstraints -> ParsedCertificate -> ParsedCertificate :=
ltac:(assign_member (@basic_constraints_ ET)).
Definition set_has_key_usage_ : bool -> ParsedCertificate -> ParsedCertificate :=
ltac:(assign_member (@has_key_usage_ ET)).
Definition set_key_usage_ : BitString -> ParsedCertificate -> ParsedCertificate :=
ltac:(assign_member (@key_usage_ ET)).
Definition set_has_extended_key_usage_ : bool -> ParsedCertificate -> ParsedCertificate :=
ltac:(assign_member (@has_extended_key_usage_ ET)).
Definition set_extended_key_usage_ : list der_Input -> ParsedCertificate -> ParsedCertificate :=
ltac:(assign_member (@extended_key_usage_ ET)).
Definition set_subject_alt_names_extension_ : ParsedExtension -> ParsedCertificate -> ParsedCertificate :=
ltac:(assign_member (@subject_alt_names_extension_ ET)).
Definition set_subject_alt_names_ : option GeneralNames -> ParsedCertificate -> ParsedCertificate :=
ltac:(assign_member (@subject_alt_names_ ET)).
Definition set_name_constraints_ : option NameConstraints -> ParsedCertificate -> ParsedCertificate :=
ltac:(assign_member (@name_constraints_ ET)).
Definition set_has_authority_info_access_ : bool -> ParsedCertificate -> ParsedCertificate :=
ltac:(assign_member (@has_authority_info_access_ ET)).
Definition set_authority_info_access_extension_ : ParsedExtension -> ParsedCertificate -> ParsedCertificate :=
ltac:(assign_member (@authority_info_access_extension_ ET)).
Definition set_ca_issuers_uris_ : list der_Input -> ParsedCertificate -> ParsedCertificate :=
ltac:(assign_member (@ca_issuers_uris_ ET)).
Definition set_ocsp_uris_ : list der_Input -> ParsedCertificate -> ParsedCertificate :=
ltac:(assign_member (@ocsp_uris_ ET)).
Definition set_has_policy_oids_ : bool -> ParsedCertificate -> ParsedCertificate :=
ltac:(assign_member (@has_policy_oids_ ET)).
Definition set_policy_oids_ : list der_Input -> ParsedCertificate -> ParsedCertificate :=
ltac:(assign_member (@policy_oids_ ET)).
Definition set_has_policy_constraints_ : bool -> ParsedCertificate -> ParsedCertificate :=
ltac:(assign_member (@has_policy_constraints_ ET)).
Definition set_policy_constraints_ : ParsedPolicyConstraints -> ParsedCertificate -> ParsedCertificate :=
ltac:(assign_member (@policy_constraints_ ET)).
Definition set_has_policy_mappings_ : bool -> ParsedCertificate -> ParsedCertificate :=
ltac:(assign_member (@has_policy_mappings_ ET)).
Definition set_policy_mappings_ : list ParsedPolicyMapping -> ParsedCertificate -> ParsedCertificate :=
ltac:(assign_member (@policy_mappings_ ET)).
Definition set_has_inhibit_any_policy_ : bool -> ParsedCertificate -> ParsedCertificate :=
ltac:(assign_member (@has_inhibit_any_policy_ ET)).
Definition set_inhibit_any_policy_ : Z -> ParsedCertificate -> ParsedCertificate :=
ltac:(assign_member (@inhibit_any_policy_ ET)).
Definition set_subject_key_identifier_ : option der_Input -> ParsedCertificate -> ParsedCertificate :=
ltac:(assign_member (@subject_key_identifier_ ET)).
Definition set_authority_key_identifier_ : option ParsedAuthorityKeyIdentifier -> ParsedCertificate -> ParsedCertificate :=
ltac:(assign_member (@authority_key_identifier_ ET)).

End Members.

(** ** The parsers [Create] calls

    They live in other translation units ([parse_certificate],
    [signature_algorithm], [verify_name_match], [general_names], ...), so they
    are an interface here.  A parser that is handed the [CertErrors] sink can
    only append to it: it is modelled by its result together with the nodes it
    appends ([Reported]); a parser that is not handed the sink returns just
    its result.  A parser signals failure by returning [false] (or a null
    pointer, or [nullopt]): [None] here. *)
Definition Reported (A : Type) : Type := (option A * CertErrors)%type.

Class Collaborators `{ExternalTypes} : Type := {
  (* OID constants of parse_certificate.h *)
  kBasicConstraintsOid : der_Input;
  kKeyUsageOid : der_Input;
  kExtKeyUsageOid : der_Input;
  kSubjectAltNameOid : der_Input;
  kNameConstraintsOid : der_Input;
  kAuthorityInfoAccessOid : der_Input;
  kCertificatePoliciesOid : der_Input;
  kPolicyConstraintsOid : der_Input;
  kPolicyMappingsOid : der_Input;
  kInhibitAnyPolicyOid : der_Input;
  kSubjectKeyIdentifierOid : der_Input;
  kAuthorityKeyIdentifierOid : der_Input;
  (* der::Parser: a parser is the input it has not consumed yet; ReadTag
     returns the value of the element read and the advanced parser *)
  kSequence : Z;
  Parser_ReadTag : Z -> der_Input -> option (der_Input * der_Input);
  (* certificate, TBS, signature algorithm, names *)
  ParseCertificate : der_Input -> Reported (der_Input * der_Input * BitString);
  ParseTbsCertificate :
    der_Input -> ParseCertificateOptions -> Reported ParsedTbsCertificate;
  ParseSignatureAlgorithm : der_Input -> Reported SignatureAlgorithm;
  NormalizeName : der_Input -> Reported der_Input;
  (* the extensions region: the mapping from identifier to record *)
  ParseExtensions : der_Input -> option (gmap der_Input ParsedExtension);
  (* one sub-parser per recognized extension *)
  ParseBasicConstraints : der_Input -> option ParsedBasicConstraints;
  ParseKeyUsage : der_Input -> option BitString;
  ParseEKUExtension : der_Input -> option (list der_Input);
  GeneralNames_Create : der_Input -> Reported GeneralNames;
  NameConstraints_Create : der_Input -> bool -> Reported NameConstraints;
  ParseAuthorityInfoAccessURIs :
    der_Input -> option (list der_Input * list der_Input);
  ParseCertificatePoliciesExtensionOids :
    der_Input -> bool -> Reported (list der_Input);
  ParsePolicyConstraints : der_Input -> option ParsedPolicyConstraints;
  ParsePolicyMappings : der_Input -> option (list ParsedPolicyMapping);
  ParseInhibitAnyPolicy : der_Input -> option Z;
  ParseSubjectKeyIdentifier : der_Input -> option der_Input;
  ParseAuthorityKeyIdentifier : der_Input -> option ParsedAuthorityKeyIdentifier
}.

(** ** Computations that append to the sink and may return early

    The body of [Create] runs with [errors] pointing at a sink and leaves by
    [return nullptr] after an [AddError].  [Sink A] is such a computation:
    from the sink before to the result ([None] for the early return) and the
    sink after. *)
Definition Sink (A : Type) : Type := CertErrors -> option A * CertErrors.

Definition ret {A} (a : A) : Sink A := fun errors => (Some a, errors).

Definition bind {A B} (m : Sink A) (k : A -> Sink B) : Sink B :=
  fun errors =>
    match m errors with
    | (Some a, errors') => k a errors'
    | (None, errors') => (None, errors')
    end.

(** [errors->AddError(id); return nullptr;] *)
Definition fail_with {A} (id : CertErrorId) : Sink A :=
  fun errors => (None, AddError id errors).

(** [if (!Parse(..., errors)) { errors->AddError(id); return nullptr; }] *)
Definition check_reported {A} (id : CertErrorId) (r : Reported A) : Sink A :=
  fun errors =>
    match r with
    | (Some a, added) => (Some a, errors ++ added)
    | (None, added) => (None, AddError id (errors ++ added))
    end.

(** [if (!Parse(...)) { errors->AddError(id); return nullptr; }] *)
Definition check {A} (id : CertErrorId) (r : option A) : Sink A :=
  fun errors =>
    match r with
    | Some a => (Some a, errors)
    | None => (None, AddError id errors)
    end.

(** A computation only appends to the sink: its result does not depend on
    the nodes already there, and these are kept in front of the new ones. *)
Definition appends {A} (m : Sink A) : Prop :=
  forall errors, m errors = (fst (m []), errors ++ snd (m [])).

Declare Scope sink_scope.
Delimit Scope sink_scope with sink.
Notation "'let*' x ':=' m 'in' k" := (bind m (fun x => k))
  (at level 10, x pattern, m at level 100, k at level 200) : sink_scope.

Section Model.
Context {ET : ExternalTypes} {C : Collaborators}.
Local Open Scope sink_scope.

(** *** [der::Parser::HasMore] and [GetSequenceValue] *)
Definition Parser_HasMore (parser : der_Input) : bool :=
  match parser with
  | [] => false
  | _ :: _ => true
  end.

Definition GetSequenceValue (tlv : der_Input) : option der_Input :=
  match Parser_ReadTag kSequence tlv with
  | Some (value, parser) => if Parser_HasMore parser then None else Some value
  | None => None
  end.

(** *** [ParsedCertificate::GetExtension]

    The out-parameter [*parsed_extension] is passed in and returned. *)
Definition GetExtension (self : ParsedCertificate) (extension_oid : der_Input)
    (parsed_extension : ParsedExtension) : bool * ParsedExtension :=
  match extensions_tlv (tbs_ self) with
  | None => (false, parsed_extension)
  | Some _ =>
      match extensions_ self !! extension_oid with
      | None => (false, default_ParsedExtension)
      | Some found => (true, found)
      end
  end.

(** *** [ParsedCertificate::Create], up to the extensions (lines 90-134)

    Returns [result] and the local [subject_value]. *)
Definition Create_header (backing_data : der_Input)
    (options : ParseCertificateOptions)
    : Sink (ParsedCertificate * der_Input) :=
  let result := new_ParsedCertificate in
  let result := set_cert_data_ backing_data result in
  let result := set_cert_ (cert_data_ result) result in
  let* (tbs_tlv, sigalg_tlv, signature) :=
    check_reported kFailedParsingCertificate (ParseCertificate (cert_ result)) in
  let result := set_tbs_certificate_tlv_ tbs_tlv result in
  let result := set_signature_algorithm_tlv_ sigalg_tlv result in
  let result := set_signature_value_ signature result in
  let* tbs :=
    check_reported kFailedParsingTbsCertificate
      (ParseTbsCertificate (tbs_certificate_tlv_ result) options) in
  let result := set_tbs_ tbs result in
  let* sigalg :=
    check_reported kFailedParsingSignatureAlgorithm
      (ParseSignatureAlgorithm (signature_algorithm_tlv_ result)) in
  let result := set_signature_algorithm_ sigalg result in
  let* subject_value :=
    check kFailedReadingIssuerOrSubject
      (GetSequenceValue (subject_tlv (tbs_ result))) in
  let* normalized_subject :=
    check_reported kFailedNormalizingSubject (NormalizeName subject_value) in
  let result := set_normalized_subject_ normalized_subject result in
  let* issuer_value :=
    check kFailedReadingIssuerOrSubject
      (GetSequenceValue (issuer_tlv (tbs_ result))) in
  let* normalized_issuer :=
    check_reported kFailedNormalizingIssuer (NormalizeName issuer_value) in
  let result := set_normalized_issuer_ normalized_issuer result in
  ret (result, subject_value).

(** *** The twelve extension blocks (lines 148-282)

    Each block takes and returns [result] and the local [extension], which
    is shared by the blocks that look up into it. *)
Definition Block : Type :=
  ParsedCertificate * ParsedExtension -> Sink (ParsedCertificate * ParsedExtension).

Definition dispatch_BasicConstraints : Block := fun '(result, extension) =>
  let '(found, extension) := GetExtension result kBasicConstraintsOid extension in
  if found then
    let result := set_has_basic_constraints_ true result in
    let* basic_constraints :=
      check kFailedParsingBasicConstraints
        (ParseBasicConstraints (value extension)) in
    ret (set_basic_constraints_ basic_constraints result, extension)
  else ret (result, extension).

Definition dispatch_KeyUsage : Block := fun '(result, extension) =>
  let '(found, extension) := GetExtension result kKeyUsageOid extension in
  if found then
    let result := set_has_key_usage_ true result in
    let* key_usage :=
      check kFailedParsingKeyUsage (ParseKeyUsage (value extension)) in
    ret (set_key_usage_ key_usage result, extension)
  else ret (result, extension).

Definition dispatch_ExtKeyUsage : Block := fun '(result, extension) =>
  let '(found, extension) := GetExtension result kExtKeyUsageOid extension in
  if found then
    let result := set_has_extended_key_usage_ true result in
    let* eku :=
      check kFailedParsingEku (ParseEKUExtension (value extension)) in
    ret (set_extended_key_usage_ eku result, extension)
  else ret (result, extension).

Definition dispatch_SubjectAltName (subject_value : der_Input) : Block :=
  fun '(result, extension) =>
  let '(found, san) :=
    GetExtension result kSubjectAltNameOid (subject_alt_names_extension_ result) in
  let result := set_subject_alt_names_extension_ san result in
  if found then
    let* names :=
      check_reported kFailedParsingSubjectAltName
        (GeneralNames_Create (value (subject_alt_names_extension_ result))) in
    let result := set_subject_alt_names_ (Some names) result in
    if (Z.of_nat (length subject_value) =? 0)
       && negb (critical (subject_alt_names_extension_ result))
    then fail_with kSubjectAltNameNotCritical
    else ret (result, extension)
  else ret (result, extension).

Definition dispatch_NameConstraints : Block := fun '(result, extension) =>
  let '(found, extension) := GetExtension result kNameConstraintsOid extension in
  if found then
    let* name_constraints :=
      check_reported kFailedParsingNameConstraints
        (NameConstraints_Create (value extension) (critical extension)) in
    ret (set_name_constraints_ (Some name_constraints) result, extension)
  else ret (result, extension).

Definition dispatch_AuthorityInfoAccess : Block := fun '(result, extension) =>
  let '(found, aia) :=
    GetExtension result kAuthorityInfoAccessOid
      (authority_info_access_extension_ result) in
  let result := set_authority_info_access_extension_ aia result in
  if found then
    let result := set_has_authority_info_access_ true result in
    let* (ca_issuers, ocsp) :=
      check kFailedParsingAia
        (ParseAuthorityInfoAccessURIs
           (value (authority_info_access_extension_ result))) in
    ret (set_ocsp_uris_ ocsp (set_ca_issuers_uris_ ca_issuers result), extension)
  else ret (result, extension).

Definition dispatch_CertificatePolicies : Block := fun '(result, extension) =>
  let '(found, extension) := GetExtension result kCertificatePoliciesOid extension in
  if found then
    let result := set_has_policy_oids_ true result in
    let* policies :=
      check_reported kFailedParsingPolicies
        (ParseCertificatePoliciesExtensionOids (value extension) false) in
    ret (set_policy_oids_ policies result, extension)
  else ret (result, extension).

Definition dispatch_PolicyConstraints : Block := fun '(result, extension) =>
  let '(found, extension) := GetExtension result kPolicyConstraintsOid extension in
  if found then
    let result := set_has_policy_constraints_ true result in
    let* policy_constraints :=
      check kFailedParsingPolicyConstraints
        (ParsePolicyConstraints (value extension)) in
    ret (set_policy_constraints_ policy_constraints result, extension)
  else ret (result, extension).

Definition dispatch_PolicyMappings : Block := fun '(result, extension) =>
  let '(found, extension) := GetExtension result kPolicyMappingsOid extension in
  if found then
    let result := set_has_policy_mappings_ true result in
    let* mappings :=
      check kFailedParsingPolicyMappings (ParsePolicyMappings (value extension)) in
    ret (set_policy_mappings_ mappings result, extension)
  else ret (result, extension).

Definition dispatch_InhibitAnyPolicy : Block := fun '(result, extension) =>
  let '(found, extension) := GetExtension result kInhibitAnyPolicyOid extension in
  if found then
    let result := set_has_inhibit_any_policy_ true result in
    let* inhibit :=
      check kFailedParsingInhibitAnyPolicy
        (ParseInhibitAnyPolicy (value extension)) in
    ret (set_inhibit_any_policy_ inhibit result, extension)
  else ret (result, extension).

Definition dispatch_SubjectKeyIdentifier : Block := fun '(result, extension) =>
  let '(found, extension) := GetExtension result kSubjectKeyIdentifierOid extension in
  if found then
    let result := set_subject_key_identifier_ (Some []) result in
    let* key_identifier :=
      check kFailedParsingSubjectKeyIdentifier
        (ParseSubjectKeyIdentifier (value extension)) in
    ret (set_subject_key_identifier_ (Some key_identifier) result, extension)
  else ret (result, extension).

Definition dispatch_AuthorityKeyIdentifier : Block := fun '(result, extension) =>
  let '(found, extension) :=
    GetExtension result kAuthorityKeyIdentifierOid extension in
  if found then
    let result :=
      set_authority_key_identifier_
        (Some default_ParsedAuthorityKeyIdentifier) result in
    let* key_identifier :=
      check kFailedParsingAuthorityKeyIdentifier
        (ParseAuthorityKeyIdentifier (value extension)) in
    ret (set_authority_key_identifier_ (Some key_identifier) result, extension)
  else ret (result, extension).

(** *** [ParsedCertificate::Create], the extensions (lines 136-285) *)
Definition Create_extensions (result : ParsedCertificate)
    (subject_value : der_Input) : Sink ParsedCertificate :=
  match extensions_tlv (tbs_ result) with
  | Some tlv =>
      let* extensions := check kFailedParsingExtensions (ParseExtensions tlv) in
      let result := set_extensions_ extensions result in
      let extension := default_ParsedExtension in
      let* st := dispatch_BasicConstraints (result, extension) in
      let* st := dispatch_KeyUsage st in
      let* st := dispatch_ExtKeyUsage st in
      let* st := dispatch_SubjectAltName subject_value st in
      let* st := dispatch_NameConstraints st in
      let* st := dispatch_AuthorityInfoAccess st in
      let* st := dispatch_CertificatePolicies st in
      let* st := dispatch_PolicyConstraints st in
      let* st := dispatch_PolicyMappings st in
      let* st := dispatch_InhibitAnyPolicy st in
      let* st := dispatch_SubjectKeyIdentifier st in
      let* st := dispatch_AuthorityKeyIdentifier st in
      ret (fst st)
  | None => ret result
  end.

(** *** [ParsedCertificate::Create]

    [errors] is optional: [None] is the null pointer.  With a null pointer
    the body runs on the local [unused_errors], which is dropped on
    return; otherwise it runs on the caller's sink, which is returned
    updated. *)
Definition Create_body (backing_data : der_Input)
    (options : ParseCertificateOptions) : Sink ParsedCertificate :=
  let* (result, subject_value) := Create_header backing_data options in
  Create_extensions result subject_value.

Definition Create (backing_data : der_Input) (options : ParseCertificateOptions)
    (errors : option CertErrors)
    : option ParsedCertificate * option CertErrors :=
  match errors with
  | None =>
      let unused_errors : CertErrors := [] in
      (fst (Create_body backing_data options unused_errors), None)
  | Some errors =>
      let '(result, errors) := Create_body backing_data options errors in
      (result, Some errors)
  end.

(** *** [ParsedCertificate::CreateAndAddToVector]

    Returns the boolean, the caller's [chain] and the caller's sink. *)
Definition CreateAndAddToVector (cert_data : der_Input)
    (options : ParseCertificateOptions) (chain : list ParsedCertificate)
    (errors : option CertErrors)
    : bool * list ParsedCertificate * option CertErrors :=
  let '(cert, errors) := Create cert_data options errors in
  match cert with
  | None => (false, chain, errors)
  | Some cert => (true, chain ++ [cert], errors)
  end.

End Model.

(** ** The table of extensions

    [Create] says of [ParseExtensions]: "ParseExtensions() ensures there are
    no duplicates, and maps the (unique) OID to the extension value".  The
    function itself is in parse_certificate.cc, which is not among the
    sources: [Create] is modelled over any [ParseExtensions], and the
    statements that are about what the table holds are made for a
    [ParseExtensions] that is the function below. *)

(** Modelled from the spec: [ParseExtensions], the Extension Table Builder.
    The region is read as a sequence of extension records, each carrying an
    identifier, a criticality flag and a value ([ReadExtensionRecords], the
    generic reader, which fails on a region that is not such a sequence);
    the records are entered one by one in a mapping from identifier to
    record, and the parse fails if any identifier appears more than
    once. *)
Fixpoint insert_extensions (records : list ParsedExtension)
    (extensions : gmap der_Input ParsedExtension)
    : option (gmap der_Input ParsedExtension) :=
  match records with
  | [] => Some extensions
  | extension :: rest =>
      match extensions !! oid extension with
      | Some _ => None
      | None => insert_extensions rest (<[oid extension := extension]> extensions)
      end
  end.

Definition modelled_ParseExtensions
    (ReadExtensionRecords : der_Input -> option (list ParsedExtension))
    (extensions_tlv : der_Input) : option (gmap der_Input ParsedExtension) :=
  match ReadExtensionRecords extensions_tlv with
  | None => None
  | Some records => insert_extensions records ∅
  end.

(** ** The dispatch, indexed

    The twelve blocks of [Create] differ in the identifier they look up, the
    sub-parser they call, the error they record and the members they assign.
    The definitions below name these per extension, in the order of the
    source, so that statements can range over the blocks. *)
Inductive RecognizedExtension : Type :=
  | ExtBasicConstraints
  | ExtKeyUsage
  | ExtExtKeyUsage
  | ExtSubjectAltName
  | ExtNameConstraints
  | ExtAuthorityInfoAccess
  | ExtCertificatePolicies
  | ExtPolicyConstraints
  | ExtPolicyMappings
  | ExtInhibitAnyPolicy
  | ExtSubjectKeyIdentifier
  | ExtAuthorityKeyIdentifier.

Definition dispatch_order : list RecognizedExtension :=
  [ ExtBasicConstraints; ExtKeyUsage; ExtExtKeyUsage; ExtSubjectAltName;
    ExtNameConstraints; ExtAuthorityInfoAccess; ExtCertificatePolicies;
    ExtPolicyConstraints; ExtPolicyMappings; ExtInhibitAnyPolicy;
    ExtSubjectKeyIdentifier; ExtAuthorityKeyIdentifier ].

Definition is_SubjectAltName (k : RecognizedExtension) : bool :=
  match k with
  | ExtSubjectAltName => true
  | _ => false
  end.

Definition succeeded {A} (r : option A) : bool :=
  match r with
  | Some _ => true
  | None => false
  end.

Section Dispatch.
Context {ET : ExternalTypes} {C : Collaborators}.

Definition ext_oid (k : RecognizedExtension) : der_Input :=
  match k with
  | ExtBasicConstraints => kBasicConstraintsOid
  | ExtKeyUsage => kKeyUsageOid
  | ExtExtKeyUsage => kExtKeyUsageOid
  | ExtSubjectAltName => kSubjectAltNameOid
  | ExtNameConstraints => kNameConstraintsOid
  | ExtAuthorityInfoAccess => kAuthorityInfoAccessOid
  | ExtCertificatePolicies => kCertificatePoliciesOid
  | ExtPolicyConstraints => kPolicyConstraintsOid
  | ExtPolicyMappings => kPolicyMappingsOid
  | ExtInhibitAnyPolicy => kInhibitAnyPolicyOid
  | ExtSubjectKeyIdentifier => kSubjectKeyIdentifierOid
  | ExtAuthorityKeyIdentifier => kAuthorityKeyIdentifierOid
  end.

(** The error a block records when its sub-parser fails. *)
Definition ext_error (k : RecognizedExtension) : CertErrorId :=
  match k with
  | ExtBasicConstraints => kFailedParsingBasicConstraints
  | ExtKeyUsage => kFailedParsingKeyUsage
  | ExtExtKeyUsage => kFailedParsingEku
  | ExtSubjectAltName => kFailedParsingSubjectAltName
  | ExtNameConstraints => kFailedParsingNameConstraints
  | ExtAuthorityInfoAccess => kFailedParsingAia
  | ExtCertificatePolicies => kFailedParsingPolicies
  | ExtPolicyConstraints => kFailedParsingPolicyConstraints
  | ExtPolicyMappings => kFailedParsingPolicyMappings
  | ExtInhibitAnyPolicy => kFailedParsingInhibitAnyPolicy
  | ExtSubjectKeyIdentifier => kFailedParsingSubjectKeyIdentifier
  | ExtAuthorityKeyIdentifier => kFailedParsingAuthorityKeyIdentifier
  end.

Definition dispatch (subject_value : der_Input) (k : RecognizedExtension) : Block :=
  match k with
  | ExtBasicConstraints => dispatch_BasicConstraints
  | ExtKeyUsage => dispatch_KeyUsage
  | ExtExtKeyUsage => dispatch_ExtKeyUsage
  | ExtSubjectAltName => dispatch_SubjectAltName subject_value
  | ExtNameConstraints => dispatch_NameConstraints
  | ExtAuthorityInfoAccess => dispatch_AuthorityInfoAccess
  | ExtCertificatePolicies => dispatch_CertificatePolicies
  | ExtPolicyConstraints => dispatch_PolicyConstraints
  | ExtPolicyMappings => dispatch_PolicyMappings
  | ExtInhibitAnyPolicy => dispatch_InhibitAnyPolicy
  | ExtSubjectKeyIdentifier => dispatch_SubjectKeyIdentifier
  | ExtAuthorityKeyIdentifier => dispatch_AuthorityKeyIdentifier
  end.

(** The blocks of [ks] one after the other, then [return result]. *)
Fixpoint run_blocks (subject_value : der_Input) (ks : list RecognizedExtension)
    (st : ParsedCertificate * ParsedExtension) : Sink ParsedCertificate :=
  match ks with
  | [] => ret (fst st)
  | k :: ks => bind (dispatch subject_value k st) (run_blocks subject_value ks)
  end.

(** Whether the sub-parser of [k] accepts the record [e], called the way
    the block of [k] calls it. *)
Definition sub_parser_ok (k : RecognizedExtension) (e : ParsedExtension) : bool :=
  match k with
  | ExtBasicConstraints => succeeded (ParseBasicConstraints (value e))
  | ExtKeyUsage => succeeded (ParseKeyUsage (value e))
  | ExtExtKeyUsage => succeeded (ParseEKUExtension (value e))
  | ExtSubjectAltName => succeeded (fst (GeneralNames_Create (value e)))
  | ExtNameConstraints =>
      succeeded (fst (NameConstraints_Create (value e) (critical e)))
  | ExtAuthorityInfoAccess => succeeded (ParseAuthorityInfoAccessURIs (value e))
  | ExtCertificatePolicies =>
      succeeded (fst (ParseCertificatePoliciesExtensionOids (value e) false))
  | ExtPolicyConstraints => succeeded (ParsePolicyConstraints (value e))
  | ExtPolicyMappings => succeeded (ParsePolicyMappings (value e))
  | ExtInhibitAnyPolicy => succeeded (ParseInhibitAnyPolicy (value e))
  | ExtSubjectKeyIdentifier => succeeded (ParseSubjectKeyIdentifier (value e))
  | ExtAuthorityKeyIdentifier => succeeded (ParseAuthorityKeyIdentifier (value e))
  end.

(** [k] is in the table and its sub-parser rejects it. *)
Definition malformed (extensions : gmap der_Input ParsedExtension)
    (k : RecognizedExtension) : bool :=
  match extensions !! ext_oid k with
  | Some e => negb (sub_parser_ok k e)
  | None => false
  end.

(** The check of lines 192-196 is reached and fails: subjectAltName is in
    the table, [GeneralNames::Create] accepts it, the subject value is
    empty and the extension is not critical. *)
Definition san_check_fails (subject_value : der_Input)
    (extensions : gmap der_Input ParsedExtension) : bool :=
  match extensions !! kSubjectAltNameOid with
  | Some e =>
      sub_parser_ok ExtSubjectAltName e
      && (Z.of_nat (length subject_value) =? 0) && negb (critical e)
  | None => false
  end.

(** The block of [k] runs to its end. *)
Definition passes (subject_value : der_Input)
    (extensions : gmap der_Input ParsedExtension) (k : RecognizedExtension) : bool :=
  negb (malformed extensions k)
  && negb (is_SubjectAltName k && san_check_fails subject_value extensions).

(** The error the block of [k] records when it does not run to its end. *)
Definition block_error (extensions : gmap der_Input ParsedExtension)
    (k : RecognizedExtension) : CertErrorId :=
  if malformed extensions k then ext_error k else kSubjectAltNameNotCritical.

(** The presence indicator of each recognized extension: a [has_...]
    flag, or whether the owning pointer or optional is set. *)
Definition is_present (k : RecognizedExtension) (cert : ParsedCertificate) : bool :=
  match k with
  | ExtBasicConstraints => has_basic_constraints_ cert
  | ExtKeyUsage => has_key_usage_ cert
  | ExtExtKeyUsage => has_extended_key_usage_ cert
  | ExtSubjectAltName => succeeded (subject_alt_names_ cert)
  | ExtNameConstraints => succeeded (name_constraints_ cert)
  | ExtAuthorityInfoAccess => has_authority_info_access_ cert
  | ExtCertificatePolicies => has_policy_oids_ cert
  | ExtPolicyConstraints => has_policy_constraints_ cert
  | ExtPolicyMappings => has_policy_mappings_ cert
  | ExtInhibitAnyPolicy => has_inhibit_any_policy_ cert
  | ExtSubjectKeyIdentifier => succeeded (subject_key_identifier_ cert)
  | ExtAuthorityKeyIdentifier => succeeded (authority_key_identifier_ cert)
  end.

(** [Create] returned no object and the last node of the caller's sink is
    the high-severity error [id]. *)
Definition fails_with (id : CertErrorId)
    (out : option ParsedCertificate * option CertErrors) : Prop :=
  fst out = None
  /\ snd out ≫= last = Some {| err_severity := SEVERITY_HIGH; err_id := id |}.

(** The state after a block has the TBS and the table of [result]. *)
Definition kept (result : ParsedCertificate)
    (st : ParsedCertificate * ParsedExtension) : Prop :=
  tbs_ (fst st) = tbs_ result /\ extensions_ (fst st) = extensions_ result.

(** The header of [Create] succeeds on the input. *)
Definition header (backing_data : der_Input) (options : ParseCertificateOptions)
    : option (ParsedCertificate * der_Input) :=
  fst (Create_header backing_data options []).

End Dispatch.

(** ** The error kinds of the specification

    The specification names the failures of [create] by kind.  [spec_kind]
    gives, for each identifier [Create] records, the kind the specification
    uses for that step. *)
Inductive SpecErrorKind : Type :=
  | MalformedCertificate
  | MalformedTbsCertificate
  | UnrecognizedOrMalformedSignatureAlgorithm
  | MalformedName
  | NameNormalizationFailed
  | MalformedExtensions
  | DuplicateExtension
  | EmptySubjectRequiresCriticalSan
  | MalformedExtension (k : RecognizedExtension).

Definition spec_kinds : list (CertErrorId * SpecErrorKind) :=
  [ (kFailedParsingCertificate, MalformedCertificate);
    (kFailedParsingTbsCertificate, MalformedTbsCertificate);
    (kFailedParsingSignatureAlgorithm, UnrecognizedOrMalformedSignatureAlgorithm);
    (kFailedReadingIssuerOrSubject, MalformedName);
    (kFailedNormalizingSubject, NameNormalizationFailed);
    (kFailedNormalizingIssuer, NameNormalizationFailed);
    (kFailedParsingExtensions, MalformedExtensions);
    (kSubjectAltNameNotCritical, EmptySubjectRequiresCriticalSan);
    (kFailedParsingBasicConstraints, MalformedExtension ExtBasicConstraints);
    (kFailedParsingKeyUsage, MalformedExtension ExtKeyUsage);
    (kFailedParsingEku, MalformedExtension ExtExtKeyUsage);
    (kFailedParsingSubjectAltName, MalformedExtension ExtSubjectAltName);
    (kFailedParsingNameConstraints, MalformedExtension ExtNameConstraints);
    (kFailedParsingAia, MalformedExtension ExtAuthorityInfoAccess);
    (kFailedParsingPolicies, MalformedExtension ExtCertificatePolicies);
    (kFailedParsingPolicyConstraints, MalformedExtension ExtPolicyConstraints);
    (kFailedParsingPolicyMappings, MalformedExtension ExtPolicyMappings);
    (kFailedParsingInhibitAnyPolicy, MalformedExtension ExtInhibitAnyPolicy);
    (kFailedParsingSubjectKeyIdentifier, MalformedExtension ExtSubjectKeyIdentifier);
    (kFailedParsingAuthorityKeyIdentifier,
     MalformedExtension ExtAuthorityKeyIdentifier) ].

Definition spec_kind (id : CertErrorId) : option SpecErrorKind :=
  snd <$> List.find (fun entry => String.eqb (fst entry) id) spec_kinds.

(** The kind of the failure [Create] recorded: the kind of the last node of
    the sink, when no object was returned. *)
Definition recorded_kind {A} (out : option A * option CertErrors)
    : option SpecErrorKind :=
  match out with
  | (None, Some errors) =>
      match last errors with
      | Some node => spec_kind (err_id node)
      | None => None
      end
  | _ => None
  end.

(** ** A small instance of the interface

    The statements below hold for every instance of [Collaborators].  To
    evaluate the model on concrete certificates, [Doubles] provides one: a
    reader of DER elements (definite lengths up to two length bytes), and on
    top of it parsers that follow the layout of RFC 5280

      Certificate    ::= SEQUENCE { tbsCertificate, signatureAlgorithm,
                                    signatureValue BIT STRING }
      TBSCertificate ::= SEQUENCE { [0] version DEFAULT v1, serialNumber,
                                    signature, issuer, validity, subject,
                                    subjectPublicKeyInfo,
                                    [1] issuerUniqueID OPTIONAL,
                                    [2] subjectUniqueID OPTIONAL,
                                    [3] extensions OPTIONAL }
      Extension      ::= SEQUENCE { extnID OID, critical BOOLEAN DEFAULT FALSE,
                                    extnValue OCTET STRING }

    down to the elements: a typed value is the content of the element it
    was read from, and a sub-parser accepts a value that is one element of
    the tag its extension has. *)
Module Doubles.

#[export] Instance types : ExternalTypes := {|
  ParseCertificateOptions := unit;
  BitString := list Z;
  SignatureAlgorithm := list Z;
  TbsOther := list Z;
  ParsedBasicConstraints := list Z;
  GeneralNames := list Z;
  NameConstraints := list Z;
  ParsedPolicyConstraints := list Z;
  ParsedPolicyMapping := list Z;
  ParsedAuthorityKeyIdentifier := list Z;
  default_BitString := [];
  default_SignatureAlgorithm := [];
  default_TbsOther := [];
  default_ParsedBasicConstraints := [];
  default_ParsedPolicyConstraints := [];
  default_ParsedAuthorityKeyIdentifier := []
|}.

(** Tag, length, content. *)
Definition encode_length (n : Z) : list Z :=
  if n <? 0x80 then [n]
  else if n <? 0x100 then [0x81; n]
  else [0x82; n / 0x100; n mod 0x100].

Definition tlv (tag : Z) (content : list Z) : list Z :=
  tag :: encode_length (Z.of_nat (length content)) ++ content.

Definition is_byte (b : Z) : bool := (0 <=? b) && (b <? 0x100).

(** The length of the content, in its shortest form. *)
Definition read_length (input : list Z) : option (Z * list Z) :=
  match input with
  | first :: rest =>
      if (0 <=? first) && (first <? 0x80) then Some (first, rest)
      else if first =? 0x81 then
        match rest with
        | n :: rest =>
            if (0x80 <=? n) && (n <? 0x100) then Some (n, rest) else None
        | [] => None
        end
      else if first =? 0x82 then
        match rest with
        | high :: low :: rest =>
            if (1 <=? high) && (high <? 0x100) && is_byte low
            then Some (high * 0x100 + low, rest)
            else None
        | _ => None
        end
      else None
  | [] => None
  end.

(** Tag, content and what follows the element. *)
Definition read_element (input : list Z) : option (Z * list Z * list Z) :=
  match input with
  | tag :: after_tag =>
      '(len, rest) ← read_length after_tag;
      if len <=? Z.of_nat (length rest)
      then Some (tag, take (Z.to_nat len) rest, drop (Z.to_nat len) rest)
      else None
  | [] => None
  end.

Definition read_tag (tag : Z) (input : list Z) : option (list Z * list Z) :=
  '(t, content, rest) ← read_element input;
  if t =? tag then Some (content, rest) else None.

Definition read_raw (input : list Z) : option (list Z * list Z) :=
  '(t, content, rest) ← read_element input;
  Some (tlv t content, rest).

(** The input is exactly one element with this tag. *)
Definition single (tag : Z) (input : list Z) : option (list Z) :=
  '(content, rest) ← read_tag tag input;
  match rest with
  | [] => Some content
  | _ :: _ => None
  end.

Definition parse_certificate (cert : list Z) : option (list Z * list Z * list Z) :=
  body ← single 0x30 cert;
  '(tbs, rest) ← read_raw body;
  '(sigalg, rest) ← read_raw rest;
  signature ← single 0x03 rest;
  Some (tbs, sigalg, signature).

(** An element with this tag, and what follows it. *)
Definition read_raw_tag (tag : Z) (input : list Z) : option (list Z * list Z) :=
  '(content, rest) ← read_tag tag input;
  Some (tlv tag content, rest).

(** Skips an optional element with this tag. *)
Definition skip_optional (tag : Z) (input : list Z) : list Z :=
  match read_tag tag input with
  | Some (_, rest) => rest
  | None => input
  end.

Definition make_tbs (issuer subject : list Z) (extensions : option (list Z))
    (serial_number : list Z) : @ParsedTbsCertificate types :=
  {| issuer_tlv := issuer; subject_tlv := subject;
     extensions_tlv := extensions; tbs_other := serial_number |}.

Definition parse_tbs (tbs : list Z) : option (@ParsedTbsCertificate types) :=
  body ← single 0x30 tbs;
  rest ← match read_tag 0xA0 body with
          | Some (version, rest) => _ ← single 0x02 version; Some rest
          | None => Some body
          end;
  '(serial_number, rest) ← read_tag 0x02 rest;
  '(signature, rest) ← read_tag 0x30 rest;
  '(issuer, rest) ← read_raw_tag 0x30 rest;
  '(validity, rest) ← read_tag 0x30 rest;
  '(subject, rest) ← read_raw_tag 0x30 rest;
  '(spki, rest) ← read_tag 0x30 rest;
  let rest := skip_optional 0x81 rest in
  let rest := skip_optional 0x82 rest in
  match rest with
  | [] => Some (make_tbs issuer subject None serial_number)
  | _ :: _ =>
      extensions ← single 0xA3 rest;
      Some (make_tbs issuer subject (Some extensions) serial_number)
  end.

Definition read_extension (extension_tlv : list Z) : option ParsedExtension :=
  body ← single 0x30 extension_tlv;
  '(id, rest) ← read_tag 0x06 body;
  match read_tag 0x01 rest with
  | Some ([flag], rest) =>
      content ← single 0x04 rest;
      Some {| oid := id; value := content; critical := negb (flag =? 0) |}
  | Some _ => None
  | None =>
      content ← single 0x04 rest;
      Some {| oid := id; value := content; critical := false |}
  end.

Fixpoint read_extensions (fuel : nat) (input : list Z)
    : option (list ParsedExtension) :=
  match input, fuel with
  | [], _ => Some []
  | _ :: _, O => None
  | _ :: _, S fuel =>
      '(extension_tlv, rest) ← read_raw input;
      extension ← read_extension extension_tlv;
      extensions ← read_extensions fuel rest;
      Some (extension :: extensions)
  end.

Definition read_extension_records (extensions_tlv : list Z)
    : option (list ParsedExtension) :=
  body ← single 0x30 extensions_tlv;
  match body with
  | [] => None
  | _ :: _ => read_extensions (length body) body
  end.

Definition kGeneralNamesEmpty : CertErrorId := "GeneralNames is a sequence of 0 elements".

Definition general_names (content : list Z) : Reported (list Z) :=
  match single 0x30 content with
  | Some (_ :: _ as names) => (Some names, [])
  | _ => (None, [{| err_severity := SEVERITY_HIGH; err_id := kGeneralNamesEmpty |}])
  end.

Definition inhibit_any_policy (content : list Z) : option Z :=
  match single 0x02 content with
  | Some [n] => Some n
  | _ => None
  end.

#[export] Instance parsers : Collaborators := {|
  kBasicConstraintsOid := [0x55; 0x1d; 0x13];
  kKeyUsageOid := [0x55; 0x1d; 0x0f];
  kExtKeyUsageOid := [0x55; 0x1d; 0x25];
  kSubjectAltNameOid := [0x55; 0x1d; 0x11];
  kNameConstraintsOid := [0x55; 0x1d; 0x1e];
  kAuthorityInfoAccessOid := [0x2b; 0x06; 0x01; 0x05; 0x05; 0x07; 0x01; 0x01];
  kCertificatePoliciesOid := [0x55; 0x1d; 0x20];
  kPolicyConstraintsOid := [0x55; 0x1d; 0x24];
  kPolicyMappingsOid := [0x55; 0x1d; 0x21];
  kInhibitAnyPolicyOid := [0x55; 0x1d; 0x36];
  kSubjectKeyIdentifierOid := [0x55; 0x1d; 0x0e];
  kAuthorityKeyIdentifierOid := [0x55; 0x1d; 0x23];
  kSequence := 0x30;
  Parser_ReadTag := read_tag;
  ParseCertificate := fun cert => (parse_certificate cert, []);
  ParseTbsCertificate := fun tbs _ => (parse_tbs tbs, []);
  ParseSignatureAlgorithm := fun sigalg => (single 0x30 sigalg, []);
  NormalizeName := fun name => (Some name, []);
  ParseExtensions := modelled_ParseExtensions read_extension_records;
  ParseBasicConstraints := single 0x30;
  ParseKeyUsage := single 0x03;
  ParseEKUExtension := fun content => (fun eku => [eku]) <$> single 0x30 content;
  GeneralNames_Create := general_names;
  NameConstraints_Create := fun content _ => (single 0x30 content, []);
  ParseAuthorityInfoAccessURIs :=
    fun content => (fun aia => ([aia], [])) <$> single 0x30 content;
  ParseCertificatePoliciesExtensionOids :=
    fun content _ => ((fun policies => [policies]) <$> single 0x30 content, []);
  ParsePolicyConstraints := single 0x30;
  ParsePolicyMappings := fun content => (fun m => [m]) <$> single 0x30 content;
  ParseInhibitAnyPolicy := inhibit_any_policy;
  ParseSubjectKeyIdentifier := single 0x04;
  ParseAuthorityKeyIdentifier := single 0x30
|}.

(** *** Concrete certificates *)

(** An extension record: identifier, criticality, value. *)
Definition extension (id : list Z) (is_critical : bool) (content : list Z)
    : list Z :=
  tlv 0x30 (tlv 0x06 id ++ (if is_critical then tlv 0x01 [0xff] else [])
            ++ tlv 0x04 content).

(** Name with one attribute, commonName = "a". *)
Definition name_a : list Z :=
  tlv 0x30 (tlv 0x31 (tlv 0x30 (tlv 0x06 [0x55; 0x04; 0x03] ++ tlv 0x0c [0x61]))).

Definition empty_name : list Z := tlv 0x30 [].

(** AlgorithmIdentifier of Ed25519 (1.3.101.112). *)
Definition ed25519 : list Z := tlv 0x30 (tlv 0x06 [0x2b; 0x65; 0x70]).

(** UTCTime 250101000000Z to 350101000000Z. *)
Definition validity : list Z :=
  tlv 0x30
    (tlv 0x17 [0x32; 0x35; 0x30; 0x31; 0x30; 0x31; 0x30; 0x30; 0x30; 0x30;
               0x30; 0x30; 0x5a]
     ++ tlv 0x17 [0x33; 0x35; 0x30; 0x31; 0x30; 0x31; 0x30; 0x30; 0x30; 0x30;
                  0x30; 0x30; 0x5a]).

Definition spki : list Z :=
  tlv 0x30 (ed25519 ++ tlv 0x03 (0x00 :: replicate 32 0x11)).

(** A version 3 certificate, serial number 1, issued by "a", with the given
    subject and extension records; [None] is a TBS without an extensions
    region. *)
Definition certificate (subject : list Z) (extensions : option (list (list Z)))
    : list Z :=
  tlv 0x30
    (tlv 0x30 (tlv 0xA0 (tlv 0x02 [0x02]) ++ tlv 0x02 [0x01] ++ ed25519
               ++ name_a ++ validity ++ subject ++ spki
               ++ match extensions with
                  | Some records => tlv 0xA3 (tlv 0x30 (concat records))
                  | None => []
                  end)
     ++ ed25519 ++ tlv 0x03 (0x00 :: replicate 64 0x22)).

(** Well-formed and malformed values. *)
Definition a_sequence : list Z := tlv 0x30 [0x01; 0x01; 0xff].
Definition not_der : list Z := [0xff].
Definition dns_name_a : list Z := tlv 0x30 (tlv 0x82 [0x61]).

Definition san (is_critical : bool) : list Z :=
  extension [0x55; 0x1d; 0x11] is_critical dns_name_a.

(** Subject "a", no extensions region. *)
Definition cert_plain : list Z := certificate name_a None.
(** Empty subject, no extensions region. *)
Definition cert_empty_subject : list Z := certificate empty_name None.
(** Empty subject, an extensions region without subjectAltName. *)
Definition cert_empty_subject_no_san : list Z :=
  certificate empty_name (Some [extension [0x55; 0x1d; 0x13] true a_sequence]).
(** Empty subject, subjectAltName not critical. *)
Definition cert_san_not_critical : list Z :=
  certificate empty_name (Some [san false]).
(** Empty subject, subjectAltName critical. *)
Definition cert_san_critical : list Z :=
  certificate empty_name (Some [san true]).
(** Two basicConstraints records with different values. *)
Definition cert_duplicate : list Z :=
  certificate name_a
    (Some [ extension [0x55; 0x1d; 0x13] true a_sequence;
            extension [0x55; 0x1d; 0x13] false (tlv 0x30 []) ]).
(** An extensions region that is not a sequence of records. *)
Definition cert_bad_region : list Z := certificate name_a (Some [[0x05; 0x00]]).
(** Malformed basicConstraints (critical) and malformed keyUsage (not
    critical). *)
Definition cert_bad_bc_ku : list Z :=
  certificate name_a
    (Some [ extension [0x55; 0x1d; 0x0f] false not_der;
            extension [0x55; 0x1d; 0x13] true not_der ]).
(** Malformed keyUsage (not critical), nothing else. *)
Definition cert_bad_ku : list Z :=
  certificate name_a (Some [extension [0x55; 0x1d; 0x0f] false not_der]).
(** Empty subject, well-formed subjectAltName that is not critical, and
    malformed nameConstraints and authorityInfoAccess. *)
Definition cert_san_then_malformed : list Z :=
  certificate empty_name
    (Some [ extension [0x2b; 0x06; 0x01; 0x05; 0x05; 0x07; 0x01; 0x01] false not_der;
            extension [0x55; 0x1d; 0x1e] true not_der;
            san false ]).
(** Key usage, an unrecognized extension (1.2.3.4) and a critical
    subjectAltName. *)
Definition cert_three : list Z :=
  certificate name_a
    (Some [ extension [0x55; 0x1d; 0x0f] true (tlv 0x03 [0x07; 0x80]);
            extension [0x2a; 0x03; 0x04] false [0x01; 0x02];
            san true ]).

(** All twelve recognized extensions, well-formed. *)
Definition cert_all : list Z :=
  certificate name_a
    (Some [ extension [0x55; 0x1d; 0x13] true a_sequence;
            extension [0x55; 0x1d; 0x0f] true (tlv 0x03 [0x07; 0x80]);
            extension [0x55; 0x1d; 0x25] false a_sequence;
            san false;
            extension [0x55; 0x1d; 0x1e] true a_sequence;
            extension [0x2b; 0x06; 0x01; 0x05; 0x05; 0x07; 0x01; 0x01] false
              a_sequence;
            extension [0x55; 0x1d; 0x20] false a_sequence;
            extension [0x55; 0x1d; 0x24] true a_sequence;
            extension [0x55; 0x1d; 0x21] false a_sequence;
            extension [0x55; 0x1d; 0x36] true (tlv 0x02 [0x00]);
            extension [0x55; 0x1d; 0x0e] false (tlv 0x04 [0x01; 0x02; 0x03]);
            extension [0x55; 0x1d; 0x23] false a_sequence ]).
(** A subjectAltName that is an empty sequence of names. *)
Definition cert_empty_san : list Z :=
  certificate name_a (Some [extension [0x55; 0x1d; 0x11] false (tlv 0x30 [])]).

Definition no_options : @ParseCertificateOptions types := tt.

(** *** What [Create] computes on the way, on a concrete certificate *)

(** [result] and [subject_value] after the header. *)
Definition header_result (cert : list Z) : ParsedCertificate * list Z :=
  default (new_ParsedCertificate, []) (header cert no_options).

(** The extensions region, its records and the table built from them. *)
Definition region (cert : list Z) : list Z :=
  default [] (extensions_tlv (tbs_ (fst (header_result cert)))).

Definition records (cert : list Z) : list ParsedExtension :=
  default [] (read_extension_records (region cert)).

Definition table (cert : list Z) : gmap (list Z) ParsedExtension :=
  default ∅ (ParseExtensions (region cert)).

(** The certificate [Create] returns. *)
Definition created (cert : list Z) : ParsedCertificate :=
  default new_ParsedCertificate (fst (Create cert no_options None)).

Definition high (id : CertErrorId) : CertError :=
  {| err_severity := SEVERITY_HIGH; err_id := id |}.

End Doubles.

(** ** What a returned certificate holds

    The definitions below name, per recognized extension, the members its
    block assigns, and what they hold once the block has run on a table
    entry. *)
Section Holds.
Context {ET : ExternalTypes} {C : Collaborators}.

(** The identifiers [Create] records (lines 20-52). *)
Definition Create_error_ids : list CertErrorId :=
  [ kFailedParsingCertificate; kFailedParsingTbsCertificate;
    kFailedParsingSignatureAlgorithm; kFailedReadingIssuerOrSubject;
    kFailedNormalizingSubject; kFailedNormalizingIssuer;
    kFailedParsingExtensions; kFailedParsingBasicConstraints;
    kFailedParsingKeyUsage; kFailedParsingEku; kFailedParsingSubjectAltName;
    kSubjectAltNameNotCritical; kFailedParsingNameConstraints;
    kFailedParsingAia; kFailedParsingPolicies;
    kFailedParsingPolicyConstraints; kFailedParsingPolicyMappings;
    kFailedParsingInhibitAnyPolicy; kFailedParsingAuthorityKeyIdentifier;
    kFailedParsingSubjectKeyIdentifier ].

(** The members of [cert] that the block of [k] assigns hold what the block
    computes from the table entry [e]. *)
Definition stored (k : RecognizedExtension) (cert : ParsedCertificate)
    (e : ParsedExtension) : Prop :=
  match k with
  | ExtBasicConstraints =>
      has_basic_constraints_ cert = true
      /\ ParseBasicConstraints (value e) = Some (basic_constraints_ cert)
  | ExtKeyUsage =>
      has_key_usage_ cert = true
      /\ ParseKeyUsage (value e) = Some (key_usage_ cert)
  | ExtExtKeyUsage =>
      has_extended_key_usage_ cert = true
      /\ ParseEKUExtension (value e) = Some (extended_key_usage_ cert)
  | ExtSubjectAltName =>
      subject_alt_names_extension_ cert = e
      /\ is_Some (subject_alt_names_ cert)
      /\ fst (GeneralNames_Create (value e)) = subject_alt_names_ cert
  | ExtNameConstraints =>
      is_Some (name_constraints_ cert)
      /\ fst (NameConstraints_Create (value e) (critical e)) = name_constraints_ cert
  | ExtAuthorityInfoAccess =>
      has_authority_info_access_ cert = true
      /\ authority_info_access_extension_ cert = e
      /\ ParseAuthorityInfoAccessURIs (value e)
         = Some (ca_issuers_uris_ cert, ocsp_uris_ cert)
  | ExtCertificatePolicies =>
      has_policy_oids_ cert = true
      /\ fst (ParseCertificatePoliciesExtensionOids (value e) false)
         = Some (policy_oids_ cert)
  | ExtPolicyConstraints =>
      has_policy_constraints_ cert = true
      /\ ParsePolicyConstraints (value e) = Some (policy_constraints_ cert)
  | ExtPolicyMappings =>
      has_policy_mappings_ cert = true
      /\ ParsePolicyMappings (value e) = Some (policy_mappings_ cert)
  | ExtInhibitAnyPolicy =>
      has_inhibit_any_policy_ cert = true
      /\ ParseInhibitAnyPolicy (value e) = Some (inhibit_any_policy_ cert)
  | ExtSubjectKeyIdentifier =>
      is_Some (subject_key_identifier_ cert)
      /\ ParseSubjectKeyIdentifier (value e) = subject_key_identifier_ cert
  | ExtAuthorityKeyIdentifier =>
      is_Some (authority_key_identifier_ cert)
      /\ ParseAuthorityKeyIdentifier (value e) = authority_key_identifier_ cert
  end.

(** [r'] has the members of the block of [k] as [r] has them. *)
Definition same_members (k : RecognizedExtension) (r r' : ParsedCertificate) : Prop :=
  match k with
  | ExtBasicConstraints =>
      has_basic_constraints_ r' = has_basic_constraints_ r
      /\ basic_constraints_ r' = basic_constraints_ r
  | ExtKeyUsage =>
      has_key_usage_ r' = has_key_usage_ r /\ key_usage_ r' = key_usage_ r
  | ExtExtKeyUsage =>
      has_extended_key_usage_ r' = has_extended_key_usage_ r
      /\ extended_key_usage_ r' = extended_key_usage_ r
  | ExtSubjectAltName =>
      subject_alt_names_extension_ r' = subject_alt_names_extension_ r
      /\ subject_alt_names_ r' = subject_alt_names_ r
  | ExtNameConstraints => name_constraints_ r' = name_constraints_ r
  | ExtAuthorityInfoAccess =>
      has_authority_info_access_ r' = has_authority_info_access_ r
      /\ authority_info_access_extension_ r' = authority_info_access_extension_ r
      /\ ca_issuers_uris_ r' = ca_issuers_uris_ r
      /\ ocsp_uris_ r' = ocsp_uris_ r
  | ExtCertificatePolicies =>
      has_policy_oids_ r' = has_policy_oids_ r /\ policy_oids_ r' = policy_oids_ r
  | ExtPolicyConstraints =>
      has_policy_constraints_ r' = has_policy_constraints_ r
      /\ policy_constraints_ r' = policy_constraints_ r
  | ExtPolicyMappings =>
      has_policy_mappings_ r' = has_policy_mappings_ r
      /\ policy_mappings_ r' = policy_mappings_ r
  | ExtInhibitAnyPolicy =>
      has_inhibit_any_policy_ r' = has_inhibit_any_policy_ r
      /\ inhibit_any_policy_ r' = inhibit_any_policy_ r
  | ExtSubjectKeyIdentifier =>
      subject_key_identifier_ r' = subject_key_identifier_ r
  | ExtAuthorityKeyIdentifier =>
      authority_key_identifier_ r' = authority_key_identifier_ r
  end.

(** [r'] has the members the header assigns, and the table, as [r] has
    them. *)
Definition same_header (r r' : ParsedCertificate) : Prop :=
  cert_data_ r' = cert_data_ r
  /\ cert_ r' = cert_ r
  /\ tbs_certificate_tlv_ r' = tbs_certificate_tlv_ r
  /\ signature_algorithm_tlv_ r' = signature_algorithm_tlv_ r
  /\ signature_value_ r' = signature_value_ r
  /\ tbs_ r' = tbs_ r
  /\ signature_algorithm_ r' = signature_algorithm_ r
  /\ normalized_subject_ r' = normalized_subject_ r
  /\ normalized_issuer_ r' = normalized_issuer_ r
  /\ extensions_ r' = extensions_ r.

(** No parser that is handed the sink appends to it. *)
Definition quiet : Prop :=
  (forall cert, snd (ParseCertificate cert) = [])
  /\ (forall tbs options, snd (ParseTbsCertificate tbs options) = [])
  /\ (forall sigalg, snd (ParseSignatureAlgorithm sigalg) = [])
  /\ (forall name, snd (NormalizeName name) = [])
  /\ (forall content, snd (GeneralNames_Create content) = [])
  /\ (forall content is_critical,
        snd (NameConstraints_Create content is_critical) = [])
  /\ (forall content fail_unknown,
        snd (ParseCertificatePoliciesExtensionOids content fail_unknown) = []).

(** A computation that fails leaves one of the identifiers of [Create] as
    the last node of the sink. *)
Definition fails_with_own_id {A} (m : Sink A) : Prop :=
  forall errors errors',
    m errors = (None, errors') ->
    exists id,
      In id Create_error_ids
      /\ last errors' = Some {| err_severity := SEVERITY_HIGH; err_id := id |}.

(** A computation leaves the sink as it was when it succeeds, and appends
    exactly one node, with an identifier of [Create], when it fails. *)
Definition one_node_on_failure {A} (m : Sink A) : Prop :=
  forall errors,
    (exists a, m errors = (Some a, errors))
    \/ (exists id, In id Create_error_ids /\ m errors = (None, AddError id errors)).

End Holds.

(** * Resource record data ([net/dns/record_rdata.cc])

    The second translation unit of the sources: the parsers of the data of
    DNS resource records.  Embedded here: [TxtRecordRdata::Create],
    [NsecRecordRdata::Create] and [NsecRecordRdata::GetBit], and
    [IntegrityRecordRdata] (constructors, [Create], [Serialize], [IsEqual],
    [Hash], [LengthForSerialization], [Random]). *)

(** ** Machine integers

    [size_t] and [unsigned] have a width that depends on the platform;
    [uint8_t] and [uint16_t] do not.  A conversion to one of these types, and
    arithmetic in it, keeps the value modulo two to the width. *)
Class Platform : Type := {
  SIZE_WIDTH : Z;
  UINT_WIDTH : Z
}.

Definition size_t `{Platform} (x : Z) : Z := x mod 2 ^ SIZE_WIDTH.
Definition unsigned `{Platform} (x : Z) : Z := x mod 2 ^ UINT_WIDTH.
Definition uint8_t (x : Z) : Z := x mod 2 ^ 8.
Definition uint16_t (x : Z) : Z := x mod 2 ^ 16.

(** ** Byte strings ([base::StringPiece], [std::string], [std::vector<uint8_t>])

    A byte is a value from 0 to 255. *)
Definition is_bytes (data : list Z) : Prop := Forall (fun b => 0 <= b < 256) data.

(** [data.size()] *)
Definition size_of (data : list Z) : Z := Z.of_nat (length data).

(** [data[i]], for [i] in range. *)
Definition at_ (data : list Z) (i : Z) : Z := default 0 (data !! Z.to_nat i).

(** [data.substr(pos, n)] and [data.substr(pos)], for [pos <= data.size()]:
    at most [n] bytes from [pos] on, and all bytes from [pos] on. *)
Definition substr (data : list Z) (pos n : Z) : list Z :=
  take (Z.to_nat n) (drop (Z.to_nat pos) data).

Definition substr_from (data : list Z) (pos : Z) : list Z :=
  drop (Z.to_nat pos) data.

(** A loop is run with a bound on its iterations; [OutOfFuel] is the result
    of a run that the bound cut short. *)
Inductive Run (A : Type) : Type :=
  | Done (a : A)
  | OutOfFuel.
Arguments Done {A} a.
Arguments OutOfFuel {A}.

(** A function that may stop at a failed [CHECK]. *)
Inductive Checked (A : Type) : Type :=
  | Returns (a : A)
  | CheckFailed.
Arguments Returns {A} a.
Arguments CheckFailed {A}.

Section RecordRdata.
Context {P : Platform}.

(** ** [TxtRecordRdata::Create] (lines 510-528)

    The loop over [i], with [rdata->texts_] as accumulator.  [nullptr] is
    [None]; the parser argument is not used. *)
Fixpoint TxtRecordRdata_Create_loop (fuel : nat) (data : list Z) (i : Z)
    (texts_ : list (list Z)) : Run (option (list (list Z))) :=
  if i <? size_of data then
    match fuel with
    | O => OutOfFuel
    | S fuel =>
        let length := uint8_t (at_ data i) in
        if size_t (i + length) >=? size_of data then Done None
        else
          let texts_ := texts_ ++ [substr data (size_t (i + 1)) length] in
          TxtRecordRdata_Create_loop fuel data (size_t (i + (length + 1))) texts_
    end
  else Done (Some texts_).

Definition TxtRecordRdata_Create (data : list Z) : Run (option (list (list Z))) :=
  TxtRecordRdata_Create_loop (length data) data 0 [].

(** The character strings of a TXT record on the wire: each one after a
    byte that holds its length. *)
Definition txt_wire (texts : list (list Z)) : list Z :=
  flat_map (fun text => size_of text :: text) texts.

(** ** [NsecRecordRdata] *)

(** [NsecRecordRdata::Create] (lines 545-584).  [parser.ReadName(pos, out)]
    belongs to [DnsRecordParser], which is not among the sources: [ReadName]
    gives, for a position, the number of bytes the name there takes, 0 for a
    failure.  [data_data] is the position [data.data()].  The sum
    [next_domain_length + 2] is computed in [unsigned] and compared with
    the length of the data.  The bitmap header is the two bytes at
    [next_domain_length]. *)
Definition NsecRecordRdata_Create (ReadName : Z -> Z) (data_data : Z)
    (data : list Z) : option (list Z) :=
  let next_domain_length := unsigned (ReadName data_data) in
  if (next_domain_length =? 0)
     || (size_of data <? unsigned (next_domain_length + 2))
  then None
  else
    let block_number := uint8_t (at_ data next_domain_length) in
    let length := uint8_t (at_ data (next_domain_length + 1)) in
    if negb (block_number =? 0) || (length =? 0) || (length >? 32) then None
    else
      let bitmap_data := substr_from data (unsigned (next_domain_length + 2)) in
      if negb (size_of bitmap_data =? length) then None
      else Some bitmap_data.

(** [NsecRecordRdata::GetBit] (lines 598-605), on [bitmap_]. *)
Definition NsecRecordRdata_GetBit (bitmap_ : list Z) (i : Z) : bool :=
  let byte_num := unsigned (i / 8) in
  if size_of bitmap_ <? unsigned (byte_num + 1) then false
  else
    let bit_num := unsigned (7 - unsigned (i mod 8)) in
    negb (Z.land (at_ bitmap_ byte_num) (Z.shiftl 1 bit_num) =? 0).

End RecordRdata.

(** ** [IntegrityRecordRdata]

    What the code uses and the sources do not hold: the digest length
    [kDigestLen] and [SHA256] (of the cryptographic library), the reader and
    the writer of [base/big_endian.h], and the random sources of
    [base/rand_util.h].  A reader is the bytes it has not read yet; a read
    that succeeds gives the value read and the reader after it.  A writer is
    the bytes written so far and the room left in its buffer. *)
Class RdataExternals : Type := {
  kDigestLen : Z;
  SHA256 : list Z -> list Z;
  ReadU16LengthPrefixed : list Z -> option (list Z * list Z);
  ReadPiece : Z -> list Z -> option (list Z * list Z);
  WriteU16 : Z -> list Z * Z -> option (list Z * Z);
  WriteBytes : list Z -> list Z * Z -> option (list Z * Z);
  RandInt : Z -> Z -> Z;
  RandBytes : Z -> list Z
}.

Record IntegrityRecordRdata : Type := {
  nonce_ : list Z;
  digest_ : list Z;
  is_intact_ : bool
}.

Section Integrity.
Context {P : Platform} {E : RdataExternals}.

(** [IntegrityRecordRdata::Hash] (lines 705-709): the digest array, filled
    by [SHA256]. *)
Definition IntegrityRecordRdata_Hash (nonce : list Z) : list Z := SHA256 nonce.

(** [IntegrityRecordRdata::LengthForSerialization] (lines 712-716), with
    [sizeof(uint16_t)] = 2. *)
Definition LengthForSerialization (nonce : list Z) : Z :=
  size_t (size_t (2 + size_of nonce) + kDigestLen).

(** [IntegrityRecordRdata(Nonce nonce)] (lines 607-608). *)
Definition IntegrityRecordRdata_of_nonce (nonce : list Z) : IntegrityRecordRdata :=
  {| nonce_ := nonce;
     digest_ := IntegrityRecordRdata_Hash nonce;
     is_intact_ := true |}.

(** [IntegrityRecordRdata(Nonce nonce, Digest digest, size_t rdata_len)]
    (lines 610-616). *)
Definition IntegrityRecordRdata_of_parts (nonce digest : list Z) (rdata_len : Z)
    : IntegrityRecordRdata :=
  {| nonce_ := nonce;
     digest_ := digest;
     is_intact_ :=
       (rdata_len =? LengthForSerialization nonce)
       && bool_decide (IntegrityRecordRdata_Hash nonce = digest) |}.

(** [IntegrityRecordRdata::IsEqual] (lines 623-631).  [other_Type] is
    [other->Type()], [kType] is [Type()], and [other] is the object behind
    the pointer seen as an [IntegrityRecordRdata], as the cast sees it. *)
Definition IntegrityRecordRdata_IsEqual (kType : Z) (self : IntegrityRecordRdata)
    (other_Type : Z) (other : IntegrityRecordRdata) : bool :=
  if negb (other_Type =? kType) then false
  else
    is_intact_ self && is_intact_ other
    && bool_decide (nonce_ self = nonce_ other)
    && bool_decide (digest_ self = digest_ other).

(** [IntegrityRecordRdata::Create] (lines 638-668).  The [DCHECK] at the end
    has no effect on the result. *)
Definition IntegrityRecordRdata_Create (data : list Z)
    : Checked IntegrityRecordRdata :=
  let reader := data in
  let '(parse_success, parsed_nonce, parsed_digest) :=
    match ReadU16LengthPrefixed reader with
    | Some (parsed_nonce, reader) =>
        match ReadPiece kDigestLen reader with
        | Some (parsed_digest, _) => (true, parsed_nonce, parsed_digest)
        | None => (false, parsed_nonce, [])
        end
    | None => (false, [], [])
    end in
  let kZeroDigest := replicate (Z.to_nat kDigestLen) 0 in
  let '(parsed_nonce, parsed_digest) :=
    if negb parse_success then ([], kZeroDigest)
    else (parsed_nonce, parsed_digest) in
  if negb (size_of parsed_digest =? kDigestLen) then CheckFailed
  else
    let digest_copy := parsed_digest in
    Returns (IntegrityRecordRdata_of_parts parsed_nonce digest_copy (size_of data)).

(** Whether the parse in [Create] succeeds ([parse_success]). *)
Definition parse_success (data : list Z) : bool :=
  match ReadU16LengthPrefixed data with
  | Some (_, reader) =>
      match ReadPiece kDigestLen reader with
      | Some _ => true
      | None => false
      end
  | None => false
  end.

(** [IntegrityRecordRdata::Random] (lines 671-681). *)
Definition IntegrityRecordRdata_Random : IntegrityRecordRdata :=
  let kMinNonceLen := 32 in
  let kMaxNonceLen := 512 in
  let nonce_len := uint16_t (RandInt kMinNonceLen kMaxNonceLen) in
  let nonce := RandBytes nonce_len in
  IntegrityRecordRdata_of_nonce nonce.

(** [IntegrityRecordRdata::Serialize] (lines 683-702). *)
Definition IntegrityRecordRdata_Serialize (self : IntegrityRecordRdata)
    : Checked (option (list Z)) :=
  if negb (is_intact_ self) then Returns None
  else
    let writer : list Z * Z := ([], LengthForSerialization (nonce_ self)) in
    match WriteU16 (uint16_t (size_of (nonce_ self))) writer with
    | None => CheckFailed
    | Some writer =>
        match WriteBytes (nonce_ self) writer with
        | None => CheckFailed
        | Some writer =>
            match WriteBytes (digest_ self) writer with
            | None => CheckFailed
            | Some writer =>
                if negb (snd writer =? 0) then CheckFailed
                else Returns (Some (fst writer ++ replicate (Z.to_nat (snd writer)) 0))
            end
        end
    end.

(** What the code relies on from the reader and the writer: a 16-bit
    length in big-endian order followed by that many bytes; a piece of a
    given length; writes that append when there is room. *)
Definition big_endian_reader : Prop :=
  (forall input,
     ReadU16LengthPrefixed input
     = match input with
       | high :: low :: rest =>
           if high * 256 + low <=? size_of rest
           then Some (take (Z.to_nat (high * 256 + low)) rest,
                      drop (Z.to_nat (high * 256 + low)) rest)
           else None
       | _ => None
       end)
  /\ (forall len input,
        ReadPiece len input
        = if len <=? size_of input
          then Some (take (Z.to_nat len) input, drop (Z.to_nat len) input)
          else None).

Definition big_endian_writer : Prop :=
  (forall value written remaining,
     WriteU16 value (written, remaining)
     = if 2 <=? remaining
       then Some (written ++ [value / 256; value mod 256], remaining - 2)
       else None)
  /\ (forall bytes written remaining,
        WriteBytes bytes (written, remaining)
        = if size_of bytes <=? remaining
          then Some (written ++ bytes, remaining - size_of bytes)
          else None).

End Integrity.

(** ** Further doubles

    Certificates and parsers for the properties of [Create] beyond the
    ones above, and a platform, a reader, a writer and a hash for the
    resource records. *)
Module MoreDoubles.
Import Doubles.

(** Key usage and a critical subjectAltName. *)
Definition cert_two : list Z :=
  certificate name_a
    (Some [ extension [0x55; 0x1d; 0x0f] true
              (tlv 0x03 [0x07; 0x80]);
            san true ]).

(** The same, with a critical extension of the unrecognized identifier
    1.2.3.4 between the two. *)
Definition cert_two_and_unknown : list Z :=
  certificate name_a
    (Some [ extension [0x55; 0x1d; 0x0f] true
              (tlv 0x03 [0x07; 0x80]);
            extension [0x2a; 0x03; 0x04] true [0x01; 0x02];
            san true ]).

(** The parsers of [Doubles], with a [GeneralNames::Create] that leaves the
    sink alone. *)
Definition quiet_parsers : Collaborators := {|
  kBasicConstraintsOid := [0x55; 0x1d; 0x13];
  kKeyUsageOid := [0x55; 0x1d; 0x0f];
  kExtKeyUsageOid := [0x55; 0x1d; 0x25];
  kSubjectAltNameOid := [0x55; 0x1d; 0x11];
  kNameConstraintsOid := [0x55; 0x1d; 0x1e];
  kAuthorityInfoAccessOid := [0x2b; 0x06; 0x01; 0x05; 0x05; 0x07; 0x01; 0x01];
  kCertificatePoliciesOid := [0x55; 0x1d; 0x20];
  kPolicyConstraintsOid := [0x55; 0x1d; 0x24];
  kPolicyMappingsOid := [0x55; 0x1d; 0x21];
  kInhibitAnyPolicyOid := [0x55; 0x1d; 0x36];
  kSubjectKeyIdentifierOid := [0x55; 0x1d; 0x0e];
  kAuthorityKeyIdentifierOid := [0x55; 0x1d; 0x23];
  kSequence := 0x30;
  Parser_ReadTag := read_tag;
  ParseCertificate := fun cert => (parse_certificate cert, []);
  ParseTbsCertificate := fun tbs _ => (parse_tbs tbs, []);
  ParseSignatureAlgorithm := fun sigalg => (single 0x30 sigalg, []);
  NormalizeName := fun name => (Some name, []);
  ParseExtensions := modelled_ParseExtensions read_extension_records;
  ParseBasicConstraints := single 0x30;
  ParseKeyUsage := single 0x03;
  ParseEKUExtension :=
    fun content => (fun eku => [eku]) <$> single 0x30 content;
  GeneralNames_Create := fun content => (fst (general_names content), []);
  NameConstraints_Create := fun content _ => (single 0x30 content, []);
  ParseAuthorityInfoAccessURIs :=
    fun content => (fun aia => ([aia], [])) <$> single 0x30 content;
  ParseCertificatePoliciesExtensionOids :=
    fun content _ =>
      ((fun policies => [policies]) <$> single 0x30 content, []);
  ParsePolicyConstraints := single 0x30;
  ParsePolicyMappings :=
    fun content => (fun m => [m]) <$> single 0x30 content;
  ParseInhibitAnyPolicy := inhibit_any_policy;
  ParseSubjectKeyIdentifier := single 0x04;
  ParseAuthorityKeyIdentifier := single 0x30
|}.

End MoreDoubles.

Module RdataDoubles.

(** A platform with a [size_t] of 64 bits and an [unsigned] of 32 bits. *)
#[export] Instance platform : Platform := {|
  SIZE_WIDTH := 64;
  UINT_WIDTH := 32
|}.

(** A stand-in for the hash, of 32 bytes: the length of the input, 30 zero
    bytes and a one. *)
Definition digest_of (nonce : list Z) : list Z :=
  size_of nonce mod 256 :: replicate 30 0 ++ [1].

(** A reader and a writer on lists of bytes, the stand-in for the hash,
    and a random source that gives the least length and zero bytes. *)
#[export] Instance externals : RdataExternals := {|
  kDigestLen := 32;
  SHA256 := digest_of;
  ReadU16LengthPrefixed :=
    fun input =>
      match input with
      | high :: low :: rest =>
          if high * 256 + low <=? size_of rest
          then Some (take (Z.to_nat (high * 256 + low)) rest,
                     drop (Z.to_nat (high * 256 + low)) rest)
          else None
      | _ => None
      end;
  ReadPiece :=
    fun len input =>
      if len <=? size_of input
      then Some (take (Z.to_nat len) input, drop (Z.to_nat len) input)
      else None;
  WriteU16 :=
    fun value '(written, remaining) =>
      if 2 <=? remaining
      then Some (written ++ [value / 256; value mod 256], remaining - 2)
      else None;
  WriteBytes :=
    fun bytes '(written, remaining) =>
      if size_of bytes <=? remaining
      then Some (written ++ bytes, remaining - size_of bytes)
      else None;
  RandInt := fun low high => low;
  RandBytes := fun n => replicate (Z.to_nat n) 0
|}.

(** Three character strings, "hi", the empty one and "!", on the wire. *)
Definition txt_three : list Z := [2; 104; 105; 0; 1; 33].

(** An NSEC record: a name of three bytes, block 0, and a bitmap of two
    bytes with the bits 1 and 15 set. *)
Definition nsec_name_length (position : Z) : Z := 3.
Definition nsec_record : list Z := [1; 97; 0; 0; 2; 0x40; 0x01].

(** An INTEGRITY record with the nonce of the one byte 7. *)
Definition integrity_record : list Z := 0 :: 1 :: 7 :: digest_of [7].

End RdataDoubles.

(** * Properties *)

Section Properties.
Context {ET : ExternalTypes} {C : Collaborators}.

(** ** Computations on the sink *)

Lemma appends_ret {A} (a : A) : appends (ret a).
Proof. intros errors. unfold ret. simpl. by rewrite app_nil_r. Qed.

Lemma appends_fail_with {A} id : appends (@fail_with A id).
Proof. intros errors. reflexivity. Qed.

Lemma appends_check {A} id (r : option A) : appends (check id r).
Proof.
  intros errors. unfold check. destruct r; simpl; [by rewrite app_nil_r | done].
Qed.

Lemma appends_check_reported {A} id (r : Reported A) :
  appends (check_reported id r).
Proof.
  intros errors. unfold check_reported, AddError.
  destruct r as [[a|] added]; simpl; [done | by rewrite app_assoc].
Qed.

Lemma appends_bind {A B} (m : Sink A) (k : A -> Sink B) :
  appends m -> (forall a, appends (k a)) -> appends (bind m k).
Proof.
  intros Hm Hk errors. unfold bind.
  rewrite (Hm errors). destruct (m []) as [[a|] added]; simpl.
  - rewrite (Hk a (errors ++ added)), (Hk a added). simpl.
    by rewrite app_assoc.
  - done.
Qed.

Ltac appends_step :=
  first
    [ apply appends_ret
    | apply appends_fail_with
    | apply appends_check
    | apply appends_check_reported
    | apply appends_bind; [ | intros ? ]
    | match goal with
      | |- appends (match ?x with _ => _ end) => destruct x
      | |- appends (let (_, _) := ?x in _) => destruct x
      | |- appends (if ?x then _ else _) => destruct x
      end ].

Lemma appends_dispatch subject_value k st : appends (dispatch subject_value k st).
Proof.
  destruct st as [result extension].
  destruct k; simpl;
    unfold dispatch_BasicConstraints, dispatch_KeyUsage, dispatch_ExtKeyUsage,
      dispatch_SubjectAltName, dispatch_NameConstraints,
      dispatch_AuthorityInfoAccess, dispatch_CertificatePolicies,
      dispatch_PolicyConstraints, dispatch_PolicyMappings,
      dispatch_InhibitAnyPolicy, dispatch_SubjectKeyIdentifier,
      dispatch_AuthorityKeyIdentifier;
    repeat appends_step.
Qed.

Lemma appends_run_blocks subject_value ks st :
  appends (run_blocks subject_value ks st).
Proof.
  revert st. induction ks as [|k ks IH]; intros st; simpl.
  - apply appends_ret.
  - apply appends_bind; [apply appends_dispatch | apply IH].
Qed.

Lemma appends_Create_header backing_data options :
  appends (Create_header backing_data options).
Proof. unfold Create_header. repeat appends_step. Qed.

(** [Create_extensions] is the table followed by the blocks in
    [dispatch_order]. *)
Lemma Create_extensions_unfold result subject_value :
  Create_extensions result subject_value =
  match extensions_tlv (tbs_ result) with
  | Some tlv =>
      bind (check kFailedParsingExtensions (ParseExtensions tlv))
        (fun extensions =>
           run_blocks subject_value dispatch_order
             (set_extensions_ extensions result, default_ParsedExtension))
  | None => ret result
  end.
Proof. reflexivity. Qed.

Lemma appends_Create_extensions result subject_value :
  appends (Create_extensions result subject_value).
Proof.
  rewrite Create_extensions_unfold.
  destruct (extensions_tlv (tbs_ result)); [|apply appends_ret].
  apply appends_bind; [apply appends_check | intros; apply appends_run_blocks].
Qed.

Lemma appends_Create_body backing_data options :
  appends (Create_body backing_data options).
Proof.
  unfold Create_body. apply appends_bind; [apply appends_Create_header|].
  intros [result subject_value]. apply appends_Create_extensions.
Qed.

(** ** One block

    What a block does is decided by the table entry of its identifier.  A
    block that runs to its end leaves the TBS and the table of [result]
    as they were ([kept]). *)
Ltac unfold_blocks :=
  unfold dispatch_BasicConstraints, dispatch_KeyUsage, dispatch_ExtKeyUsage,
    dispatch_SubjectAltName, dispatch_NameConstraints,
    dispatch_AuthorityInfoAccess, dispatch_CertificatePolicies,
    dispatch_PolicyConstraints, dispatch_PolicyMappings,
    dispatch_InhibitAnyPolicy, dispatch_SubjectKeyIdentifier,
    dispatch_AuthorityKeyIdentifier.

Lemma dispatch_spec subject_value k result extension tlv errors :
  extensions_tlv (tbs_ result) = Some tlv ->
  match extensions_ result !! ext_oid k with
  | None =>
      exists st, dispatch subject_value k (result, extension) errors
                 = (Some st, errors) /\ kept result st
  | Some e =>
      if sub_parser_ok k e then
        if is_SubjectAltName k && (Z.of_nat (length subject_value) =? 0)
           && negb (critical e)
        then exists added,
               dispatch subject_value k (result, extension) errors
               = (None, AddError kSubjectAltNameNotCritical (errors ++ added))
        else exists st added,
               dispatch subject_value k (result, extension) errors
               = (Some st, errors ++ added) /\ kept result st
      else exists added,
             dispatch subject_value k (result, extension) errors
             = (None, AddError (ext_error k) (errors ++ added))
  end.
Proof.
  intros Htlv.
  destruct k; simpl; unfold_blocks; unfold GetExtension; rewrite Htlv;
    (destruct (extensions_ result !! _) as [e|];
     [ | eexists; split; [reflexivity | split; reflexivity] ]).
  all: match goal with
       | |- context [succeeded (fst ?p)] => destruct p as [[?|] added]
       | |- context [succeeded ?p] => destruct p as [?|]
       end.
  all: unfold bind, check, check_reported, ret, fail_with; simpl.
  all: repeat match goal with
         | |- context [let (_, _) := ?p in _] => destruct p
         | |- context [if ?b then _ else _] => destruct b
         end.
  all: try (eexists; eexists; split; [reflexivity | split; reflexivity]).
  all: try (eexists; exists []; split;
            [rewrite (app_nil_r errors); reflexivity | split; reflexivity]).
  all: try (eexists; reflexivity).
  all: exists []; rewrite (app_nil_r errors); reflexivity.
Qed.

Lemma dispatch_passes subject_value k result extension tlv errors :
  extensions_tlv (tbs_ result) = Some tlv ->
  passes subject_value (extensions_ result) k = true ->
  exists st added,
    dispatch subject_value k (result, extension) errors = (Some st, errors ++ added)
    /\ kept result st.
Proof.
  intros Htlv Hpass.
  pose proof (dispatch_spec subject_value k result extension tlv errors Htlv) as Hspec.
  unfold passes, malformed, san_check_fails in Hpass.
  destruct k; cbn [ext_oid is_SubjectAltName andb] in Hpass, Hspec;
    destruct (extensions_ result !! _) as [e|];
    try (destruct Hspec as (st & Hrun & Hkept); exists st, [];
         rewrite app_nil_r; by split);
    destruct (sub_parser_ok _ e); cbn [andb negb] in Hpass, Hspec;
    try discriminate; try exact Hspec.
  apply negb_true_iff in Hpass. rewrite Hpass in Hspec. exact Hspec.
Qed.

Lemma dispatch_blocked subject_value k result extension tlv errors :
  extensions_tlv (tbs_ result) = Some tlv ->
  passes subject_value (extensions_ result) k = false ->
  exists errors',
    dispatch subject_value k (result, extension) errors
    = (None, AddError (block_error (extensions_ result) k) errors').
Proof.
  intros Htlv Hpass.
  pose proof (dispatch_spec subject_value k result extension tlv errors Htlv) as Hspec.
  unfold passes, block_error, malformed, san_check_fails in *.
  destruct k; cbn [ext_oid is_SubjectAltName andb] in Hpass, Hspec |- *;
    destruct (extensions_ result !! _) as [e|]; try discriminate;
    destruct (sub_parser_ok _ e); cbn [andb negb] in Hpass, Hspec |- *;
    try discriminate; try (destruct Hspec as (added & Hrun); by eexists).
  apply negb_false_iff in Hpass. rewrite Hpass in Hspec.
  destruct Hspec as (added & Hrun). by eexists.
Qed.

Lemma dispatch_kept subject_value k result extension errors st errors' :
  dispatch subject_value k (result, extension) errors = (Some st, errors') ->
  kept result st.
Proof.
  destruct (extensions_tlv (tbs_ result)) as [tlv|] eqn:Htlv.
  - destruct (passes subject_value (extensions_ result) k) eqn:Hpass.
    + destruct (dispatch_passes subject_value k result extension tlv errors
                  Htlv Hpass) as (st' & added & Hrun & Hkept).
      rewrite Hrun. by intros [= <- _].
    + destruct (dispatch_blocked subject_value k result extension tlv errors
                  Htlv Hpass) as (errors'' & Hrun).
      rewrite Hrun. discriminate.
  - destruct k; simpl; unfold_blocks; unfold GetExtension; rewrite Htlv;
      unfold ret; intros [= <- _]; by split.
Qed.

(** ** The sequence of blocks

    The blocks run in order until one does not run to its end; that block
    decides the recorded error.  When all run to their end, the
    certificate is returned, with the TBS and the table it started with. *)
Lemma run_blocks_spec subject_value tlv tbs extensions ks :
  extensions_tlv tbs = Some tlv ->
  forall st errors,
    tbs_ (fst st) = tbs -> extensions_ (fst st) = extensions ->
    match List.find (fun k => negb (passes subject_value extensions k)) ks with
    | None =>
        exists cert added,
          run_blocks subject_value ks st errors = (Some cert, errors ++ added)
          /\ tbs_ cert = tbs /\ extensions_ cert = extensions
    | Some k =>
        exists errors',
          run_blocks subject_value ks st errors
          = (None, AddError (block_error extensions k) errors')
    end.
Proof.
  intros Htlv. induction ks as [|k ks IH]; intros [result extension] errors Htbs Hext;
    simpl in *.
  - exists result, []. unfold ret. by rewrite app_nil_r.
  - subst tbs extensions.
    destruct (passes subject_value (extensions_ result) k) eqn:Hpass; simpl.
    + destruct (dispatch_passes subject_value k result extension tlv errors
                  Htlv Hpass) as ([result' extension'] & added & Hrun & Hkept).
      destruct Hkept as [Htbs Hext]. simpl in Htbs, Hext.
      unfold bind. rewrite Hrun.
      specialize (IH (result', extension') (errors ++ added) Htbs Hext).
      destruct (List.find _ ks).
      * exact IH.
      * destruct IH as (cert & added' & Hrun' & Hkept').
        exists cert, (added ++ added'). by rewrite app_assoc.
    + destruct (dispatch_blocked subject_value k result extension tlv errors
                  Htlv Hpass) as (errors' & Hrun).
      unfold bind. rewrite Hrun. by eexists.
Qed.

Lemma run_blocks_kept subject_value ks st errors cert errors' :
  run_blocks subject_value ks st errors = (Some cert, errors') ->
  tbs_ cert = tbs_ (fst st) /\ extensions_ cert = extensions_ (fst st).
Proof.
  revert st errors. induction ks as [|k ks IH]; intros [result extension] errors;
    simpl.
  - unfold ret. by intros [= <- _].
  - unfold bind.
    destruct (dispatch subject_value k (result, extension) errors)
      as [[st|] errors1] eqn:Hrun; [|discriminate].
    intros Hrest. apply IH in Hrest.
    apply dispatch_kept in Hrun. destruct Hrun as [Htbs Hext].
    simpl. rewrite <- Htbs, <- Hext. exact Hrest.
Qed.

(** ** [Create], from the header on *)

Lemma Create_fst backing_data options sink :
  fst (Create backing_data options sink) = fst (Create_body backing_data options []).
Proof.
  destruct sink as [errors|]; simpl; [|done].
  rewrite (appends_Create_body backing_data options errors).
  by destruct (Create_body backing_data options []).
Qed.

Lemma Create_snd backing_data options errors :
  snd (Create backing_data options (Some errors))
  = Some (snd (Create_body backing_data options errors)).
Proof. simpl. by destruct (Create_body backing_data options errors). Qed.

Lemma fails_with_body backing_data options errors id errors' :
  Create_body backing_data options errors = (None, AddError id errors') ->
  fails_with id (Create backing_data options (Some errors)).
Proof.
  intros Hrun. unfold fails_with. simpl. rewrite Hrun. split; [done|].
  simpl. apply last_snoc.
Qed.

Lemma fails_with_inj id id' out : fails_with id out -> fails_with id' out -> id = id'.
Proof. intros [_ Hid] [_ Hid']. congruence. Qed.

Lemma ext_error_not_the_check k : ext_error k <> kSubjectAltNameNotCritical.
Proof. destruct k; discriminate. Qed.

Lemma Create_header_run backing_data options result subject_value errors :
  header backing_data options = Some (result, subject_value) ->
  exists added,
    Create_header backing_data options errors
    = (Some (result, subject_value), errors ++ added).
Proof.
  unfold header. intros Hh.
  rewrite (appends_Create_header backing_data options errors), Hh. by eexists.
Qed.

Lemma Create_body_no_region backing_data options result subject_value errors :
  header backing_data options = Some (result, subject_value) ->
  extensions_tlv (tbs_ result) = None ->
  exists added,
    Create_body backing_data options errors = (Some result, errors ++ added).
Proof.
  intros Hh Hnone.
  destruct (Create_header_run _ _ _ _ errors Hh) as (added & Hrun).
  unfold Create_body, bind. rewrite Hrun, Create_extensions_unfold, Hnone.
  by eexists.
Qed.

Lemma Create_body_table_fails backing_data options result subject_value tlv errors :
  header backing_data options = Some (result, subject_value) ->
  extensions_tlv (tbs_ result) = Some tlv ->
  ParseExtensions tlv = None ->
  exists errors',
    Create_body backing_data options errors
    = (None, AddError kFailedParsingExtensions errors').
Proof.
  intros Hh Htlv Hnone.
  destruct (Create_header_run _ _ _ _ errors Hh) as (added & Hrun).
  unfold Create_body, bind. rewrite Hrun, Create_extensions_unfold, Htlv.
  unfold bind, check. rewrite Hnone. by eexists.
Qed.

Lemma Create_body_spec backing_data options result subject_value tlv extensions
    errors :
  header backing_data options = Some (result, subject_value) ->
  extensions_tlv (tbs_ result) = Some tlv ->
  ParseExtensions tlv = Some extensions ->
  match List.find (fun k => negb (passes subject_value extensions k))
          dispatch_order with
  | None =>
      exists cert added,
        Create_body backing_data options errors = (Some cert, errors ++ added)
        /\ tbs_ cert = tbs_ result /\ extensions_ cert = extensions
  | Some k =>
      exists errors',
        Create_body backing_data options errors
        = (None, AddError (block_error extensions k) errors')
  end.
Proof.
  intros Hh Htlv Hsome.
  destruct (Create_header_run _ _ _ _ errors Hh) as (added & Hrun).
  pose proof (run_blocks_spec subject_value tlv (tbs_ result) extensions
                dispatch_order Htlv
                (set_extensions_ extensions result, default_ParsedExtension)
                (errors ++ added) eq_refl eq_refl) as Hblocks.
  unfold Create_body, bind. rewrite Hrun, Create_extensions_unfold, Htlv.
  unfold bind, check. rewrite Hsome.
  destruct (List.find _ dispatch_order).
  - exact Hblocks.
  - destruct Hblocks as (cert & added' & Hrun' & Hkept).
    exists cert, (added ++ added'). by rewrite app_assoc.
Qed.

(** What a returned certificate tells about the run that built it. *)
Lemma Create_Some_inv backing_data options sink cert :
  fst (Create backing_data options sink) = Some cert ->
  exists result subject_value,
    header backing_data options = Some (result, subject_value)
    /\ tbs_ cert = tbs_ result
    /\ match extensions_tlv (tbs_ result) with
       | Some tlv => ParseExtensions tlv = Some (extensions_ cert)
       | None => cert = result
       end.
Proof.
  rewrite Create_fst. unfold Create_body, bind, header.
  destruct (Create_header backing_data options [])
    as [[[result subject_value]|] errors1]; [|discriminate].
  rewrite Create_extensions_unfold. intros Hrun.
  exists result, subject_value. split; [done|].
  destruct (extensions_tlv (tbs_ result)) as [tlv|].
  - unfold bind, check in Hrun.
    destruct (ParseExtensions tlv) as [extensions|]; [|discriminate].
    destruct (run_blocks _ _ _ _) as [[cert'|] errors2] eqn:Hblocks;
      [|discriminate].
    simpl in Hrun. injection Hrun as ->.
    apply run_blocks_kept in Hblocks. destruct Hblocks as [Htbs Hext].
    simpl in Htbs, Hext. by rewrite Hext.
  - unfold ret in Hrun. simpl in Hrun. by injection Hrun as ->.
Qed.

(** The header succeeds exactly when its seven steps do: the certificate,
    the TBS, the signature algorithm, and for subject and issuer the
    sequence value and its normalization. *)
Lemma header_succeeds backing_data options tbs_tlv sigalg_tlv signature e1 tbs e2
    sigalg e3 subject_value normalized_subject e4 issuer_value normalized_issuer e5 :
  ParseCertificate backing_data = (Some (tbs_tlv, sigalg_tlv, signature), e1) ->
  ParseTbsCertificate tbs_tlv options = (Some tbs, e2) ->
  ParseSignatureAlgorithm sigalg_tlv = (Some sigalg, e3) ->
  GetSequenceValue (subject_tlv tbs) = Some subject_value ->
  NormalizeName subject_value = (Some normalized_subject, e4) ->
  GetSequenceValue (issuer_tlv tbs) = Some issuer_value ->
  NormalizeName issuer_value = (Some normalized_issuer, e5) ->
  exists result,
    header backing_data options = Some (result, subject_value)
    /\ tbs_ result = tbs.
Proof.
  intros Hcert Htbs Hsigalg Hsubject Hns Hissuer Hni.
  unfold header, Create_header, bind, check_reported, check, ret. simpl.
  rewrite Hcert. simpl. rewrite Htbs. simpl. rewrite Hsigalg. simpl.
  rewrite Hsubject, Hns. simpl. rewrite Hissuer, Hni. simpl.
  by eexists.
Qed.

Lemma header_inv backing_data options result subject_value :
  header backing_data options = Some (result, subject_value) ->
  exists tbs_tlv sigalg_tlv signature e1 e2 sigalg e3 normalized_subject e4
         issuer_value normalized_issuer e5,
    ParseCertificate backing_data = (Some (tbs_tlv, sigalg_tlv, signature), e1)
    /\ ParseTbsCertificate tbs_tlv options = (Some (tbs_ result), e2)
    /\ ParseSignatureAlgorithm sigalg_tlv = (Some sigalg, e3)
    /\ GetSequenceValue (subject_tlv (tbs_ result)) = Some subject_value
    /\ NormalizeName subject_value = (Some normalized_subject, e4)
    /\ GetSequenceValue (issuer_tlv (tbs_ result)) = Some issuer_value
    /\ NormalizeName issuer_value = (Some normalized_issuer, e5).
Proof.
  unfold header, Create_header, bind, check_reported, check, ret. simpl.
  destruct (ParseCertificate backing_data)
    as [[[[tbs_tlv sigalg_tlv] signature]|] e1] eqn:Hcert; [|discriminate].
  simpl.
  destruct (ParseTbsCertificate tbs_tlv options) as [[tbs|] e2] eqn:Htbs;
    [|discriminate].
  simpl.
  destruct (ParseSignatureAlgorithm sigalg_tlv) as [[sigalg|] e3] eqn:Hsigalg;
    [|discriminate].
  simpl.
  destruct (GetSequenceValue (subject_tlv tbs)) as [subject|] eqn:Hsubject;
    [|discriminate].
  destruct (NormalizeName subject) as [[normalized_subject|] e4] eqn:Hns;
    [|discriminate].
  simpl.
  destruct (GetSequenceValue (issuer_tlv tbs)) as [issuer|] eqn:Hissuer;
    [|discriminate].
  destruct (NormalizeName issuer) as [[normalized_issuer|] e5] eqn:Hni;
    [|discriminate].
  simpl. intros [= <- <-]. simpl.
  by exists tbs_tlv, sigalg_tlv, signature, e1, e2, sigalg, e3,
    normalized_subject, e4, issuer, normalized_issuer, e5.
Qed.

(** The header assigns none of the members the blocks assign. *)
Lemma header_members backing_data options result subject_value :
  header backing_data options = Some (result, subject_value) ->
  extensions_ result = ∅
  /\ forall k, is_present k result = false.
Proof.
  unfold header, Create_header, bind, check_reported, check, ret.
  destruct (ParseCertificate _) as [[[[tbs_tlv sigalg_tlv] signature]|] e1];
    [|discriminate].
  destruct (ParseTbsCertificate _ _) as [[tbs|] e2]; [|discriminate].
  destruct (ParseSignatureAlgorithm _) as [[sigalg|] e3]; [|discriminate].
  destruct (GetSequenceValue _) as [subject|]; [|discriminate].
  destruct (NormalizeName subject) as [[normalized_subject|] e4]; [|discriminate].
  destruct (GetSequenceValue _) as [issuer|]; [|discriminate].
  destruct (NormalizeName issuer) as [[normalized_issuer|] e5]; [|discriminate].
  simpl. intros [= <- <-]. split; [reflexivity|]. by intros [].
Qed.

(** ** The first block that does not run to its end *)

Lemma passes_not_SubjectAltName subject_value extensions k :
  is_SubjectAltName k = false ->
  passes subject_value extensions k = negb (malformed extensions k).
Proof. intros Hk. unfold passes. rewrite Hk. simpl. apply andb_true_r. Qed.

Lemma passes_no_check subject_value extensions k :
  san_check_fails subject_value extensions = false ->
  passes subject_value extensions k = negb (malformed extensions k).
Proof.
  intros Hcheck. unfold passes. rewrite Hcheck, andb_false_r. apply andb_true_r.
Qed.

Lemma forallb_pointwise {A} (f g : A -> bool) l :
  (forall a, f a = g a) -> forallb f l = forallb g l.
Proof. intros Hfg. induction l as [|a l IH]; simpl; [done|]. by rewrite Hfg, IH. Qed.

Lemma find_all_pass subject_value extensions ks :
  forallb (passes subject_value extensions) ks = true ->
  List.find (fun k => negb (passes subject_value extensions k)) ks = None.
Proof.
  induction ks as [|k ks IH]; simpl; [done|].
  intros [Hk Hks]%andb_true_iff. rewrite Hk. simpl. by apply IH.
Qed.

Lemma find_first_blocked subject_value extensions pre k post :
  forallb (passes subject_value extensions) pre = true ->
  passes subject_value extensions k = false ->
  List.find (fun k => negb (passes subject_value extensions k)) (pre ++ k :: post)
  = Some k.
Proof.
  intros Hpre Hk. induction pre as [|a pre IH]; simpl.
  - by rewrite Hk.
  - simpl in Hpre. apply andb_true_iff in Hpre as [Ha Hpre].
    rewrite Ha. simpl. by apply IH.
Qed.

Lemma find_some_blocked subject_value extensions ks k :
  In k ks ->
  passes subject_value extensions k = false ->
  exists j, List.find (fun k => negb (passes subject_value extensions k)) ks = Some j.
Proof.
  intros Hin Hk. induction ks as [|a ks IH]; simpl; [done|].
  destruct (passes subject_value extensions a) eqn:Ha; simpl; [|by eexists].
  destruct Hin as [->|Hin]; [congruence | by apply IH].
Qed.

Lemma find_earliest_malformed subject_value extensions pre k post :
  malformed extensions k = true ->
  forallb (fun j => negb (malformed extensions j)) pre = true ->
  exists j,
    List.find (fun k => negb (passes subject_value extensions k)) (pre ++ k :: post)
    = Some j
    /\ block_error extensions j
       = if existsb is_SubjectAltName pre
            && san_check_fails subject_value extensions
         then kSubjectAltNameNotCritical
         else ext_error k.
Proof.
  intros Hk Hpre. induction pre as [|a pre IH]; simpl.
  - exists k. unfold passes, block_error. rewrite Hk. by simpl.
  - simpl in Hpre. apply andb_true_iff in Hpre as [Ha Hpre].
    apply negb_true_iff in Ha.
    unfold passes at 1. rewrite Ha. simpl.
    destruct (is_SubjectAltName a); simpl.
    + destruct (san_check_fails subject_value extensions) eqn:Hcheck; simpl.
      * exists a. unfold block_error. by rewrite Ha.
      * destruct (IH Hpre) as (j & Hfind & Herr). exists j.
        by rewrite Hfind, Herr, andb_false_r.
    + by apply IH.
Qed.

Lemma all_recognized k : In k dispatch_order.
Proof. destruct k; simpl; tauto. Qed.

(** The recognized extensions are twelve, each dispatched once. *)
Lemma twelve_blocks : length dispatch_order = 12%nat /\ List.NoDup dispatch_order.
Proof.
  split; [reflexivity|].
  repeat (constructor; [simpl; intuition discriminate|]). constructor.
Qed.

Lemma Create_all_pass backing_data options result subject_value tlv extensions :
  header backing_data options = Some (result, subject_value) ->
  extensions_tlv (tbs_ result) = Some tlv ->
  ParseExtensions tlv = Some extensions ->
  forallb (passes subject_value extensions) dispatch_order = true ->
  exists cert,
    (forall sink, fst (Create backing_data options sink) = Some cert)
    /\ tbs_ cert = tbs_ result /\ extensions_ cert = extensions.
Proof.
  intros Hh Htlv Htable Hpass.
  pose proof (Create_body_spec _ _ _ _ _ _ [] Hh Htlv Htable) as Hspec.
  rewrite (find_all_pass _ _ _ Hpass) in Hspec.
  destruct Hspec as (cert & added & Hrun & Hkept).
  exists cert. split; [|done]. intros sink. by rewrite Create_fst, Hrun.
Qed.

Lemma Create_first_blocked backing_data options result subject_value tlv
    extensions pre k post errors :
  header backing_data options = Some (result, subject_value) ->
  extensions_tlv (tbs_ result) = Some tlv ->
  ParseExtensions tlv = Some extensions ->
  dispatch_order = pre ++ k :: post ->
  forallb (passes subject_value extensions) pre = true ->
  passes subject_value extensions k = false ->
  fails_with (block_error extensions k)
    (Create backing_data options (Some errors)).
Proof.
  intros Hh Htlv Htable Horder Hpre Hk.
  pose proof (Create_body_spec _ _ _ _ _ _ errors Hh Htlv Htable) as Hspec.
  rewrite Horder, (find_first_blocked _ _ _ _ _ Hpre Hk) in Hspec.
  destruct Hspec as (errors' & Hrun). by eapply fails_with_body.
Qed.

(** ** The table of extensions *)

Lemma insert_extensions_spec records :
  forall table0 table,
    insert_extensions records table0 = Some table ->
    (forall id e, table0 !! id = Some e -> table !! id = Some e)
    /\ (forall r, r ∈ records -> table !! oid r = Some r)
    /\ (forall r, r ∈ records -> table0 !! oid r = None)
    /\ NoDup (oid <$> records).
Proof.
  induction records as [|r records IH]; intros table0 table; simpl.
  - intros [= ->]. repeat split; [done | | | constructor];
      by intros r ?%elem_of_nil.
  - destruct (table0 !! oid r) eqn:Hfree; [discriminate|].
    intros Hrest. apply IH in Hrest as (Hbase & Hnew & Hfresh & Hnodup).
    repeat split.
    + intros id e Hid. apply Hbase. rewrite lookup_insert_ne; [done|].
      intros <-. congruence.
    + intros r' [->|Hin]%elem_of_cons; [|by apply Hnew].
      apply Hbase. apply lookup_insert_eq.
    + intros r' [->|Hin]%elem_of_cons; [done|].
      specialize (Hfresh r' Hin). by apply lookup_insert_None in Hfresh as [? ?].
    + simpl. constructor; [|done].
      intros (r' & Heq & Hin)%list_elem_of_fmap.
      specialize (Hfresh r' Hin). rewrite <- Heq, lookup_insert_eq in Hfresh.
      discriminate.
Qed.

Lemma insert_extensions_duplicate records i j e1 e2 table0 :
  records !! i = Some e1 -> records !! j = Some e2 -> i <> j ->
  oid e1 = oid e2 ->
  insert_extensions records table0 = None.
Proof.
  intros Hi Hj Hne Hoid.
  destruct (insert_extensions records table0) as [table|] eqn:Hrun; [|done].
  apply insert_extensions_spec in Hrun as (_ & _ & _ & Hnodup).
  exfalso. apply Hne.
  apply (proj1 (NoDup_alt (oid <$> records)) Hnodup i j (oid e1)).
  - by rewrite list_lookup_fmap, Hi.
  - by rewrite list_lookup_fmap, Hj, Hoid.
Qed.

Lemma recorded_kind_AddError id errors :
  recorded_kind (@None ParsedCertificate, Some (AddError id errors)) = spec_kind id.
Proof. unfold recorded_kind, AddError. by rewrite last_snoc. Qed.

(** ** The claims *)

(** C1 (as amended).  For a certificate whose subject value is empty:
    when subjectAltName is absent (no extensions region, or a table
    without it) [Create] never fails with [kSubjectAltNameNotCritical],
    and it returns a certificate if no recognized extension is malformed;
    when subjectAltName is present, well-formed and not critical, and the
    three blocks before it run to their end, [Create] fails with
    [kSubjectAltNameNotCritical]; when it is present and critical and no
    recognized extension is malformed, [Create] returns a certificate. *)
Theorem C1_empty_subject_subjectAltName backing_data options result :
  header backing_data options = Some (result, []) ->
  (extensions_tlv (tbs_ result) = None ->
   forall sink, fst (Create backing_data options sink) = Some result)
  /\ (forall tlv extensions,
        extensions_tlv (tbs_ result) = Some tlv ->
        ParseExtensions tlv = Some extensions ->
        (extensions !! kSubjectAltNameOid = None ->
         (forall errors,
            ~ fails_with kSubjectAltNameNotCritical
                (Create backing_data options (Some errors)))
         /\ (forallb (fun k => negb (malformed extensions k)) dispatch_order = true ->
             exists cert, forall sink,
               fst (Create backing_data options sink) = Some cert))
        /\ (forall e,
              extensions !! kSubjectAltNameOid = Some e ->
              critical e = false ->
              forallb (fun k => negb (malformed extensions k))
                [ExtBasicConstraints; ExtKeyUsage; ExtExtKeyUsage;
                 ExtSubjectAltName] = true ->
              forall errors,
                fails_with kSubjectAltNameNotCritical
                  (Create backing_data options (Some errors)))
        /\ (forall e,
              extensions !! kSubjectAltNameOid = Some e ->
              critical e = true ->
              forallb (fun k => negb (malformed extensions k)) dispatch_order = true ->
              exists cert, forall sink,
                fst (Create backing_data options sink) = Some cert)).
Proof.
  intros Hh. split.
  - intros Hnone sink.
    destruct (Create_body_no_region _ _ _ _ [] Hh Hnone) as (added & Hrun).
    by rewrite Create_fst, Hrun.
  - intros tlv extensions Htlv Htable.
    assert (Hsucceeds :
      san_check_fails [] extensions = false ->
      forallb (fun k => negb (malformed extensions k)) dispatch_order = true ->
      exists cert, forall sink, fst (Create backing_data options sink) = Some cert).
    { intros Hcheck Hwell.
      destruct (Create_all_pass _ _ _ _ _ _ Hh Htlv Htable) as (cert & Hcert & _).
      - rewrite <- Hwell. apply forallb_pointwise. intros k.
        by apply passes_no_check.
      - by exists cert. }
    split; [|split].
    + intros Habsent.
      assert (Hcheck : san_check_fails [] extensions = false).
      { unfold san_check_fails. by rewrite Habsent. }
      split; [|by apply Hsucceeds].
      intros errors Hfails.
      pose proof (Create_body_spec _ _ _ _ _ _ errors Hh Htlv Htable) as Hspec.
      destruct (List.find _ dispatch_order) as [j|] eqn:Hfind.
      * destruct Hspec as (errors' & Hrun).
        apply find_some in Hfind as [_ Hblocked].
        rewrite passes_no_check, negb_involutive in Hblocked by done.
        apply (ext_error_not_the_check j).
        apply (fails_with_inj _ _ _ (fails_with_body _ _ _ _ _ Hrun)) in Hfails.
        unfold block_error in Hfails. by rewrite Hblocked in Hfails.
      * destruct Hspec as (cert & added & Hrun & _).
        destruct Hfails as [Hnone _]. simpl in Hnone.
        rewrite Hrun in Hnone. discriminate.
    + intros e Hpresent Hcritical Hwell errors.
      simpl in Hwell. rewrite andb_true_r in Hwell.
      apply andb_true_iff in Hwell as [Hbc Hwell].
      apply andb_true_iff in Hwell as [Hku Hwell].
      apply andb_true_iff in Hwell as [Heku Hsan].
      assert (Hcheck : san_check_fails [] extensions = true).
      { unfold malformed in Hsan. cbn [ext_oid] in Hsan. unfold san_check_fails.
        rewrite Hpresent in Hsan |- *. rewrite Hcritical.
        apply negb_true_iff, negb_false_iff in Hsan. by rewrite Hsan. }
      assert (Herror : block_error extensions ExtSubjectAltName
                       = kSubjectAltNameNotCritical).
      { unfold block_error. apply negb_true_iff in Hsan. by rewrite Hsan. }
      rewrite <- Herror.
      apply (Create_first_blocked _ _ _ _ _ _
               [ExtBasicConstraints; ExtKeyUsage; ExtExtKeyUsage]
               ExtSubjectAltName
               [ExtNameConstraints; ExtAuthorityInfoAccess;
                ExtCertificatePolicies; ExtPolicyConstraints;
                ExtPolicyMappings; ExtInhibitAnyPolicy;
                ExtSubjectKeyIdentifier; ExtAuthorityKeyIdentifier]
               errors Hh Htlv Htable eq_refl).
      * simpl. rewrite !passes_not_SubjectAltName by done.
        by rewrite Hbc, Hku, Heku.
      * unfold passes. rewrite Hcheck. simpl. apply andb_false_r.
    + intros e Hpresent Hcritical. apply Hsucceeds.
      unfold san_check_fails. rewrite Hpresent, Hcritical. apply andb_false_r.
Qed.

Section Table.

(** The generic reader of the extensions region, and [ParseExtensions] as
    the specification describes it. *)
Variable ReadExtensionRecords : der_Input -> option (list ParsedExtension).
Hypothesis ParseExtensions_modelled :
  forall tlv, ParseExtensions tlv = modelled_ParseExtensions ReadExtensionRecords tlv.

(** C2 (as amended).  When the extensions region holds two records with the
    same identifier, whatever their criticality flags and values and
    whichever extension it is, [Create] returns no object and records
    [kFailedParsingExtensions], the error of any failure to parse the
    region (the kind [MalformedExtensions] of the specification). *)
Theorem C2_duplicate_extension backing_data options result subject_value tlv
    records i j e1 e2 :
  header backing_data options = Some (result, subject_value) ->
  extensions_tlv (tbs_ result) = Some tlv ->
  ReadExtensionRecords tlv = Some records ->
  records !! i = Some e1 ->
  records !! j = Some e2 ->
  i <> j ->
  oid e1 = oid e2 ->
  fst (Create backing_data options None) = None
  /\ forall errors,
       fails_with kFailedParsingExtensions
         (Create backing_data options (Some errors))
       /\ recorded_kind (Create backing_data options (Some errors))
          = Some MalformedExtensions.
Proof.
  intros Hh Htlv Hrecords Hi Hj Hne Hoid.
  assert (Htable : ParseExtensions tlv = None).
  { rewrite ParseExtensions_modelled. unfold modelled_ParseExtensions.
    rewrite Hrecords.
    exact (insert_extensions_duplicate records i j e1 e2 ∅ Hi Hj Hne Hoid). }
  split.
  - destruct (Create_body_table_fails _ _ _ _ _ [] Hh Htlv Htable)
      as (errors' & Hrun).
    by rewrite Create_fst, Hrun.
  - intros errors.
    destruct (Create_body_table_fails _ _ _ _ _ errors Hh Htlv Htable)
      as (errors' & Hrun).
    split; [by eapply fails_with_body|].
    simpl. rewrite Hrun. apply recorded_kind_AddError.
Qed.

(** C7.  On a certificate [Create] returned, [GetExtension] on the
    identifier of any record of the extensions region returns true and
    that record: the identifier, the value bytes and the criticality flag
    of the input. *)
Theorem C7_lookup_returns_input_record backing_data options sink cert tlv
    records i r out :
  fst (Create backing_data options sink) = Some cert ->
  extensions_tlv (tbs_ cert) = Some tlv ->
  ReadExtensionRecords tlv = Some records ->
  records !! i = Some r ->
  GetExtension cert (oid r) out = (true, r).
Proof.
  intros Hcreate Htlv Hrecords Hin%list_elem_of_lookup_2.
  apply Create_Some_inv in Hcreate
    as (result & subject_value & _ & Htbs & Htable).
  rewrite <- Htbs, Htlv in Htable.
  rewrite ParseExtensions_modelled in Htable.
  unfold modelled_ParseExtensions in Htable. rewrite Hrecords in Htable.
  apply insert_extensions_spec in Htable as (_ & Hnew & _).
  unfold GetExtension. by rewrite Htlv, (Hnew r Hin).
Qed.

End Table.

(** C3.  When the dispatch reaches the block of a recognized extension that
    is in the table and its sub-parser fails, [Create] returns no object
    and the error it records is the one of that extension; this holds for
    each of the recognized extensions and for any value of the
    criticality flag of the record.  Whatever happens before that block,
    [Create] returns no object for such an input. *)
Theorem C3_sub_parser_failure backing_data options result subject_value tlv
    extensions pre k post e :
  header backing_data options = Some (result, subject_value) ->
  extensions_tlv (tbs_ result) = Some tlv ->
  ParseExtensions tlv = Some extensions ->
  dispatch_order = pre ++ k :: post ->
  extensions !! ext_oid k = Some e ->
  sub_parser_ok k e = false ->
  (forall sink, fst (Create backing_data options sink) = None)
  /\ (forallb (passes subject_value extensions) pre = true ->
      forall errors,
        fails_with (ext_error k) (Create backing_data options (Some errors))).
Proof.
  intros Hh Htlv Htable Horder Hpresent Hfails.
  assert (Hmalformed : malformed extensions k = true).
  { unfold malformed. by rewrite Hpresent, Hfails. }
  assert (Hblocked : passes subject_value extensions k = false).
  { unfold passes. by rewrite Hmalformed. }
  split.
  - intros sink. rewrite Create_fst.
    pose proof (Create_body_spec _ _ _ _ _ _ [] Hh Htlv Htable) as Hspec.
    destruct (find_some_blocked subject_value extensions dispatch_order k
                (all_recognized k) Hblocked) as (j & Hfind).
    rewrite Hfind in Hspec. destruct Hspec as (errors' & Hrun). by rewrite Hrun.
  - intros Hpre errors.
    replace (ext_error k) with (block_error extensions k)
      by (unfold block_error; by rewrite Hmalformed).
    by eapply Create_first_blocked.
Qed.

(** C4.  When the header succeeds and the TBS has no extensions region,
    [Create] returns the certificate, every presence indicator of a
    recognized extension is false in it, and [GetExtension] returns false
    for every identifier. *)
Theorem C4_no_extensions_region backing_data options result subject_value :
  header backing_data options = Some (result, subject_value) ->
  extensions_tlv (tbs_ result) = None ->
  (forall sink, fst (Create backing_data options sink) = Some result)
  /\ (forall k, is_present k result = false)
  /\ (forall extension_oid out,
        fst (GetExtension result extension_oid out) = false).
Proof.
  intros Hh Hnone. split; [|split].
  - intros sink.
    destruct (Create_body_no_region _ _ _ _ [] Hh Hnone) as (added & Hrun).
    by rewrite Create_fst, Hrun.
  - by apply (header_members _ _ _ _ Hh).
  - intros extension_oid out. unfold GetExtension. by rewrite Hnone.
Qed.

(** C5.  Whether a sink is supplied or not, [Create] returns the same
    thing: no object in both cases, or the same certificate; a supplied
    sink keeps its nodes and may only get new ones after them. *)
Theorem C5_sink_is_diagnostic_only backing_data options errors :
  fst (Create backing_data options (Some errors))
  = fst (Create backing_data options None)
  /\ exists added,
       snd (Create backing_data options (Some errors)) = Some (errors ++ added).
Proof.
  split.
  - by rewrite !Create_fst.
  - rewrite Create_snd, (appends_Create_body backing_data options errors).
    by eexists.
Qed.


(** C8.  When [Create] returns no object, [CreateAndAddToVector] returns
    false and the chain as it was; when [Create] returns a certificate,
    it returns true and the chain with that certificate appended. *)
Theorem C8_CreateAndAddToVector cert_data options chain sink :
  (fst (Create cert_data options sink) = None ->
   CreateAndAddToVector cert_data options chain sink
   = (false, chain, snd (Create cert_data options sink)))
  /\ (forall cert,
        fst (Create cert_data options sink) = Some cert ->
        CreateAndAddToVector cert_data options chain sink
        = (true, chain ++ [cert], snd (Create cert_data options sink))).
Proof.
  unfold CreateAndAddToVector.
  destruct (Create cert_data options sink) as [[cert'|] sink']; simpl;
    split; try done.
  by intros cert [= ->].
Qed.

(** C9.  When [GetExtension] returns false because the identifier is not in
    the table of a certificate that has an extensions region, the output
    is the default [ParsedExtension]; when the certificate has no
    extensions region, the output is left as it was. *)
Theorem C9_GetExtension_output cert extension_oid out :
  (forall tlv,
     extensions_tlv (tbs_ cert) = Some tlv ->
     extensions_ cert !! extension_oid = None ->
     GetExtension cert extension_oid out = (false, default_ParsedExtension))
  /\ (extensions_tlv (tbs_ cert) = None ->
      GetExtension cert extension_oid out = (false, out)).
Proof.
  unfold GetExtension. split.
  - intros tlv -> ->. done.
  - intros ->. done.
Qed.

(** C10 (as amended).  The blocks run in [dispatch_order].  When [k] is the
    earliest malformed extension in that order, [Create] fails with the
    error of [k], unless subjectAltName comes before [k] and its check of
    criticality fails (it is well-formed and not critical, and the subject
    value is empty): then [Create] fails with
    [kSubjectAltNameNotCritical]. *)
Theorem C10_earliest_malformed_extension backing_data options result
    subject_value tlv extensions pre k post :
  header backing_data options = Some (result, subject_value) ->
  extensions_tlv (tbs_ result) = Some tlv ->
  ParseExtensions tlv = Some extensions ->
  dispatch_order = pre ++ k :: post ->
  malformed extensions k = true ->
  forallb (fun j => negb (malformed extensions j)) pre = true ->
  forall errors,
    fails_with
      (if existsb is_SubjectAltName pre
          && san_check_fails subject_value extensions
       then kSubjectAltNameNotCritical
       else ext_error k)
      (Create backing_data options (Some errors)).
Proof.
  intros Hh Htlv Htable Horder Hk Hpre errors.
  pose proof (Create_body_spec _ _ _ _ _ _ errors Hh Htlv Htable) as Hspec.
  destruct (find_earliest_malformed subject_value extensions pre k post Hk Hpre)
    as (j & Hfind & Herror).
  rewrite Horder, Hfind in Hspec. destruct Hspec as (errors' & Hrun).
  rewrite <- Herror. by eapply fails_with_body.
Qed.

End Properties.

(** * More properties of [Create] *)

Section MoreProperties.
Context {ET : ExternalTypes} {C : Collaborators}.

Ltac run_block H :=
  cbn [dispatch] in H;
  unfold dispatch_BasicConstraints, dispatch_KeyUsage, dispatch_ExtKeyUsage,
    dispatch_SubjectAltName, dispatch_NameConstraints,
    dispatch_AuthorityInfoAccess, dispatch_CertificatePolicies,
    dispatch_PolicyConstraints, dispatch_PolicyMappings,
    dispatch_InhibitAnyPolicy, dispatch_SubjectKeyIdentifier,
    dispatch_AuthorityKeyIdentifier in H;
  unfold GetExtension, bind, check, check_reported, ret, fail_with in H;
  cbn in H;
  repeat (case_match; try discriminate; cbn in H);
  simplify_eq.

(** ** The members a block leaves alone *)

Lemma same_members_refl k r : same_members k r r.
Proof. destruct k; simpl; repeat split. Qed.

Lemma same_members_trans k r1 r2 r3 :
  same_members k r1 r2 -> same_members k r2 r3 -> same_members k r1 r3.
Proof. destruct k; simpl; intuition congruence. Qed.

Lemma same_header_refl r : same_header r r.
Proof. unfold same_header. repeat split. Qed.

Lemma same_header_trans r1 r2 r3 :
  same_header r1 r2 -> same_header r2 r3 -> same_header r1 r3.
Proof. unfold same_header. intuition congruence. Qed.

Lemma dispatch_same_header subject_value j r x errors r' x' errors' :
  dispatch subject_value j (r, x) errors = (Some (r', x'), errors') ->
  same_header r r'.
Proof.
  intros Hrun. destruct j; run_block Hrun; unfold same_header; repeat split.
Qed.

Lemma dispatch_other_members subject_value j k r x errors r' x' errors' :
  j <> k ->
  dispatch subject_value j (r, x) errors = (Some (r', x'), errors') ->
  same_members k r r'.
Proof.
  intros Hne Hrun.
  destruct j; run_block Hrun; destruct k; try congruence; simpl; repeat split.
Qed.

Lemma dispatch_own_members subject_value k r x errors r' x' errors' :
  dispatch subject_value k (r, x) errors = (Some (r', x'), errors') ->
  match extensions_tlv (tbs_ r), extensions_ r !! ext_oid k with
  | Some _, Some e => stored k r' e
  | _, _ => is_present k r' = is_present k r
  end.
Proof.
  intros Hrun.
  destruct k; cbn [ext_oid]; run_block Hrun; simpl; try reflexivity;
    repeat split; try done; try (by eexists);
    repeat match goal with
           | H : ?f = _ |- context [?f] => rewrite H
           end; done.
Qed.

Lemma stored_same_members k r r' e :
  stored k r e -> same_members k r r' -> stored k r' e.
Proof. destruct k; simpl; intuition congruence. Qed.

Lemma is_present_same_members k r r' :
  same_members k r r' -> is_present k r' = is_present k r.
Proof. destruct k; simpl; intuition congruence. Qed.

Lemma stored_is_present k r e : stored k r e -> is_present k r = true.
Proof.
  destruct k; simpl; try tauto.
  all: intros H; decompose [and] H; clear H;
    match goal with H : is_Some _ |- _ => destruct H as [? ->] end; done.
Qed.

Lemma RecognizedExtension_eq_dec (j k : RecognizedExtension) : {j = k} + {j <> k}.
Proof. decide equality. Defined.

(** ** The members after the sequence of blocks *)

Lemma run_blocks_members subject_value tlv ks :
  List.NoDup ks ->
  forall st errors cert errors',
    extensions_tlv (tbs_ (fst st)) = Some tlv ->
    run_blocks subject_value ks st errors = (Some cert, errors') ->
    same_header (fst st) cert
    /\ forall k,
         (In k ks ->
          match extensions_ (fst st) !! ext_oid k with
          | Some e => stored k cert e
          | None => is_present k cert = is_present k (fst st)
          end)
         /\ (~ In k ks -> same_members k (fst st) cert).
Proof.
  induction 1 as [|j ks Hj Hnodup IH]; intros [r x] errors cert errors' Htlv Hrun;
    simpl in *.
  - unfold ret in Hrun. simplify_eq. split; [apply same_header_refl|].
    intros k. split; [done|]. intros _. apply same_members_refl.
  - unfold bind in Hrun.
    destruct (dispatch subject_value j (r, x) errors) as [[[r1 x1]|] errors1] eqn:Hblock;
      [|discriminate].
    pose proof (dispatch_same_header _ _ _ _ _ _ _ _ Hblock) as Hheader.
    assert (Htlv1 : extensions_tlv (tbs_ r1) = Some tlv).
    { unfold same_header in Hheader. decompose [and] Hheader. congruence. }
    assert (Hext1 : extensions_ r1 = extensions_ r).
    { unfold same_header in Hheader. tauto. }
    destruct (IH (r1, x1) errors1 cert errors' Htlv1 Hrun) as [Hheader' Hmembers].
    simpl in Hheader', Hmembers.
    split; [by eapply same_header_trans|].
    intros k. destruct (RecognizedExtension_eq_dec j k) as [<-|Hne].
    + split; [|tauto]. intros _.
      pose proof (dispatch_own_members _ _ _ _ _ _ _ _ Hblock) as Hown.
      rewrite Htlv in Hown.
      destruct (Hmembers j) as [_ Hrest]. specialize (Hrest Hj).
      destruct (extensions_ r !! ext_oid j) as [e|].
      * by eapply stored_same_members.
      * rewrite <- Hown. by apply is_present_same_members.
    + pose proof (dispatch_other_members _ _ _ _ _ _ _ _ _ Hne Hblock) as Hother.
      destruct (Hmembers k) as [Hin Hout]. rewrite Hext1 in Hin. split.
      * intros [?|Hk]; [congruence|]. specialize (Hin Hk).
        destruct (extensions_ r !! ext_oid k) as [e|]; [done|].
        rewrite Hin. by apply is_present_same_members.
      * intros Hk. eapply same_members_trans; [exact Hother|].
        apply Hout. tauto.
Qed.

(** ** What [Create] returned, from the certificate *)

Lemma header_fields backing_data options result subject_value :
  header backing_data options = Some (result, subject_value) ->
  cert_data_ result = backing_data
  /\ cert_ result = backing_data
  /\ fst (ParseCertificate backing_data)
     = Some (tbs_certificate_tlv_ result, signature_algorithm_tlv_ result,
             signature_value_ result)
  /\ fst (ParseTbsCertificate (tbs_certificate_tlv_ result) options)
     = Some (tbs_ result)
  /\ fst (ParseSignatureAlgorithm (signature_algorithm_tlv_ result))
     = Some (signature_algorithm_ result)
  /\ GetSequenceValue (subject_tlv (tbs_ result)) = Some subject_value
  /\ fst (NormalizeName subject_value) = Some (normalized_subject_ result)
  /\ exists issuer_value,
       GetSequenceValue (issuer_tlv (tbs_ result)) = Some issuer_value
       /\ fst (NormalizeName issuer_value) = Some (normalized_issuer_ result).
Proof.
  unfold header, Create_header, bind, check_reported, check, ret. simpl.
  destruct (ParseCertificate backing_data)
    as [[[[tbs_tlv sigalg_tlv] signature]|] e1] eqn:Hcert; [|discriminate].
  simpl.
  destruct (ParseTbsCertificate tbs_tlv options) as [[tbs|] e2] eqn:Htbs;
    [|discriminate].
  simpl.
  destruct (ParseSignatureAlgorithm sigalg_tlv) as [[sigalg|] e3] eqn:Hsigalg;
    [|discriminate].
  simpl.
  destruct (GetSequenceValue (subject_tlv tbs)) as [subject|] eqn:Hsubject;
    [|discriminate].
  destruct (NormalizeName subject) as [[normalized_subject|] e4] eqn:Hns;
    [|discriminate].
  simpl.
  destruct (GetSequenceValue (issuer_tlv tbs)) as [issuer|] eqn:Hissuer;
    [|discriminate].
  destruct (NormalizeName issuer) as [[normalized_issuer|] e5] eqn:Hni;
    [|discriminate].
  simpl. intros [= <- <-]. simpl.
  rewrite Htbs, Hsigalg, Hns. simpl.
  do 7 (split; [done|]). exists issuer. by rewrite Hni.
Qed.

Lemma find_none_all_pass subject_value extensions ks :
  List.find (fun k => negb (passes subject_value extensions k)) ks = None ->
  forallb (passes subject_value extensions) ks = true.
Proof.
  induction ks as [|k ks IH]; simpl; [done|].
  destruct (passes subject_value extensions k); simpl; [exact IH | discriminate].
Qed.

(** A returned certificate: the header succeeded, the certificate has the
    members the header assigned, and, with an extensions region, the table,
    every block ran to its end, and every recognized extension is stored
    if it is in the table and not present otherwise. *)
Lemma Create_Some_members backing_data options sink cert :
  fst (Create backing_data options sink) = Some cert ->
  exists result subject_value,
    header backing_data options = Some (result, subject_value)
    /\ match extensions_tlv (tbs_ result) with
       | None => cert = result
       | Some tlv =>
           ParseExtensions tlv = Some (extensions_ cert)
           /\ same_header (set_extensions_ (extensions_ cert) result) cert
           /\ forallb (passes subject_value (extensions_ cert)) dispatch_order = true
           /\ forall k,
                match extensions_ cert !! ext_oid k with
                | Some e => stored k cert e
                | None => is_present k cert = false
                end
       end.
Proof.
  intros Hcreate.
  destruct (Create_Some_inv _ _ _ _ Hcreate)
    as (result & subject_value & Hh & Htbs & Hrest).
  exists result, subject_value. split; [done|].
  destruct (extensions_tlv (tbs_ result)) as [tlv|] eqn:Htlv; [|done].
  split; [done|].
  pose proof (Create_body_spec _ _ _ _ _ _ [] Hh Htlv Hrest) as Hspec.
  rewrite Create_fst in Hcreate.
  destruct (List.find _ dispatch_order) as [k|] eqn:Hfind.
  { destruct Hspec as (errors' & Hrun). rewrite Hrun in Hcreate. discriminate. }
  clear Hspec. apply find_none_all_pass in Hfind.
  destruct (Create_header_run _ _ _ _ [] Hh) as (added & Hheader).
  unfold Create_body, bind in Hcreate.
  rewrite Hheader, Create_extensions_unfold, Htlv in Hcreate.
  unfold bind, check in Hcreate. rewrite Hrest in Hcreate.
  destruct (run_blocks _ _ _ _) as [[cert'|] errors2] eqn:Hblocks; [|discriminate].
  simpl in Hcreate. injection Hcreate as ->.
  destruct (run_blocks_members _ tlv _ (proj2 twelve_blocks)
              (set_extensions_ (extensions_ cert) result, default_ParsedExtension)
              _ _ _ Htlv Hblocks)
    as [Hheader' Hmembers]. simpl in Hheader', Hmembers.
  split; [done|]. split; [done|].
  intros k. destruct (Hmembers k) as [Hin _]. specialize (Hin (all_recognized k)).
  destruct (extensions_ cert !! ext_oid k) as [e|]; [done|].
  rewrite Hin. apply (header_members _ _ _ _ Hh).
Qed.

(** ** Failures of the header *)

(** X1.  The header of [Create] runs seven steps in a fixed order:
    certificate, TBS, signature algorithm, sequence value and normalization
    of the subject, then of the issuer.  The first step that fails ends
    [Create] with no object; the sink then holds what it held, what the
    parsers run so far appended, and last the identifier of that step.
    Reading the sequence value shares one identifier between subject and
    issuer. *)
Theorem X1_header_failures backing_data options errors :
  (forall e1,
     ParseCertificate backing_data = (None, e1) ->
     Create backing_data options (Some errors)
     = (None, Some (AddError kFailedParsingCertificate (errors ++ e1))))
  /\ (forall tbs_tlv sigalg_tlv signature e1,
        ParseCertificate backing_data
        = (Some (tbs_tlv, sigalg_tlv, signature), e1) ->
        (forall e2,
           ParseTbsCertificate tbs_tlv options = (None, e2) ->
           Create backing_data options (Some errors)
           = (None, Some (AddError kFailedParsingTbsCertificate
                            (errors ++ e1 ++ e2))))
        /\ (forall tbs e2,
              ParseTbsCertificate tbs_tlv options = (Some tbs, e2) ->
              (forall e3,
                 ParseSignatureAlgorithm sigalg_tlv = (None, e3) ->
                 Create backing_data options (Some errors)
                 = (None, Some (AddError kFailedParsingSignatureAlgorithm
                                  (errors ++ e1 ++ e2 ++ e3))))
              /\ (forall sigalg e3,
                    ParseSignatureAlgorithm sigalg_tlv = (Some sigalg, e3) ->
                    (GetSequenceValue (subject_tlv tbs) = None ->
                     Create backing_data options (Some errors)
                     = (None, Some (AddError kFailedReadingIssuerOrSubject
                                      (errors ++ e1 ++ e2 ++ e3))))
                    /\ (forall subject_value,
                          GetSequenceValue (subject_tlv tbs) = Some subject_value ->
                          (forall e4,
                             NormalizeName subject_value = (None, e4) ->
                             Create backing_data options (Some errors)
                             = (None, Some (AddError kFailedNormalizingSubject
                                              (errors ++ e1 ++ e2 ++ e3 ++ e4))))
                          /\ (forall normalized_subject e4,
                                NormalizeName subject_value
                                = (Some normalized_subject, e4) ->
                                (GetSequenceValue (issuer_tlv tbs) = None ->
                                 Create backing_data options (Some errors)
                                 = (None,
                                    Some (AddError kFailedReadingIssuerOrSubject
                                            (errors ++ e1 ++ e2 ++ e3 ++ e4))))
                                /\ (forall issuer_value e5,
                                      GetSequenceValue (issuer_tlv tbs)
                                      = Some issuer_value ->
                                      NormalizeName issuer_value = (None, e5) ->
                                      Create backing_data options (Some errors)
                                      = (None,
                                         Some (AddError kFailedNormalizingIssuer
                                                 (errors ++ e1 ++ e2 ++ e3
                                                  ++ e4 ++ e5))))))))).
Proof.
  unfold Create, Create_body, Create_header, bind, check_reported, check, ret.
  simpl.
  split; [intros e1 ->; done|].
  intros tbs_tlv sigalg_tlv signature e1 ->. simpl.
  split; [intros e2 ->; by rewrite <- app_assoc|].
  intros tbs e2 ->. simpl.
  split; [intros e3 ->; by rewrite <- !app_assoc|].
  intros sigalg e3 ->. simpl.
  split; [intros ->; by rewrite <- !app_assoc|].
  intros subject_value ->.
  split; [intros e4 ->; by rewrite <- !app_assoc|].
  intros normalized_subject e4 ->. simpl.
  split; [intros ->; by rewrite <- !app_assoc|].
  intros issuer_value e5 -> ->. by rewrite <- !app_assoc.
Qed.

(** ** Success, characterised *)

(** X2.  [Create] returns a certificate exactly when the header succeeds
    and, if the TBS has an extensions region, the table is built and every
    one of the twelve blocks runs to its end: no recognized extension of
    the table is rejected by its sub-parser, and the check of
    subjectAltName does not fail. *)
Theorem X2_Create_succeeds_iff backing_data options sink :
  is_Some (fst (Create backing_data options sink))
  <-> exists result subject_value,
        header backing_data options = Some (result, subject_value)
        /\ match extensions_tlv (tbs_ result) with
           | None => True
           | Some tlv =>
               exists extensions,
                 ParseExtensions tlv = Some extensions
                 /\ forallb (passes subject_value extensions) dispatch_order = true
           end.
Proof.
  split.
  - intros [cert Hcreate].
    destruct (Create_Some_members _ _ _ _ Hcreate)
      as (result & subject_value & Hh & Hrest).
    exists result, subject_value. split; [done|].
    destruct (extensions_tlv (tbs_ result)) as [tlv|]; [|done].
    exists (extensions_ cert). tauto.
  - intros (result & subject_value & Hh & Hrest).
    destruct (extensions_tlv (tbs_ result)) as [tlv|] eqn:Htlv.
    + destruct Hrest as (extensions & Htable & Hpass).
      destruct (Create_all_pass _ _ _ _ _ _ Hh Htlv Htable Hpass)
        as (cert & Hcert & _).
      exists cert. apply Hcert.
    + destruct (Create_body_no_region _ _ _ _ [] Hh Htlv) as (added & Hrun).
      exists result. by rewrite Create_fst, Hrun.
Qed.

(** ** The members of a returned certificate *)

Lemma Create_Some_tbs backing_data options sink cert :
  fst (Create backing_data options sink) = Some cert ->
  exists result subject_value,
    header backing_data options = Some (result, subject_value)
    /\ same_header (set_extensions_ (extensions_ cert) result) cert.
Proof.
  intros Hcreate.
  destruct (Create_Some_members _ _ _ _ Hcreate)
    as (result & subject_value & Hh & Hrest).
  exists result, subject_value. split; [done|].
  destruct (extensions_tlv (tbs_ result)) as [tlv|]; [tauto|].
  subst cert. unfold same_header. repeat split.
Qed.

(** X3.  In a certificate [Create] returned, the presence indicator of each
    recognized extension says what [GetExtension] says for its identifier:
    it is true exactly when the extension is in the table. *)
Theorem X3_presence_agrees_with_lookup backing_data options sink cert :
  fst (Create backing_data options sink) = Some cert ->
  forall k out,
    is_present k cert = fst (GetExtension cert (ext_oid k) out).
Proof.
  intros Hcreate k out.
  destruct (Create_Some_tbs _ _ _ _ Hcreate)
    as (result' & subject_value' & Hh' & Hheader).
  destruct (Create_Some_members _ _ _ _ Hcreate)
    as (result & subject_value & Hh & Hrest).
  rewrite Hh in Hh'. injection Hh' as <- <-.
  assert (Htbs : tbs_ cert = tbs_ result).
  { unfold same_header in Hheader. tauto. }
  unfold GetExtension. rewrite Htbs.
  destruct (extensions_tlv (tbs_ result)) as [tlv|].
  - destruct Hrest as (_ & _ & _ & Hmembers). specialize (Hmembers k).
    destruct (extensions_ cert !! ext_oid k) as [e|]; [|done].
    by apply stored_is_present in Hmembers.
  - subst cert. by apply (header_members _ _ _ _ Hh).
Qed.

(** X4.  In a certificate [Create] returned, for every recognized extension
    that [GetExtension] finds, the typed members of that extension hold
    what its sub-parser returned on the value of the table entry (and, for
    subjectAltName and authorityInfoAccess, the entry itself is kept). *)
Theorem X4_recognized_extensions_are_stored backing_data options sink cert :
  fst (Create backing_data options sink) = Some cert ->
  forall k out e,
    GetExtension cert (ext_oid k) out = (true, e) ->
    stored k cert e.
Proof.
  intros Hcreate k out e.
  destruct (Create_Some_tbs _ _ _ _ Hcreate)
    as (result' & subject_value' & Hh' & Hheader).
  destruct (Create_Some_members _ _ _ _ Hcreate)
    as (result & subject_value & Hh & Hrest).
  rewrite Hh in Hh'. injection Hh' as <- <-.
  assert (Htbs : tbs_ cert = tbs_ result).
  { unfold same_header in Hheader. tauto. }
  unfold GetExtension. rewrite Htbs.
  destruct (extensions_tlv (tbs_ result)) as [tlv|]; [|discriminate].
  destruct Hrest as (_ & _ & _ & Hmembers). specialize (Hmembers k).
  destruct (extensions_ cert !! ext_oid k) as [e'|]; [|discriminate].
  by intros [= <-].
Qed.

(** X5.  A certificate [Create] returned owns the input bytes, and its
    members of the header are what the parsers returned on them: the three
    parts of the certificate, the TBS, the signature algorithm, and the
    normalized subject and issuer, each the normalization of the sequence
    value of the name in the TBS.  No block changes them. *)
Theorem X5_returned_certificate_header_members backing_data options sink cert :
  fst (Create backing_data options sink) = Some cert ->
  cert_data_ cert = backing_data
  /\ cert_ cert = backing_data
  /\ fst (ParseCertificate backing_data)
     = Some (tbs_certificate_tlv_ cert, signature_algorithm_tlv_ cert,
             signature_value_ cert)
  /\ fst (ParseTbsCertificate (tbs_certificate_tlv_ cert) options)
     = Some (tbs_ cert)
  /\ fst (ParseSignatureAlgorithm (signature_algorithm_tlv_ cert))
     = Some (signature_algorithm_ cert)
  /\ (exists subject_value,
        GetSequenceValue (subject_tlv (tbs_ cert)) = Some subject_value
        /\ fst (NormalizeName subject_value) = Some (normalized_subject_ cert))
  /\ (exists issuer_value,
        GetSequenceValue (issuer_tlv (tbs_ cert)) = Some issuer_value
        /\ fst (NormalizeName issuer_value) = Some (normalized_issuer_ cert)).
Proof.
  intros Hcreate.
  destruct (Create_Some_tbs _ _ _ _ Hcreate)
    as (result & subject_value & Hh & Hheader).
  destruct (header_fields _ _ _ _ Hh)
    as (H1 & H2 & H3 & H4 & H5 & H6 & H7 & issuer_value & H8 & H9).
  unfold same_header in Hheader. simpl in Hheader.
  destruct Hheader as (-> & -> & -> & -> & -> & -> & -> & -> & -> & _).
  do 5 (split; [done|]). split; [by exists subject_value | by exists issuer_value].
Qed.

(** X6.  No certificate [Create] returned has an empty subject and a
    subjectAltName that is not critical: if the sequence value of the
    subject is empty and [GetExtension] finds subjectAltName, the entry is
    critical. *)
Theorem X6_empty_subject_has_critical_subjectAltName backing_data options sink
    cert :
  fst (Create backing_data options sink) = Some cert ->
  GetSequenceValue (subject_tlv (tbs_ cert)) = Some [] ->
  forall out e,
    GetExtension cert kSubjectAltNameOid out = (true, e) ->
    critical e = true.
Proof.
  intros Hcreate Hempty out e.
  destruct (Create_Some_tbs _ _ _ _ Hcreate)
    as (result' & subject_value' & Hh' & Hheader).
  destruct (Create_Some_members _ _ _ _ Hcreate)
    as (result & subject_value & Hh & Hrest).
  rewrite Hh in Hh'. injection Hh' as <- <-.
  assert (Htbs : tbs_ cert = tbs_ result).
  { unfold same_header in Hheader. tauto. }
  destruct (header_fields _ _ _ _ Hh) as (_ & _ & _ & _ & _ & Hsubject & _).
  rewrite <- Htbs, Hempty in Hsubject. injection Hsubject as <-.
  unfold GetExtension. rewrite Htbs.
  destruct (extensions_tlv (tbs_ result)) as [tlv|]; [|discriminate].
  destruct Hrest as (_ & _ & Hpass & _).
  destruct (extensions_ cert !! kSubjectAltNameOid) as [e'|] eqn:Hsan;
    [|discriminate].
  intros [= <-].
  pose proof (proj1 (forallb_forall _ _) Hpass ExtSubjectAltName
                (all_recognized _)) as Hsan_passes.
  unfold passes, malformed, san_check_fails in Hsan_passes.
  cbn [ext_oid is_SubjectAltName andb] in Hsan_passes.
  rewrite Hsan in Hsan_passes.
  destruct (sub_parser_ok ExtSubjectAltName e'); [|discriminate].
  destruct (critical e'); [done | discriminate].
Qed.

(** ** Extensions that are not recognized *)

Lemma passes_agree subject_value extensions extensions' k :
  (forall j, extensions !! ext_oid j = extensions' !! ext_oid j) ->
  passes subject_value extensions k = passes subject_value extensions' k
  /\ block_error extensions k = block_error extensions' k.
Proof.
  intros Hagree. unfold passes, block_error, malformed, san_check_fails.
  rewrite (Hagree k). change kSubjectAltNameOid with (ext_oid ExtSubjectAltName).
  by rewrite (Hagree ExtSubjectAltName).
Qed.

Lemma find_pointwise {A} (f g : A -> bool) l :
  (forall a, f a = g a) -> List.find f l = List.find g l.
Proof. intros Hfg. induction l as [|a l IH]; simpl; [done|]. by rewrite Hfg, IH. Qed.

(** X7.  The outcome of [Create] depends on the table only through the
    entries of the twelve recognized identifiers.  Two inputs that pass the
    header with the same subject value and whose tables agree on these
    identifiers are both accepted or both rejected, and when rejected,
    with the same identifier: an extension that is not recognized, critical
    or not, changes nothing. *)
Theorem X7_unrecognized_extensions_change_nothing backing_data options result tlv
    extensions backing_data' options' result' tlv' extensions' subject_value :
  header backing_data options = Some (result, subject_value) ->
  extensions_tlv (tbs_ result) = Some tlv ->
  ParseExtensions tlv = Some extensions ->
  header backing_data' options' = Some (result', subject_value) ->
  extensions_tlv (tbs_ result') = Some tlv' ->
  ParseExtensions tlv' = Some extensions' ->
  (forall k, extensions !! ext_oid k = extensions' !! ext_oid k) ->
  (forall sink sink',
     is_Some (fst (Create backing_data options sink))
     <-> is_Some (fst (Create backing_data' options' sink')))
  /\ (forall id errors errors',
        fails_with id (Create backing_data options (Some errors))
        <-> fails_with id (Create backing_data' options' (Some errors'))).
Proof.
  intros Hh Htlv Htable Hh' Htlv' Htable' Hagree.
  assert (Hfind :
    List.find (fun k => negb (passes subject_value extensions k)) dispatch_order
    = List.find (fun k => negb (passes subject_value extensions' k)) dispatch_order).
  { apply find_pointwise. intros k.
    by rewrite (proj1 (passes_agree subject_value _ _ k Hagree)). }
  split.
  - intros sink sink'. rewrite !Create_fst.
    pose proof (Create_body_spec _ _ _ _ _ _ [] Hh Htlv Htable) as Hspec.
    pose proof (Create_body_spec _ _ _ _ _ _ [] Hh' Htlv' Htable') as Hspec'.
    rewrite <- Hfind in Hspec'.
    destruct (List.find _ dispatch_order) as [k|].
    + destruct Hspec as (e1 & ->), Hspec' as (e2 & ->). simpl.
      split; intros [? ?]; discriminate.
    + destruct Hspec as (c1 & a1 & -> & _), Hspec' as (c2 & a2 & -> & _). simpl.
      split; intros _; by eexists.
  - intros id errors errors'.
    pose proof (Create_body_spec _ _ _ _ _ _ errors Hh Htlv Htable) as Hspec.
    pose proof (Create_body_spec _ _ _ _ _ _ errors' Hh' Htlv' Htable') as Hspec'.
    rewrite <- Hfind in Hspec'.
    destruct (List.find _ dispatch_order) as [k|].
    + destruct Hspec as (e1 & Hrun), Hspec' as (e2 & Hrun').
      rewrite <- (proj2 (passes_agree subject_value _ _ k Hagree)) in Hrun'.
      apply fails_with_body in Hrun, Hrun'.
      split; intros Hid.
      * by rewrite (fails_with_inj _ _ _ Hid Hrun).
      * by rewrite (fails_with_inj _ _ _ Hid Hrun').
    + destruct Hspec as (c1 & a1 & Hrun & _), Hspec' as (c2 & a2 & Hrun' & _).
      unfold fails_with. simpl. rewrite Hrun, Hrun'. simpl.
      split; intros [? _]; discriminate.
Qed.

(** ** What [Create] appends to the sink *)

Lemma own_id_ret {A} (a : A) : fails_with_own_id (ret a).
Proof. intros errors errors'. unfold ret. discriminate. Qed.

Lemma own_id_fail_with {A} id :
  In id Create_error_ids -> fails_with_own_id (@fail_with A id).
Proof.
  intros Hid errors errors'. unfold fail_with, AddError. intros [= <-].
  exists id. split; [done | apply last_snoc].
Qed.

Lemma own_id_check {A} id (r : option A) :
  In id Create_error_ids -> fails_with_own_id (check id r).
Proof.
  intros Hid errors errors'. unfold check, AddError.
  destruct r; [discriminate|]. intros [= <-].
  exists id. split; [done | apply last_snoc].
Qed.

Lemma own_id_check_reported {A} id (r : Reported A) :
  In id Create_error_ids -> fails_with_own_id (check_reported id r).
Proof.
  intros Hid errors errors'. unfold check_reported, AddError.
  destruct r as [[a|] added]; [discriminate|]. intros [= <-].
  exists id. split; [done | apply last_snoc].
Qed.

Lemma own_id_bind {A B} (m : Sink A) (k : A -> Sink B) :
  fails_with_own_id m -> (forall a, fails_with_own_id (k a)) ->
  fails_with_own_id (bind m k).
Proof.
  intros Hm Hk errors errors'. unfold bind.
  destruct (m errors) as [[a|] errors1] eqn:Hrun.
  - apply Hk.
  - intros [= <-]. by eapply Hm.
Qed.

Ltac own_id_step :=
  first
    [ apply own_id_ret
    | apply own_id_fail_with; simpl; tauto
    | apply own_id_check; simpl; tauto
    | apply own_id_check_reported; simpl; tauto
    | apply own_id_bind; [ | intros ? ]
    | match goal with
      | |- fails_with_own_id (match ?x with _ => _ end) => destruct x
      | |- fails_with_own_id (let (_, _) := ?x in _) => destruct x
      | |- fails_with_own_id (if ?x then _ else _) => destruct x
      end ].

Ltac unfold_blocks :=
  unfold dispatch_BasicConstraints, dispatch_KeyUsage, dispatch_ExtKeyUsage,
    dispatch_SubjectAltName, dispatch_NameConstraints,
    dispatch_AuthorityInfoAccess, dispatch_CertificatePolicies,
    dispatch_PolicyConstraints, dispatch_PolicyMappings,
    dispatch_InhibitAnyPolicy, dispatch_SubjectKeyIdentifier,
    dispatch_AuthorityKeyIdentifier.

Lemma own_id_Create_body backing_data options :
  fails_with_own_id (Create_body backing_data options).
Proof.
  unfold Create_body, Create_header, Create_extensions. unfold_blocks.
  repeat own_id_step.
Qed.

(** X8.  The failures of [Create] are those of its twenty identifiers: when
    it returns no object, the last node of the sink is a high-severity
    error with one of them, whatever the parsers appended before. *)
Theorem X8_failure_has_an_identifier_of_Create backing_data options errors :
  fst (Create backing_data options (Some errors)) = None ->
  exists id,
    In id Create_error_ids
    /\ fails_with id (Create backing_data options (Some errors)).
Proof.
  unfold fails_with. simpl.
  destruct (Create_body backing_data options errors) as [[cert|] errors'] eqn:Hrun;
    [discriminate|].
  intros _. destruct (own_id_Create_body _ _ _ _ Hrun) as (id & Hid & Hlast).
  exists id. by repeat split.
Qed.

Lemma one_node_ret {A} (a : A) : one_node_on_failure (ret a).
Proof. intros errors. left. by exists a. Qed.

Lemma one_node_fail_with {A} id :
  In id Create_error_ids -> one_node_on_failure (@fail_with A id).
Proof. intros Hid errors. right. by exists id. Qed.

Lemma one_node_check {A} id (r : option A) :
  In id Create_error_ids -> one_node_on_failure (check id r).
Proof.
  intros Hid errors. unfold check. destruct r as [a|].
  - left. by exists a.
  - right. by exists id.
Qed.

Lemma one_node_check_reported {A} id (r : Reported A) :
  In id Create_error_ids -> snd r = [] ->
  one_node_on_failure (check_reported id r).
Proof.
  intros Hid Hquiet errors. unfold check_reported.
  destruct r as [[a|] added]; simpl in Hquiet; subst added; rewrite app_nil_r.
  - left. by exists a.
  - right. by exists id.
Qed.

Lemma one_node_bind {A B} (m : Sink A) (k : A -> Sink B) :
  one_node_on_failure m -> (forall a, one_node_on_failure (k a)) ->
  one_node_on_failure (bind m k).
Proof.
  intros Hm Hk errors. unfold bind.
  destruct (Hm errors) as [(a & ->)|(id & Hid & ->)].
  - apply Hk.
  - right. by exists id.
Qed.

Lemma one_node_Create_body backing_data options :
  quiet -> one_node_on_failure (Create_body backing_data options).
Proof.
  intros (Hcert & Htbs & Hsigalg & Hname & Hnames & Hconstraints & Hpolicies).
  unfold Create_body, Create_header, Create_extensions. unfold_blocks.
  repeat first
    [ apply one_node_ret
    | apply one_node_fail_with; simpl; tauto
    | apply one_node_check; simpl; tauto
    | apply one_node_check_reported; [simpl; tauto | done]
    | apply one_node_bind; [ | intros ? ]
    | match goal with
      | |- one_node_on_failure (match ?x with _ => _ end) => destruct x
      | |- one_node_on_failure (let (_, _) := ?x in _) => destruct x
      | |- one_node_on_failure (if ?x then _ else _) => destruct x
      end ].
Qed.

(** X9.  When no parser appends to the sink, [Create] leaves the caller's
    sink as it was if it returns a certificate, and appends exactly one
    node, a high-severity error with one of its identifiers, if it returns
    no object. *)
Theorem X9_one_node_per_failure backing_data options errors :
  quiet ->
  (exists cert, Create backing_data options (Some errors) = (Some cert, Some errors))
  \/ (exists id,
        In id Create_error_ids
        /\ Create backing_data options (Some errors)
           = (None, Some (AddError id errors))).
Proof.
  intros Hquiet. simpl.
  destruct (one_node_Create_body backing_data options Hquiet errors)
    as [(cert & ->)|(id & Hid & ->)].
  - left. by exists cert.
  - right. by exists id.
Qed.

End MoreProperties.

(** * Properties of the resource record data *)

Section RecordRdataProperties.
Context {P : Platform}.

Lemma uint8_t_byte (b : Z) : 0 <= b < 256 -> uint8_t b = b.
Proof. intros Hb. unfold uint8_t. apply Z.mod_small. lia. Qed.

Lemma size_t_small (x : Z) : 0 <= x < 2 ^ SIZE_WIDTH -> size_t x = x.
Proof. intros Hx. unfold size_t. by apply Z.mod_small. Qed.

Lemma unsigned_small (x : Z) : 0 <= x < 2 ^ UINT_WIDTH -> unsigned x = x.
Proof. intros Hx. unfold unsigned. by apply Z.mod_small. Qed.

Lemma size_of_nonneg (data : list Z) : 0 <= size_of data.
Proof. unfold size_of. lia. Qed.

Lemma size_of_app (a b : list Z) : size_of (a ++ b) = size_of a + size_of b.
Proof. unfold size_of. rewrite length_app. lia. Qed.

Lemma size_of_cons (x : Z) (a : list Z) : size_of (x :: a) = 1 + size_of a.
Proof. unfold size_of. simpl length. lia. Qed.

Lemma size_of_drop (data : list Z) (i : Z) :
  0 <= i <= size_of data -> size_of (drop (Z.to_nat i) data) = size_of data - i.
Proof. unfold size_of. intros Hi. rewrite length_drop. lia. Qed.

Lemma is_bytes_at (data : list Z) (i : Z) :
  is_bytes data -> 0 <= i < size_of data -> 0 <= at_ data i < 256.
Proof.
  unfold is_bytes, at_, size_of. intros Hbytes Hi.
  destruct (data !! Z.to_nat i) as [b|] eqn:Hb.
  - simpl. by eapply (proj1 (Forall_lookup _ _) Hbytes).
  - apply lookup_ge_None in Hb. lia.
Qed.

Lemma is_bytes_forallb (data : list Z) :
  forallb (fun b => (0 <=? b) && (b <? 256)) data = true -> is_bytes data.
Proof.
  unfold is_bytes. induction data as [|b data IH]; simpl; intros Hall.
  - constructor.
  - apply andb_true_iff in Hall as [Hb Hrest].
    apply andb_true_iff in Hb as [Hlow Hhigh].
    constructor; [lia|by apply IH].
Qed.

Lemma drop_at (data : list Z) (i : Z) :
  0 <= i < size_of data ->
  drop (Z.to_nat i) data = at_ data i :: drop (Z.to_nat (i + 1)) data.
Proof.
  unfold at_, size_of. intros Hi.
  destruct (data !! Z.to_nat i) as [b|] eqn:Hb.
  - simpl. replace (Z.to_nat (i + 1)) with (S (Z.to_nat i)) by lia.
    by apply drop_S.
  - apply lookup_ge_None in Hb. lia.
Qed.

Lemma app_same_size (a b c d : list Z) :
  a ++ b = c ++ d -> size_of a = size_of c -> a = c /\ b = d.
Proof.
  unfold size_of. intros Heq Hlen.
  apply app_inj_1 in Heq; [done|lia].
Qed.

Lemma txt_wire_cons (text : list Z) (texts : list (list Z)) :
  txt_wire (text :: texts) = size_of text :: text ++ txt_wire texts.
Proof. reflexivity. Qed.

Lemma txt_wire_app (a b : list (list Z)) :
  txt_wire (a ++ b) = txt_wire a ++ txt_wire b.
Proof. unfold txt_wire. apply flat_map_app. Qed.

(** The loop of [TxtRecordRdata::Create] from position [i] on: with enough
    fuel it ends, with the strings that the rest of the data holds when the
    rest is a sequence of strings, and with [nullptr] when it is not. *)
Lemma TxtRecordRdata_Create_loop_spec (fuel : nat) :
  forall (data : list Z) (i : Z) (texts_ : list (list Z)),
    is_bytes data ->
    size_of data + 255 < 2 ^ SIZE_WIDTH ->
    0 <= i <= size_of data ->
    size_of data - i <= Z.of_nat fuel ->
    match TxtRecordRdata_Create_loop fuel data i texts_ with
    | Done (Some texts) =>
        exists more, texts = texts_ ++ more
                     /\ drop (Z.to_nat i) data = txt_wire more
    | Done None => forall more, drop (Z.to_nat i) data <> txt_wire more
    | OutOfFuel => False
    end.
Proof.
  induction fuel as [|fuel IH]; intros data i texts_ Hbytes Hwidth Hi Hfuel.
  - simpl. destruct (Z.ltb_spec i (size_of data)) as [Hlt|Hge]; [lia|].
    exists []. rewrite app_nil_r. split; [done|].
    apply drop_ge. unfold size_of in *. lia.
  - simpl. destruct (Z.ltb_spec i (size_of data)) as [Hlt|Hge].
    + pose proof (is_bytes_at data i Hbytes (conj (proj1 Hi) Hlt)) as Hb.
      rewrite (uint8_t_byte _ Hb).
      rewrite (size_t_small (i + at_ data i)) by lia.
      pose proof (drop_at data i (conj (proj1 Hi) Hlt)) as Hdrop.
      destruct (Z.geb_spec (i + at_ data i) (size_of data)) as [Hout|Hin].
      * intros more Hmore. rewrite Hdrop in Hmore.
        destruct more as [|text more]; [discriminate|].
        rewrite txt_wire_cons in Hmore. injection Hmore as Hlen Hrest.
        apply (f_equal size_of) in Hrest.
        rewrite size_of_drop, size_of_app in Hrest by lia.
        pose proof (size_of_nonneg (txt_wire more)). lia.
      * rewrite (size_t_small (i + 1)) by lia.
        rewrite (size_t_small (i + (at_ data i + 1))) by lia.
        set (text := substr data (i + 1) (at_ data i)).
        assert (Hsplit : drop (Z.to_nat (i + 1)) data
                         = text ++ drop (Z.to_nat (i + (at_ data i + 1))) data).
        { unfold text, substr.
          replace (Z.to_nat (i + (at_ data i + 1)))
            with (Z.to_nat (i + 1) + Z.to_nat (at_ data i))%nat by lia.
          rewrite <- drop_drop. symmetry. apply take_drop. }
        assert (Hsize : size_of text = at_ data i).
        { unfold text, substr, size_of. rewrite length_take, length_drop.
          unfold size_of in *. lia. }
        specialize (IH data (i + (at_ data i + 1)) (texts_ ++ [text])
                      Hbytes Hwidth ltac:(lia) ltac:(lia)).
        destruct (TxtRecordRdata_Create_loop fuel data _ _) as [[texts|]|].
        -- destruct IH as (more & -> & Hmore).
           exists (text :: more). split; [by rewrite <- app_assoc|].
           rewrite Hdrop, txt_wire_cons, Hsize, Hsplit, Hmore. done.
        -- intros more Hmore. rewrite Hdrop in Hmore.
           destruct more as [|text' more]; [discriminate|].
           rewrite txt_wire_cons in Hmore. injection Hmore as Hlen Hrest.
           rewrite Hsplit in Hrest.
           apply app_same_size in Hrest as [_ Hrest]; [|lia].
           by apply (IH more).
        -- done.
    + exists []. rewrite app_nil_r. split; [done|].
      apply drop_ge. unfold size_of in *. lia.
Qed.

Lemma txt_wire_inj (a b : list (list Z)) : txt_wire a = txt_wire b -> a = b.
Proof.
  revert b. induction a as [|text a IH]; intros [|text' b] Heq; try done.
  rewrite !txt_wire_cons in Heq. injection Heq as Hlen Hrest.
  apply app_same_size in Hrest as [-> Hrest]; [|done].
  by rewrite (IH b Hrest).
Qed.

Lemma txt_wire_bytes (texts : list (list Z)) :
  is_bytes (txt_wire texts) ->
  Forall (fun text => size_of text <= 255 /\ is_bytes text) texts.
Proof.
  unfold is_bytes. induction texts as [|text texts IH]; intros Hbytes; [done|].
  rewrite txt_wire_cons in Hbytes.
  apply Forall_cons in Hbytes as [Hlen Hbytes].
  apply Forall_app in Hbytes as [Htext Hrest].
  constructor; [split; [lia|done]|by apply IH].
Qed.

(** [TxtRecordRdata::Create] ends, with the strings of the data or with
    [nullptr]. *)
Lemma TxtRecordRdata_Create_run (data : list Z) :
  is_bytes data ->
  size_of data + 255 < 2 ^ SIZE_WIDTH ->
  exists result,
    TxtRecordRdata_Create data = Done result
    /\ (forall texts, result = Some texts <-> data = txt_wire texts).
Proof.
  intros Hbytes Hwidth.
  pose proof (TxtRecordRdata_Create_loop_spec (length data) data 0 []
                Hbytes Hwidth) as Hloop.
  pose proof (size_of_nonneg data) as Hsize.
  specialize (Hloop ltac:(lia) ltac:(unfold size_of; lia)).
  unfold TxtRecordRdata_Create.
  destruct (TxtRecordRdata_Create_loop _ data 0 []) as [[texts|]|];
    [| |done].
  - destruct Hloop as (more & -> & Hmore).
    change (data = txt_wire more) in Hmore.
    exists (Some more). split; [done|].
    intros texts. split.
    + by intros [= <-].
    + intros Heq. f_equal. apply txt_wire_inj. congruence.
  - exists None. split; [done|].
    intros texts. split; [done|].
    intros Heq. by destruct (Hloop texts).
Qed.

(** X10 [TxtRecordRdata::Create]: on data that is not so long that the
    position wraps around, the loop ends, and it gives the strings [texts]
    exactly when the data is these strings one after the other, each after
    a byte with its length; all other data gives [nullptr].  The strings
    have at most 255 bytes each. *)
Theorem X10_TxtRecordRdata_Create_reads_length_prefixed_strings
    (data : list Z) :
  is_bytes data ->
  size_of data + 255 < 2 ^ SIZE_WIDTH ->
  exists result,
    TxtRecordRdata_Create data = Done result
    /\ (forall texts, result = Some texts <-> data = txt_wire texts)
    /\ (forall texts, result = Some texts ->
          Forall (fun text => size_of text <= 255 /\ is_bytes text) texts).
Proof.
  intros Hbytes Hwidth.
  destruct (TxtRecordRdata_Create_run data Hbytes Hwidth)
    as (result & Hrun & Hresult).
  exists result. split; [done|]. split; [done|].
  intros texts Htexts. apply txt_wire_bytes.
  by rewrite <- (proj1 (Hresult texts) Htexts).
Qed.

(** X11 [TxtRecordRdata::Create]: data whose last string is cut short (its
    length byte announces more bytes than there are) gives [nullptr], and
    none of the strings before it. *)
Theorem X11_TxtRecordRdata_Create_rejects_a_cut_string
    (texts : list (list Z)) (n : Z) (partial : list Z) :
  is_bytes (txt_wire texts ++ n :: partial) ->
  size_of (txt_wire texts ++ n :: partial) + 255 < 2 ^ SIZE_WIDTH ->
  size_of partial < n ->
  TxtRecordRdata_Create (txt_wire texts ++ n :: partial) = Done None.
Proof.
  intros Hbytes Hwidth Hcut.
  destruct (TxtRecordRdata_Create_run _ Hbytes Hwidth)
    as (result & Hrun & Hresult).
  rewrite Hrun. destruct result as [texts'|]; [|done].
  exfalso. pose proof (proj1 (Hresult texts') eq_refl) as Heq.
  clear -Heq Hcut. revert texts' Heq.
  induction texts as [|text texts IH]; intros texts' Heq.
  - simpl in Heq. destruct texts' as [|text' texts']; [done|].
    rewrite txt_wire_cons in Heq. injection Heq as -> ->.
    rewrite size_of_app in Hcut.
    pose proof (size_of_nonneg (txt_wire texts')). lia.
  - destruct texts' as [|text' texts']; [done|].
    rewrite !txt_wire_cons in Heq. simpl in Heq. injection Heq as Hlen Hrest.
    rewrite <- app_assoc in Hrest.
    apply app_same_size in Hrest as [_ Hrest]; [|done].
    by apply (IH texts').
Qed.

Lemma at_app_0 (name rest : list Z) (x : Z) :
  at_ (name ++ x :: rest) (size_of name) = x.
Proof.
  unfold at_, size_of. rewrite Nat2Z.id.
  by rewrite list_lookup_middle.
Qed.

Lemma at_app_1 (name rest : list Z) (x y : Z) :
  at_ (name ++ x :: y :: rest) (size_of name + 1) = y.
Proof.
  unfold at_, size_of.
  replace (Z.to_nat (Z.of_nat (length name) + 1)) with (length name + 1)%nat
    by lia.
  rewrite lookup_app_r by lia.
  by replace (length name + 1 - length name)%nat with 1%nat by lia.
Qed.

Lemma drop_app_2 (name rest : list Z) (x y : Z) :
  drop (Z.to_nat (size_of name + 2)) (name ++ x :: y :: rest) = rest.
Proof.
  unfold size_of.
  replace (Z.to_nat (Z.of_nat (length name) + 2)) with (length name + 2)%nat
    by lia.
  by rewrite drop_app_add.
Qed.

Lemma land_one_bit (a n : Z) :
  0 <= n -> (Z.land a (Z.shiftl 1 n) =? 0) = negb (Z.testbit a n).
Proof.
  intros Hn. rewrite Z.shiftl_1_l.
  destruct (Z.testbit a n) eqn:Hbit; simpl.
  - apply Z.eqb_neq. intros Hzero.
    apply (f_equal (fun x => Z.testbit x n)) in Hzero.
    rewrite Z.land_spec, Hbit, Z.pow2_bits_true, Z.bits_0 in Hzero by done.
    discriminate.
  - apply Z.eqb_eq. apply Z.bits_inj'. intros m Hm.
    rewrite Z.land_spec, Z.bits_0, Z.pow2_bits_eqb by done.
    destruct (Z.eqb_spec n m) as [->|_].
    + by rewrite Hbit.
    + apply andb_false_r.
Qed.

Lemma uint_width_8 : 3 <= UINT_WIDTH -> 8 <= 2 ^ UINT_WIDTH.
Proof.
  intros Hw. change 8 with (2 ^ 3). apply Z.pow_le_mono_r; lia.
Qed.

Lemma div_8_bound (i : Z) :
  3 <= UINT_WIDTH -> 0 <= i < 2 ^ UINT_WIDTH ->
  0 <= i / 8 /\ i / 8 + 1 < 2 ^ UINT_WIDTH.
Proof.
  intros Hw Hi. pose proof (uint_width_8 Hw).
  pose proof (Z.div_mod i 8 ltac:(lia)).
  pose proof (Z.mod_pos_bound i 8 ltac:(lia)).
  lia.
Qed.

(** [NsecRecordRdata::GetBit] as a bit of a byte of the bitmap. *)
Lemma NsecRecordRdata_GetBit_testbit (bitmap_ : list Z) (i : Z) :
  3 <= UINT_WIDTH ->
  0 <= i < 2 ^ UINT_WIDTH ->
  NsecRecordRdata_GetBit bitmap_ i
  = match bitmap_ !! Z.to_nat (i / 8) with
    | Some byte => Z.testbit byte (7 - i mod 8)
    | None => false
    end.
Proof.
  intros Hw Hi. pose proof (uint_width_8 Hw) as H8.
  pose proof (div_8_bound i Hw Hi) as [Hdiv0 Hdiv1].
  pose proof (Z.mod_pos_bound i 8 ltac:(lia)) as Hmod.
  unfold NsecRecordRdata_GetBit.
  rewrite (unsigned_small (i / 8)) by lia.
  rewrite (unsigned_small (i / 8 + 1)) by lia.
  rewrite (unsigned_small (i mod 8)) by lia.
  rewrite (unsigned_small (7 - i mod 8)) by lia.
  unfold at_, size_of.
  destruct (bitmap_ !! Z.to_nat (i / 8)) as [byte|] eqn:Hbyte.
  - apply lookup_lt_Some in Hbyte.
    destruct (Z.ltb_spec (Z.of_nat (length bitmap_)) (i / 8 + 1)); [lia|].
    simpl. rewrite land_one_bit by lia. apply negb_involutive.
  - apply lookup_ge_None in Hbyte.
    destruct (Z.ltb_spec (Z.of_nat (length bitmap_)) (i / 8 + 1)); [done|lia].
Qed.

(** X12 [NsecRecordRdata::GetBit]: bit [i] of the bitmap is bit [7 - i mod
    8] of its byte [i / 8], the bits of a byte counted from the most
    significant one; beyond the bitmap every bit is unset. *)
Theorem X12_GetBit_counts_from_the_most_significant_bit
    (bitmap_ : list Z) (i : Z) :
  3 <= UINT_WIDTH ->
  0 <= i < 2 ^ UINT_WIDTH ->
  NsecRecordRdata_GetBit bitmap_ i
  = match bitmap_ !! Z.to_nat (i / 8) with
    | Some byte => Z.testbit byte (7 - i mod 8)
    | None => false
    end
  /\ (8 * size_of bitmap_ <= i -> NsecRecordRdata_GetBit bitmap_ i = false).
Proof.
  intros Hw Hi. rewrite (NsecRecordRdata_GetBit_testbit bitmap_ i Hw Hi).
  split; [done|]. intros Hout.
  rewrite (proj2 (lookup_ge_None bitmap_ (Z.to_nat (i / 8)))); [done|].
  unfold size_of in Hout.
  pose proof (Z.div_le_lower_bound i 8 (Z.of_nat (length bitmap_))
                ltac:(lia) Hout).
  lia.
Qed.

(** [NsecRecordRdata::Create] gives a bitmap exactly for data that is a
    name, a zero byte, the length of the bitmap and the bitmap. *)
Lemma NsecRecordRdata_Create_spec (ReadName : Z -> Z) (data_data : Z)
    (data bitmap : list Z) :
  is_bytes data ->
  0 <= ReadName data_data ->
  ReadName data_data + 2 < 2 ^ UINT_WIDTH ->
  NsecRecordRdata_Create ReadName data_data data = Some bitmap
  <-> 0 < ReadName data_data
      /\ 1 <= size_of bitmap <= 32
      /\ exists name,
           size_of name = ReadName data_data
           /\ data = name ++ 0 :: size_of bitmap :: bitmap.
Proof.
  intros Hbytes Hpos Hwidth. unfold NsecRecordRdata_Create.
  set (n := ReadName data_data) in *.
  rewrite (unsigned_small n) by lia.
  rewrite (unsigned_small (n + 2)) by lia.
  split.
  - intros Hcreate.
    destruct (Z.eqb_spec n 0) as [|Hn]; [done|].
    destruct (Z.ltb_spec (size_of data) (n + 2)) as [|Hlen]; [done|].
    simpl in Hcreate.
    pose proof (is_bytes_at data n Hbytes ltac:(lia)) as Hb0.
    pose proof (is_bytes_at data (n + 1) Hbytes ltac:(lia)) as Hb1.
    rewrite (uint8_t_byte _ Hb0), (uint8_t_byte _ Hb1) in Hcreate.
    destruct (Z.eqb_spec (at_ data n) 0) as [Hblock|]; [|done].
    destruct (Z.eqb_spec (at_ data (n + 1)) 0) as [|Hlen0]; [done|].
    destruct (Z.gtb_spec (at_ data (n + 1)) 32) as [|Hlen32]; [done|].
    simpl in Hcreate. unfold substr_from in Hcreate.
    destruct (Z.eqb_spec (size_of (drop (Z.to_nat (n + 2)) data))
                (at_ data (n + 1))) as [Hsize|]; [|done].
    simpl in Hcreate. injection Hcreate as <-.
    split; [lia|]. split; [lia|].
    exists (take (Z.to_nat n) data). split.
    + unfold size_of in *. rewrite length_take. lia.
    + rewrite Hsize, <- Hblock.
      replace (n + 2) with (n + 1 + 1) by lia.
      rewrite <- (drop_at data (n + 1)) by lia.
      rewrite <- (drop_at data n) by lia.
      symmetry. apply take_drop.
  - intros (Hn & Hsize & name & Hname & ->).
    destruct (Z.eqb_spec n 0) as [|_]; [lia|].
    rewrite size_of_app, !size_of_cons.
    destruct (Z.ltb_spec (size_of name + (1 + (1 + size_of bitmap))) (n + 2))
      as [|_]; [lia|].
    simpl. rewrite <- Hname, at_app_0, at_app_1.
    rewrite (uint8_t_byte 0) by lia.
    rewrite (uint8_t_byte (size_of bitmap)) by lia.
    destruct (Z.eqb_spec (size_of bitmap) 0) as [|_]; [lia|].
    destruct (Z.gtb_spec (size_of bitmap) 32) as [|_]; [lia|].
    simpl. unfold substr_from. rewrite drop_app_2.
    by rewrite Z.eqb_refl.
Qed.

(** X13 [NsecRecordRdata::Create]: a record is created exactly for data
    that is the next domain name, a block number of zero, the length of the
    bitmap, from 1 to 32, and that many bytes of bitmap and nothing after
    them; the record holds the bitmap. *)
Theorem X13_NsecRecordRdata_Create_accepts_one_block
    (ReadName : Z -> Z) (data_data : Z) (data bitmap : list Z) :
  is_bytes data ->
  0 <= ReadName data_data ->
  ReadName data_data + 2 < 2 ^ UINT_WIDTH ->
  NsecRecordRdata_Create ReadName data_data data = Some bitmap
  <-> 0 < ReadName data_data
      /\ 1 <= size_of bitmap <= 32
      /\ exists name,
           size_of name = ReadName data_data
           /\ data = name ++ 0 :: size_of bitmap :: bitmap.
Proof. apply NsecRecordRdata_Create_spec. Qed.

(** X14 [NsecRecordRdata::Create] then [NsecRecordRdata::GetBit]: bit [i]
    of a created record is read from the byte of the data at [i / 8] after
    the bitmap header, and no bit from 256 on is set. *)
Theorem X14_created_bitmap_has_256_bits
    (ReadName : Z -> Z) (data_data : Z) (data bitmap : list Z) (i : Z) :
  is_bytes data ->
  0 <= ReadName data_data ->
  ReadName data_data + 2 < 2 ^ UINT_WIDTH ->
  3 <= UINT_WIDTH ->
  0 <= i < 2 ^ UINT_WIDTH ->
  NsecRecordRdata_Create ReadName data_data data = Some bitmap ->
  NsecRecordRdata_GetBit bitmap i
  = (i <? 8 * at_ data (ReadName data_data + 1))
    && Z.testbit (at_ data (ReadName data_data + 2 + i / 8)) (7 - i mod 8)
  /\ (256 <= i -> NsecRecordRdata_GetBit bitmap i = false).
Proof.
  intros Hbytes Hpos Hwidth Hw Hi Hcreate.
  apply (NsecRecordRdata_Create_spec _ _ _ _ Hbytes Hpos Hwidth) in Hcreate
    as (Hn & Hsize & name & Hname & ->).
  rewrite <- Hname, at_app_1.
  rewrite (NsecRecordRdata_GetBit_testbit bitmap i Hw Hi).
  pose proof (Z.div_pos i 8 ltac:(lia) ltac:(lia)) as Hdiv.
  assert (Hat : at_ (name ++ 0 :: size_of bitmap :: bitmap)
                  (size_of name + 2 + i / 8)
                = default 0 (bitmap !! Z.to_nat (i / 8))).
  { unfold at_, size_of.
    replace (Z.to_nat (Z.of_nat (length name) + 2 + i / 8))
      with (length name + S (S (Z.to_nat (i / 8))))%nat by lia.
    by rewrite lookup_app_r, Nat.add_comm, Nat.add_sub by lia. }
  rewrite Hat.
  destruct (Z.ltb_spec i (8 * size_of bitmap)) as [Hin|Hout].
  - assert (Hlt : (Z.to_nat (i / 8) < length bitmap)%nat).
    { unfold size_of in Hin.
      pose proof (Z.div_lt_upper_bound i 8 (Z.of_nat (length bitmap))
                    ltac:(lia) Hin). lia. }
    destruct (lookup_lt_is_Some_2 bitmap _ Hlt) as [byte Hbyte].
    rewrite Hbyte. simpl. split; [done|]. intros Hbig. lia.
  - assert (Hnone : bitmap !! Z.to_nat (i / 8) = None).
    { apply lookup_ge_None. unfold size_of in Hout.
      pose proof (Z.div_le_lower_bound i 8 (Z.of_nat (length bitmap))
                    ltac:(lia) Hout). lia. }
    rewrite Hnone. done.
Qed.

End RecordRdataProperties.

Section IntegrityProperties.
Context {P : Platform} {E : RdataExternals}.

Lemma size_of_replicate (n x : Z) : 0 <= n -> size_of (replicate (Z.to_nat n) x) = n.
Proof. intros Hn. unfold size_of. rewrite length_replicate. lia. Qed.

Lemma size_of_take (data : list Z) (n : Z) :
  0 <= n <= size_of data -> size_of (take (Z.to_nat n) data) = n.
Proof. unfold size_of. intros Hn. rewrite length_take. lia. Qed.

(** The two ways through [IntegrityRecordRdata::Create]: the data is a
    16-bit length, a nonce of that length, a digest and what is left over,
    and the record is made of the nonce and the digest; or the parse fails
    and the record is made of the empty nonce and the zero digest. *)
Lemma IntegrityRecordRdata_Create_cases (data : list Z) :
  big_endian_reader ->
  0 <= kDigestLen ->
  is_bytes data ->
  (parse_success data = true
   /\ exists high low nonce digest trailing,
        data = high :: low :: nonce ++ digest ++ trailing
        /\ high * 256 + low = size_of nonce
        /\ size_of digest = kDigestLen
        /\ IntegrityRecordRdata_Create data
           = Returns (IntegrityRecordRdata_of_parts nonce digest (size_of data)))
  \/ (parse_success data = false
      /\ IntegrityRecordRdata_Create data
         = Returns (IntegrityRecordRdata_of_parts []
                      (replicate (Z.to_nat kDigestLen) 0) (size_of data))).
Proof.
  intros [HU16 HPiece] Hlen Hbytes.
  unfold IntegrityRecordRdata_Create, parse_success.
  rewrite HU16.
  destruct data as [|high [|low rest]].
  1,2: right; simpl; rewrite size_of_replicate, Z.eqb_refl by done; done.
  apply Forall_cons in Hbytes as [Hhigh Hbytes].
  apply Forall_cons in Hbytes as [Hlow Hbytes].
  set (n := high * 256 + low) in *.
  destruct (Z.leb_spec n (size_of rest)) as [Hn|Hn].
  - rewrite HPiece.
    destruct (Z.leb_spec kDigestLen (size_of (drop (Z.to_nat n) rest)))
      as [Hd|Hd].
    + left. split; [done|].
      exists high, low, (take (Z.to_nat n) rest),
        (take (Z.to_nat kDigestLen) (drop (Z.to_nat n) rest)),
        (drop (Z.to_nat kDigestLen) (drop (Z.to_nat n) rest)).
      rewrite !take_drop.
      split; [done|].
      split; [rewrite size_of_take; lia|].
      split; [rewrite size_of_take; lia|].
      simpl. rewrite size_of_take, Z.eqb_refl by lia. done.
    + right. simpl. rewrite size_of_replicate, Z.eqb_refl by done. done.
  - right. simpl. rewrite size_of_replicate, Z.eqb_refl by done. done.
Qed.

(** X15 [IntegrityRecordRdata::Create]: when the parse fails, a record is
    still created, with the empty nonce and the digest of zero bytes; it is
    intact only if the data has the length of a record with an empty nonce
    and the zero digest is the hash of the empty nonce.  So the assertion
    of the code that such a record is not intact holds as soon as the hash
    of the empty nonce is not the zero digest. *)
Theorem X15_failed_parse_gives_the_empty_record (data : list Z) :
  0 <= kDigestLen ->
  parse_success data = false ->
  exists record,
    IntegrityRecordRdata_Create data = Returns record
    /\ nonce_ record = []
    /\ digest_ record = replicate (Z.to_nat kDigestLen) 0
    /\ (is_intact_ record = true
        <-> size_of data = LengthForSerialization []
            /\ SHA256 [] = replicate (Z.to_nat kDigestLen) 0)
    /\ (SHA256 [] <> replicate (Z.to_nat kDigestLen) 0 ->
        is_intact_ record = false).
Proof.
  intros Hlen Hparse.
  exists (IntegrityRecordRdata_of_parts []
            (replicate (Z.to_nat kDigestLen) 0) (size_of data)).
  assert (Hintact :
    is_intact_ (IntegrityRecordRdata_of_parts []
                  (replicate (Z.to_nat kDigestLen) 0) (size_of data)) = true
    <-> size_of data = LengthForSerialization []
        /\ SHA256 [] = replicate (Z.to_nat kDigestLen) 0).
  { simpl. rewrite andb_true_iff, Z.eqb_eq, bool_decide_eq_true. done. }
  split; [|split; [done|split; [done|split; [done|]]]].
  - unfold IntegrityRecordRdata_Create, parse_success in *.
    destruct (ReadU16LengthPrefixed data) as [[parsed_nonce reader]|].
    + destruct (ReadPiece kDigestLen reader) as [[parsed_digest ?]|];
        [done|].
      simpl. rewrite size_of_replicate, Z.eqb_refl by done. done.
    + simpl. rewrite size_of_replicate, Z.eqb_refl by done. done.
  - intros Hhash. apply not_true_is_false. rewrite Hintact. tauto.
Qed.

(** X16 [IntegrityRecordRdata::Create]: with a reader that gives a piece
    of the length asked for, the check on the length of the digest never
    fails: a record is created from every data, and its digest has
    [kDigestLen] bytes. *)
Theorem X16_Create_always_gives_a_record (data : list Z) :
  big_endian_reader ->
  0 <= kDigestLen ->
  is_bytes data ->
  exists record,
    IntegrityRecordRdata_Create data = Returns record
    /\ size_of (digest_ record) = kDigestLen.
Proof.
  intros Hreader Hlen Hbytes.
  destruct (IntegrityRecordRdata_Create_cases data Hreader Hlen Hbytes)
    as [(_ & high & low & nonce & digest & trailing & _ & _ & Hdigest & ->)
       |(_ & ->)].
  - eexists. split; [done|]. done.
  - eexists. split; [done|]. simpl. by apply size_of_replicate.
Qed.

(** The record of data is intact exactly when the data is the nonce,
    after its length on 16 bits, and the hash of the nonce. *)
Lemma IntegrityRecordRdata_Create_intact (data : list Z) (record : IntegrityRecordRdata) :
  big_endian_reader ->
  0 <= kDigestLen ->
  is_bytes data ->
  size_of data < 2 ^ SIZE_WIDTH ->
  SHA256 [] <> replicate (Z.to_nat kDigestLen) 0 ->
  IntegrityRecordRdata_Create data = Returns record ->
  is_intact_ record = true
  <-> size_of (nonce_ record) < 2 ^ 16
      /\ digest_ record = SHA256 (nonce_ record)
      /\ size_of (digest_ record) = kDigestLen
      /\ data = size_of (nonce_ record) / 256 :: size_of (nonce_ record) mod 256
                :: nonce_ record ++ digest_ record.
Proof.
  intros Hreader Hlen Hbytes Hwidth Hzero Hcreate.
  pose proof (size_of_nonneg data) as Hdata.
  destruct (IntegrityRecordRdata_Create_cases data Hreader Hlen Hbytes)
    as [(_ & high & low & nonce & digest & trailing & Heq & Hn & Hdigest & Hrun)
       |(_ & Hrun)];
    rewrite Hrun in Hcreate; injection Hcreate as <-; simpl.
  - assert (Hhigh : 0 <= high < 256 /\ 0 <= low < 256).
    { rewrite Heq in Hbytes.
      apply Forall_cons in Hbytes as [? Hbytes].
      by apply Forall_cons in Hbytes as [? _]. }
    assert (Hsize : size_of data
                    = 2 + size_of nonce + kDigestLen + size_of trailing).
    { rewrite Heq, !size_of_cons, !size_of_app. lia. }
    pose proof (size_of_nonneg nonce) as Hnonce.
    pose proof (size_of_nonneg trailing) as Htrailing.
    assert (HLFS : LengthForSerialization nonce
                   = 2 + size_of nonce + kDigestLen).
    { unfold LengthForSerialization.
      rewrite (size_t_small (2 + size_of nonce)) by lia.
      apply size_t_small. lia. }
    rewrite andb_true_iff, Z.eqb_eq, bool_decide_eq_true, HLFS.
    unfold IntegrityRecordRdata_Hash.
    assert (Hdiv : size_of nonce / 256 = high /\ size_of nonce mod 256 = low).
    { rewrite <- Hn. split.
      - rewrite Z.div_add_l by lia. rewrite Z.div_small by lia. lia.
      - rewrite Z.add_comm, Z.mod_add by lia. apply Z.mod_small. lia. }
    destruct Hdiv as [-> ->].
    split.
    + intros [Htotal Hhash].
      split; [lia|]. split; [done|]. split; [done|].
      assert (trailing = []) as ->.
      { destruct trailing; [done|]. rewrite size_of_cons in *.
        pose proof (size_of_nonneg trailing). lia. }
      by rewrite Heq, app_nil_r.
    + intros (_ & Hhash & _ & Hwire). split; [|done].
      rewrite Hsize. enough (size_of trailing = 0) by lia.
      rewrite Heq in Hwire. injection Hwire as Hwire.
      apply app_inv_head in Hwire.
      apply (f_equal size_of) in Hwire. rewrite size_of_app in Hwire. lia.
  - rewrite andb_true_iff, bool_decide_eq_true.
    unfold IntegrityRecordRdata_Hash. split.
    + intros [_ Hhash]. done.
    + intros (_ & Hhash & _). done.
Qed.

(** X17 [IntegrityRecordRdata::Create]: the record created from data is
    intact exactly when the data is the length of the nonce on 16 bits, high
    byte first, the nonce, and the hash of the nonce, with nothing left
    over. *)
Theorem X17_intact_records_are_nonce_and_hash
    (data : list Z) (record : IntegrityRecordRdata) :
  big_endian_reader ->
  0 <= kDigestLen ->
  is_bytes data ->
  size_of data < 2 ^ SIZE_WIDTH ->
  SHA256 [] <> replicate (Z.to_nat kDigestLen) 0 ->
  IntegrityRecordRdata_Create data = Returns record ->
  is_intact_ record = true
  <-> size_of (nonce_ record) < 2 ^ 16
      /\ digest_ record = SHA256 (nonce_ record)
      /\ size_of (digest_ record) = kDigestLen
      /\ data = size_of (nonce_ record) / 256 :: size_of (nonce_ record) mod 256
                :: nonce_ record ++ digest_ record.
Proof. apply IntegrityRecordRdata_Create_intact. Qed.

(** What [IntegrityRecordRdata::Serialize] gives, with a writer that writes
    when there is room. *)
Lemma IntegrityRecordRdata_Serialize_spec (self : IntegrityRecordRdata) :
  big_endian_writer ->
  size_of (digest_ self) = kDigestLen ->
  2 + size_of (nonce_ self) + kDigestLen < 2 ^ SIZE_WIDTH ->
  IntegrityRecordRdata_Serialize self
  = Returns
      (if is_intact_ self
       then Some (uint16_t (size_of (nonce_ self)) / 256
                  :: uint16_t (size_of (nonce_ self)) mod 256
                  :: nonce_ self ++ digest_ self)
       else None).
Proof.
  intros [HU16 HBytes] Hdigest Hwidth.
  pose proof (size_of_nonneg (nonce_ self)) as Hnonce.
  pose proof (size_of_nonneg (digest_ self)) as Hlen.
  unfold IntegrityRecordRdata_Serialize.
  destruct (is_intact_ self); [|done]. simpl negb. cbv iota.
  assert (HLFS : LengthForSerialization (nonce_ self)
                 = 2 + size_of (nonce_ self) + kDigestLen).
  { unfold LengthForSerialization.
    rewrite (size_t_small (2 + size_of (nonce_ self))) by lia.
    apply size_t_small. lia. }
  rewrite HLFS, HU16.
  destruct (Z.leb_spec 2 (2 + size_of (nonce_ self) + kDigestLen)); [|lia].
  rewrite HBytes.
  destruct (Z.leb_spec (size_of (nonce_ self))
              (2 + size_of (nonce_ self) + kDigestLen - 2)); [|lia].
  rewrite HBytes.
  destruct (Z.leb_spec (size_of (digest_ self))
              (2 + size_of (nonce_ self) + kDigestLen - 2
               - size_of (nonce_ self))); [|lia].
  simpl fst. simpl snd.
  replace (2 + size_of (nonce_ self) + kDigestLen - 2 - size_of (nonce_ self)
           - size_of (digest_ self)) with 0 by lia.
  simpl. by rewrite app_nil_r.
Qed.

(** X18 [IntegrityRecordRdata::Serialize]: with a writer that writes when
    there is room, none of the checks fails; a record that is not intact
    gives no bytes, and an intact one gives the length of its nonce on 16
    bits, high byte first, the nonce and the digest. *)
Theorem X18_Serialize_writes_length_nonce_digest (self : IntegrityRecordRdata) :
  big_endian_writer ->
  size_of (digest_ self) = kDigestLen ->
  2 + size_of (nonce_ self) + kDigestLen < 2 ^ SIZE_WIDTH ->
  IntegrityRecordRdata_Serialize self
  = Returns
      (if is_intact_ self
       then Some (uint16_t (size_of (nonce_ self)) / 256
                  :: uint16_t (size_of (nonce_ self)) mod 256
                  :: nonce_ self ++ digest_ self)
       else None).
Proof. apply IntegrityRecordRdata_Serialize_spec. Qed.

(** X19 [IntegrityRecordRdata::Create] then [Serialize]: an intact record
    created from data serializes to that data. *)
Theorem X19_Serialize_gives_back_the_data
    (data : list Z) (record : IntegrityRecordRdata) :
  big_endian_reader ->
  big_endian_writer ->
  0 <= kDigestLen ->
  is_bytes data ->
  size_of data < 2 ^ SIZE_WIDTH ->
  SHA256 [] <> replicate (Z.to_nat kDigestLen) 0 ->
  IntegrityRecordRdata_Create data = Returns record ->
  is_intact_ record = true ->
  IntegrityRecordRdata_Serialize record = Returns (Some data).
Proof.
  intros Hreader Hwriter Hlen Hbytes Hwidth Hzero Hcreate Hintact.
  pose proof (proj1 (IntegrityRecordRdata_Create_intact data record Hreader
                       Hlen Hbytes Hwidth Hzero Hcreate) Hintact)
    as (Hnonce & Hhash & Hdigest & Hwire).
  pose proof (size_of_nonneg (nonce_ record)) as Hpos.
  assert (Hsize : size_of data
                  = 2 + size_of (nonce_ record) + kDigestLen).
  { rewrite Hwire at 1. rewrite !size_of_cons, size_of_app. lia. }
  rewrite IntegrityRecordRdata_Serialize_spec by (done || lia).
  rewrite Hintact. unfold uint16_t.
  rewrite (Z.mod_small (size_of (nonce_ record))) by lia.
  by rewrite <- Hwire.
Qed.

(** The bytes of an intact record give the record back. *)
Lemma IntegrityRecordRdata_Create_of_Serialize
    (self : IntegrityRecordRdata) (bytes : list Z) :
  big_endian_reader ->
  big_endian_writer ->
  0 <= kDigestLen ->
  size_of (nonce_ self) < 2 ^ 16 ->
  size_of (digest_ self) = kDigestLen ->
  2 + size_of (nonce_ self) + kDigestLen < 2 ^ SIZE_WIDTH ->
  IntegrityRecordRdata_Hash (nonce_ self) = digest_ self ->
  IntegrityRecordRdata_Serialize self = Returns (Some bytes) ->
  IntegrityRecordRdata_Create bytes = Returns self.
Proof.
  intros [HU16 HPiece] Hwriter Hlen Hnonce Hdigest Hwidth Hhash Hser.
  pose proof (size_of_nonneg (nonce_ self)) as Hpos.
  rewrite IntegrityRecordRdata_Serialize_spec in Hser by done.
  destruct self as [nonce digest intact]. simpl in *.
  destruct intact; [|done]. injection Hser as <-.
  unfold uint16_t. rewrite (Z.mod_small (size_of nonce)) by lia.
  pose proof (Z.div_mod (size_of nonce) 256 ltac:(lia)) as Hdm.
  pose proof (Z.mod_pos_bound (size_of nonce) 256 ltac:(lia)) as Hmod.
  unfold IntegrityRecordRdata_Create. rewrite HU16.
  replace (size_of nonce / 256 * 256 + size_of nonce mod 256)
    with (size_of nonce) by lia.
  rewrite size_of_app.
  destruct (Z.leb_spec (size_of nonce) (size_of nonce + size_of digest));
    [|lia].
  unfold size_of at 1 2. rewrite Nat2Z.id, take_app_length, drop_app_length.
  rewrite HPiece.
  destruct (Z.leb_spec kDigestLen (size_of digest)); [|lia].
  rewrite (take_ge digest) by (unfold size_of in *; lia).
  simpl. rewrite Hdigest, Z.eqb_refl. simpl.
  unfold IntegrityRecordRdata_of_parts. f_equal. f_equal.
  rewrite andb_true_iff, Z.eqb_eq, bool_decide_eq_true. split; [|done].
  rewrite !size_of_cons, size_of_app. unfold LengthForSerialization.
  rewrite (size_t_small (2 + size_of nonce)) by lia.
  rewrite size_t_small by lia. lia.
Qed.

(** X20 [IntegrityRecordRdata::Serialize] then [Create]: the bytes of an
    intact record, whose digest is the hash of its nonce and whose nonce has
    a length that fits 16 bits, give the record back. *)
Theorem X20_Create_gives_back_the_record
    (self : IntegrityRecordRdata) (bytes : list Z) :
  big_endian_reader ->
  big_endian_writer ->
  0 <= kDigestLen ->
  size_of (nonce_ self) < 2 ^ 16 ->
  size_of (digest_ self) = kDigestLen ->
  2 + size_of (nonce_ self) + kDigestLen < 2 ^ SIZE_WIDTH ->
  IntegrityRecordRdata_Hash (nonce_ self) = digest_ self ->
  IntegrityRecordRdata_Serialize self = Returns (Some bytes) ->
  IntegrityRecordRdata_Create bytes = Returns self.
Proof. apply IntegrityRecordRdata_Create_of_Serialize. Qed.

(** X21 [IntegrityRecordRdata::IsEqual]: a record is equal to itself
    exactly when it is intact, so a record that is not intact is equal to no
    record; equality holds only between records of the same nonce and
    digest, and does not depend on the order of the two records. *)
Theorem X21_IsEqual_needs_intact_records
    (kType : Z) (self other : IntegrityRecordRdata) (other_Type : Z) :
  IntegrityRecordRdata_IsEqual kType self kType self = is_intact_ self
  /\ (is_intact_ self = false ->
      IntegrityRecordRdata_IsEqual kType self other_Type other = false
      /\ IntegrityRecordRdata_IsEqual kType other kType self = false)
  /\ (IntegrityRecordRdata_IsEqual kType self other_Type other = true ->
      other_Type = kType /\ self = other)
  /\ IntegrityRecordRdata_IsEqual kType self kType other
     = IntegrityRecordRdata_IsEqual kType other kType self.
Proof.
  unfold IntegrityRecordRdata_IsEqual. rewrite Z.eqb_refl. simpl.
  split; [|split; [|split]].
  - rewrite !bool_decide_eq_true_2 by done.
    by destruct (is_intact_ self).
  - intros ->. simpl. split; [by destruct (negb _)|].
    by rewrite andb_false_r.
  - destruct (Z.eqb_spec other_Type kType) as [->|]; [|done]. simpl.
    rewrite !andb_true_iff, !bool_decide_eq_true.
    intros [[[Hs Ho] Hn] Hd]. split; [done|].
    destruct self, other. simpl in *. congruence.
  - destruct (is_intact_ self), (is_intact_ other); simpl; try done.
    destruct (decide (nonce_ self = nonce_ other)) as [Hn|Hn],
             (decide (digest_ self = digest_ other)) as [Hd|Hd].
    + rewrite !bool_decide_eq_true_2; done.
    + rewrite (bool_decide_eq_false_2 (digest_ self = digest_ other)) by done.
      rewrite (bool_decide_eq_false_2 (digest_ other = digest_ self))
        by congruence.
      by rewrite !andb_false_r.
    + rewrite (bool_decide_eq_false_2 (nonce_ self = nonce_ other)) by done.
      by rewrite (bool_decide_eq_false_2 (nonce_ other = nonce_ self))
        by congruence.
    + rewrite (bool_decide_eq_false_2 (nonce_ self = nonce_ other)) by done.
      by rewrite (bool_decide_eq_false_2 (nonce_ other = nonce_ self))
        by congruence.
Qed.

(** X22 [IntegrityRecordRdata::Random]: with a random source that keeps
    to its bounds and a hash of [kDigestLen] bytes, the record is intact, its nonce has from 32 to 512
    bytes, and it serializes to bytes from which [Create] gives the same
    record. *)
Theorem X22_Random_record_round_trips :
  big_endian_reader ->
  big_endian_writer ->
  0 <= kDigestLen ->
  kDigestLen < 2 ^ SIZE_WIDTH - 514 ->
  (forall low high, low <= high -> low <= RandInt low high <= high) ->
  (forall n, 0 <= n -> size_of (RandBytes n) = n) ->
  (forall nonce, size_of (SHA256 nonce) = kDigestLen) ->
  is_intact_ IntegrityRecordRdata_Random = true
  /\ 32 <= size_of (nonce_ IntegrityRecordRdata_Random) <= 512
  /\ exists bytes,
       IntegrityRecordRdata_Serialize IntegrityRecordRdata_Random
       = Returns (Some bytes)
       /\ size_of bytes
          = 2 + size_of (nonce_ IntegrityRecordRdata_Random) + kDigestLen
       /\ IntegrityRecordRdata_Create bytes
          = Returns IntegrityRecordRdata_Random.
Proof.
  intros Hreader Hwriter Hlen Hwidth HRandInt HRandBytes HSHA.
  pose proof (HRandInt 32 512 ltac:(lia)) as Hint.
  assert (Hu16 : uint16_t (RandInt 32 512) = RandInt 32 512).
  { unfold uint16_t. apply Z.mod_small.
    revert Hint. generalize (RandInt 32 512). lia. }
  assert (Hpos : 0 <= RandInt 32 512).
  { revert Hint. generalize (RandInt 32 512). lia. }
  pose proof (HRandBytes (RandInt 32 512) Hpos) as Hsize.
  assert (Hrecord : nonce_ IntegrityRecordRdata_Random
                    = RandBytes (RandInt 32 512)).
  { unfold IntegrityRecordRdata_Random. by rewrite Hu16. }
  assert (Hdigest : digest_ IntegrityRecordRdata_Random
                    = SHA256 (nonce_ IntegrityRecordRdata_Random)).
  { done. }
  assert (Hintact : is_intact_ IntegrityRecordRdata_Random = true).
  { done. }
  generalize dependent IntegrityRecordRdata_Random.
  intros record Hrecord Hdigest Hintact.
  rewrite <- Hrecord in Hsize.
  assert (Hnonce : 32 <= size_of (nonce_ record) <= 512).
  { rewrite Hsize. done. }
  clear Hint Hu16 Hpos Hsize Hrecord.
  split; [done|]. split; [done|].
  assert (Hser := IntegrityRecordRdata_Serialize_spec record Hwriter).
  rewrite Hdigest in Hser at 1.
  specialize (Hser (HSHA _) ltac:(lia)).
  rewrite Hintact in Hser.
  eexists. split; [exact Hser|]. split.
  - rewrite !size_of_cons, size_of_app, Hdigest, HSHA. lia.
  - apply (IntegrityRecordRdata_Create_of_Serialize record);
      try done; rewrite ?Hdigest; try apply HSHA; lia.
Qed.

End IntegrityProperties.

(** * Evaluation on concrete certificates *)

Import Doubles.

Ltac evaluate := vm_compute; reflexivity.

(** With all twelve extensions in the table, every block runs and sets its
    presence indicator. *)
Example all_twelve_present :
  fst (Create cert_all no_options None) = Some (created cert_all)
  /\ length (records cert_all) = 12%nat
  /\ forallb (fun k => is_present k (created cert_all)) dispatch_order = true.
Proof. split; [evaluate|]. split; evaluate. Qed.

(** A sub-parser that is handed the sink records its own error first; the
    one of [Create] is the last. *)
Example sub_parser_reports_first :
  Create cert_empty_san no_options (Some [])
  = (None, Some [high kGeneralNamesEmpty; high kFailedParsingSubjectAltName]).
Proof. evaluate. Qed.

(** C1, at an empty subject without an extensions region, with a region
    without subjectAltName, with a subjectAltName that is not critical and
    with a critical one. *)
Lemma C1_witness :
  (forall sink,
     fst (Create cert_empty_subject no_options sink)
     = Some (fst (header_result cert_empty_subject)))
  /\ (exists cert, forall sink,
        fst (Create cert_empty_subject_no_san no_options sink) = Some cert)
  /\ (forall errors,
        fails_with kSubjectAltNameNotCritical
          (Create cert_san_not_critical no_options (Some errors)))
  /\ (exists cert, forall sink,
        fst (Create cert_san_critical no_options sink) = Some cert).
Proof.
  split; [|split; [|split]].
  - assert (Hh : header cert_empty_subject no_options
                 = Some (fst (header_result cert_empty_subject), []))
      by evaluate.
    assert (Hnone : extensions_tlv (tbs_ (fst (header_result cert_empty_subject)))
                    = None) by evaluate.
    exact (proj1 (C1_empty_subject_subjectAltName _ _ _ Hh) Hnone).
  - assert (Hh : header cert_empty_subject_no_san no_options
                 = Some (fst (header_result cert_empty_subject_no_san), []))
      by evaluate.
    assert (Htlv : extensions_tlv (tbs_ (fst (header_result cert_empty_subject_no_san)))
                   = Some (region cert_empty_subject_no_san)) by evaluate.
    assert (Htable : ParseExtensions (region cert_empty_subject_no_san)
                     = Some (table cert_empty_subject_no_san)) by evaluate.
    assert (Habsent : table cert_empty_subject_no_san !! kSubjectAltNameOid = None)
      by evaluate.
    assert (Hwell : forallb (fun k => negb (malformed (table cert_empty_subject_no_san) k))
                      dispatch_order = true) by evaluate.
    destruct (proj2 (C1_empty_subject_subjectAltName _ _ _ Hh) _ _ Htlv Htable)
      as (Hcase & _ & _).
    exact (proj2 (Hcase Habsent) Hwell).
  - assert (Hh : header cert_san_not_critical no_options
                 = Some (fst (header_result cert_san_not_critical), []))
      by evaluate.
    assert (Htlv : extensions_tlv (tbs_ (fst (header_result cert_san_not_critical)))
                   = Some (region cert_san_not_critical)) by evaluate.
    assert (Htable : ParseExtensions (region cert_san_not_critical)
                     = Some (table cert_san_not_critical)) by evaluate.
    assert (Hpresent : table cert_san_not_critical !! kSubjectAltNameOid
                       = Some {| oid := [0x55; 0x1d; 0x11]; value := dns_name_a;
                                 critical := false |}) by evaluate.
    assert (Hwell : forallb (fun k => negb (malformed (table cert_san_not_critical) k))
                      [ExtBasicConstraints; ExtKeyUsage; ExtExtKeyUsage;
                       ExtSubjectAltName] = true) by evaluate.
    destruct (proj2 (C1_empty_subject_subjectAltName _ _ _ Hh) _ _ Htlv Htable)
      as (_ & Hcase & _).
    exact (Hcase _ Hpresent eq_refl Hwell).
  - assert (Hh : header cert_san_critical no_options
                 = Some (fst (header_result cert_san_critical), []))
      by evaluate.
    assert (Htlv : extensions_tlv (tbs_ (fst (header_result cert_san_critical)))
                   = Some (region cert_san_critical)) by evaluate.
    assert (Htable : ParseExtensions (region cert_san_critical)
                     = Some (table cert_san_critical)) by evaluate.
    assert (Hpresent : table cert_san_critical !! kSubjectAltNameOid
                       = Some {| oid := [0x55; 0x1d; 0x11]; value := dns_name_a;
                                 critical := true |}) by evaluate.
    assert (Hwell : forallb (fun k => negb (malformed (table cert_san_critical) k))
                      dispatch_order = true) by evaluate.
    destruct (proj2 (C1_empty_subject_subjectAltName _ _ _ Hh) _ _ Htlv Htable)
      as (_ & _ & Hcase).
    exact (Hcase _ Hpresent eq_refl Hwell).
Defined.

(** C1 as stated fails: the subject value is empty, the header and the table
    succeed, subjectAltName is absent, and [Create] returns a certificate;
    the same without an extensions region. *)
Lemma C1_counterexample :
  header cert_empty_subject_no_san no_options
  = Some (fst (header_result cert_empty_subject_no_san), [])
  /\ ParseExtensions (region cert_empty_subject_no_san)
     = Some (table cert_empty_subject_no_san)
  /\ table cert_empty_subject_no_san !! kSubjectAltNameOid = None
  /\ Create cert_empty_subject_no_san no_options (Some [])
     = (Some (created cert_empty_subject_no_san), Some [])
  /\ ~ fails_with kSubjectAltNameNotCritical
         (Create cert_empty_subject_no_san no_options (Some []))
  /\ header cert_empty_subject no_options
     = Some (fst (header_result cert_empty_subject), [])
  /\ extensions_tlv (tbs_ (fst (header_result cert_empty_subject))) = None
  /\ ~ fails_with kSubjectAltNameNotCritical
         (Create cert_empty_subject no_options (Some [])).
Proof.
  split; [evaluate|]. split; [evaluate|]. split; [evaluate|].
  split; [evaluate|].
  split; [intros [Hnone _]; vm_compute in Hnone; discriminate|].
  split; [evaluate|]. split; [evaluate|].
  intros [Hnone _]. vm_compute in Hnone. discriminate.
Qed.

(** C2, at two basicConstraints records with different values and
    criticality flags. *)
Lemma C2_witness :
  fst (Create cert_duplicate no_options None) = None
  /\ forall errors,
       fails_with kFailedParsingExtensions
         (Create cert_duplicate no_options (Some errors))
       /\ recorded_kind (Create cert_duplicate no_options (Some errors))
          = Some MalformedExtensions.
Proof.
  assert (Hh : header cert_duplicate no_options
               = Some (fst (header_result cert_duplicate),
                       snd (header_result cert_duplicate))) by evaluate.
  assert (Htlv : extensions_tlv (tbs_ (fst (header_result cert_duplicate)))
                 = Some (region cert_duplicate)) by evaluate.
  assert (Hmodelled : forall tlv,
            ParseExtensions tlv = modelled_ParseExtensions read_extension_records tlv)
    by reflexivity.
  assert (Hrecords : read_extension_records (region cert_duplicate)
                     = Some (records cert_duplicate)) by evaluate.
  assert (Hfirst : records cert_duplicate !! 0%nat
                   = Some {| oid := [0x55; 0x1d; 0x13]; value := a_sequence;
                             critical := true |}) by evaluate.
  assert (Hsecond : records cert_duplicate !! 1%nat
                    = Some {| oid := [0x55; 0x1d; 0x13]; value := tlv 0x30 [];
                              critical := false |}) by evaluate.
  assert (Hne : 0%nat <> 1%nat) by lia.
  exact (C2_duplicate_extension _ Hmodelled _ _ _ _ _ _ _ _ _ _
           Hh Htlv Hrecords Hfirst Hsecond Hne eq_refl).
Defined.

(** C2 as stated fails: on two records with the same identifier, the error
    [Create] records is [kFailedParsingExtensions], of kind
    [MalformedExtensions], the same as for a region that is not a sequence
    of records; no identifier of kind [DuplicateExtension] is recorded. *)
Lemma C2_counterexample :
  records cert_duplicate
  = [ {| oid := [0x55; 0x1d; 0x13]; value := a_sequence; critical := true |};
      {| oid := [0x55; 0x1d; 0x13]; value := tlv 0x30 []; critical := false |} ]
  /\ Create cert_duplicate no_options (Some [])
     = (None, Some [high kFailedParsingExtensions])
  /\ Create cert_bad_region no_options (Some [])
     = (None, Some [high kFailedParsingExtensions])
  /\ recorded_kind (Create cert_duplicate no_options (Some []))
     <> Some DuplicateExtension.
Proof.
  split; [evaluate|]. split; [evaluate|]. split; [evaluate|].
  intros Hkind. vm_compute in Hkind. discriminate.
Qed.

(** C3, at a malformed critical basicConstraints (with a malformed keyUsage
    behind it) and at a malformed keyUsage that is not critical. *)
Lemma C3_witness :
  ((forall sink, fst (Create cert_bad_bc_ku no_options sink) = None)
   /\ forall errors,
        fails_with kFailedParsingBasicConstraints
          (Create cert_bad_bc_ku no_options (Some errors)))
  /\ ((forall sink, fst (Create cert_bad_ku no_options sink) = None)
      /\ forall errors,
           fails_with kFailedParsingKeyUsage
             (Create cert_bad_ku no_options (Some errors))).
Proof.
  split.
  - assert (Hh : header cert_bad_bc_ku no_options
                 = Some (fst (header_result cert_bad_bc_ku),
                         snd (header_result cert_bad_bc_ku))) by evaluate.
    assert (Htlv : extensions_tlv (tbs_ (fst (header_result cert_bad_bc_ku)))
                   = Some (region cert_bad_bc_ku)) by evaluate.
    assert (Htable : ParseExtensions (region cert_bad_bc_ku)
                     = Some (table cert_bad_bc_ku)) by evaluate.
    assert (Horder : dispatch_order
                     = [] ++ ExtBasicConstraints :: tl dispatch_order) by evaluate.
    assert (Hpresent : table cert_bad_bc_ku !! ext_oid ExtBasicConstraints
                       = Some {| oid := [0x55; 0x1d; 0x13]; value := not_der;
                                 critical := true |}) by evaluate.
    assert (Hfails : sub_parser_ok ExtBasicConstraints
                       {| oid := [0x55; 0x1d; 0x13]; value := not_der;
                          critical := true |} = false) by evaluate.
    destruct (C3_sub_parser_failure _ _ _ _ _ _ _ _ _ _
                Hh Htlv Htable Horder Hpresent Hfails) as [Hnone Hkind].
    split; [exact Hnone | exact (Hkind eq_refl)].
  - assert (Hh : header cert_bad_ku no_options
                 = Some (fst (header_result cert_bad_ku),
                         snd (header_result cert_bad_ku))) by evaluate.
    assert (Htlv : extensions_tlv (tbs_ (fst (header_result cert_bad_ku)))
                   = Some (region cert_bad_ku)) by evaluate.
    assert (Htable : ParseExtensions (region cert_bad_ku)
                     = Some (table cert_bad_ku)) by evaluate.
    assert (Horder : dispatch_order
                     = [ExtBasicConstraints] ++ ExtKeyUsage
                       :: tl (tl dispatch_order)) by evaluate.
    assert (Hpresent : table cert_bad_ku !! ext_oid ExtKeyUsage
                       = Some {| oid := [0x55; 0x1d; 0x0f]; value := not_der;
                                 critical := false |}) by evaluate.
    assert (Hfails : sub_parser_ok ExtKeyUsage
                       {| oid := [0x55; 0x1d; 0x0f]; value := not_der;
                          critical := false |} = false) by evaluate.
    assert (Hpre : forallb (passes (snd (header_result cert_bad_ku))
                              (table cert_bad_ku)) [ExtBasicConstraints] = true)
      by evaluate.
    destruct (C3_sub_parser_failure _ _ _ _ _ _ _ _ _ _
                Hh Htlv Htable Horder Hpresent Hfails) as [Hnone Hkind].
    split; [exact Hnone | exact (Hkind Hpre)].
Defined.

(** C4, at a certificate with subject "a" and no extensions region. *)
Lemma C4_witness :
  (forall sink,
     fst (Create cert_plain no_options sink) = Some (fst (header_result cert_plain)))
  /\ (forall k, is_present k (fst (header_result cert_plain)) = false)
  /\ (forall extension_oid out,
        fst (GetExtension (fst (header_result cert_plain)) extension_oid out) = false).
Proof.
  assert (Hh : header cert_plain no_options
               = Some (fst (header_result cert_plain), snd (header_result cert_plain)))
    by evaluate.
  assert (Hnone : extensions_tlv (tbs_ (fst (header_result cert_plain))) = None)
    by evaluate.
  exact (C4_no_extensions_region _ _ _ _ Hh Hnone).
Defined.

(** C7, at the key usage record (critical) and at the record of the
    unrecognized identifier 1.2.3.4 (not critical) of a certificate with
    three extensions. *)
Lemma C7_witness :
  GetExtension (created cert_three) [0x55; 0x1d; 0x0f] default_ParsedExtension
  = (true, {| oid := [0x55; 0x1d; 0x0f]; value := tlv 0x03 [0x07; 0x80];
              critical := true |})
  /\ GetExtension (created cert_three) [0x2a; 0x03; 0x04] default_ParsedExtension
     = (true, {| oid := [0x2a; 0x03; 0x04]; value := [0x01; 0x02];
                 critical := false |}).
Proof.
  assert (Hcreate : fst (Create cert_three no_options None)
                    = Some (created cert_three)) by evaluate.
  assert (Htlv : extensions_tlv (tbs_ (created cert_three))
                 = Some (region cert_three)) by evaluate.
  assert (Hmodelled : forall tlv,
            ParseExtensions tlv = modelled_ParseExtensions read_extension_records tlv)
    by reflexivity.
  assert (Hrecords : read_extension_records (region cert_three)
                     = Some (records cert_three)) by evaluate.
  assert (Hfirst : records cert_three !! 0%nat
                   = Some {| oid := [0x55; 0x1d; 0x0f];
                             value := tlv 0x03 [0x07; 0x80]; critical := true |})
    by evaluate.
  assert (Hsecond : records cert_three !! 1%nat
                    = Some {| oid := [0x2a; 0x03; 0x04]; value := [0x01; 0x02];
                              critical := false |}) by evaluate.
  split.
  - exact (C7_lookup_returns_input_record _ Hmodelled _ _ _ _ _ _ _ _
             default_ParsedExtension
             Hcreate Htlv Hrecords Hfirst).
  - exact (C7_lookup_returns_input_record _ Hmodelled _ _ _ _ _ _ _ _
             default_ParsedExtension
             Hcreate Htlv Hrecords Hsecond).
Defined.

(** C8, at an input [Create] rejects and at one it accepts, with a chain
    that already holds a certificate. *)
Lemma C8_witness :
  CreateAndAddToVector cert_bad_region no_options [created cert_three] (Some [])
  = (false, [created cert_three],
     snd (Create cert_bad_region no_options (Some [])))
  /\ CreateAndAddToVector cert_plain no_options [created cert_three] None
     = (true, [created cert_three] ++ [created cert_plain],
        snd (Create cert_plain no_options None)).
Proof.
  assert (Hnone : fst (Create cert_bad_region no_options (Some [])) = None)
    by evaluate.
  assert (Hsome : fst (Create cert_plain no_options None) = Some (created cert_plain))
    by evaluate.
  split.
  - exact (proj1 (C8_CreateAndAddToVector _ _ _ _) Hnone).
  - exact (proj2 (C8_CreateAndAddToVector _ _ _ _) _ Hsome).
Defined.

(** C9, with an output that holds something before the call: reset on a
    certificate with an extensions region, untouched on one without. *)
Lemma C9_witness :
  GetExtension (created cert_three) [0x2a; 0x03; 0x05]
    {| oid := [0x09]; value := [0x09]; critical := true |}
  = (false, default_ParsedExtension)
  /\ GetExtension (created cert_plain) [0x2a; 0x03; 0x05]
       {| oid := [0x09]; value := [0x09]; critical := true |}
     = (false, {| oid := [0x09]; value := [0x09]; critical := true |}).
Proof.
  assert (Htlv : extensions_tlv (tbs_ (created cert_three))
                 = Some (region cert_three)) by evaluate.
  assert (Habsent : extensions_ (created cert_three) !! [0x2a; 0x03; 0x05] = None)
    by evaluate.
  assert (Hnone : extensions_tlv (tbs_ (created cert_plain)) = None) by evaluate.
  split.
  - exact (proj1 (C9_GetExtension_output _ _ _) _ Htlv Habsent).
  - exact (proj2 (C9_GetExtension_output _ _ _) Hnone).
Defined.

(** C10, at malformed basicConstraints and keyUsage (the first in the order
    decides), and at an empty subject with a subjectAltName that is not
    critical in front of malformed nameConstraints and authorityInfoAccess
    (the check of subjectAltName decides). *)
Lemma C10_witness :
  (forall errors,
     fails_with kFailedParsingBasicConstraints
       (Create cert_bad_bc_ku no_options (Some errors)))
  /\ (forall errors,
        fails_with kSubjectAltNameNotCritical
          (Create cert_san_then_malformed no_options (Some errors))).
Proof.
  split.
  - assert (Hh : header cert_bad_bc_ku no_options
                 = Some (fst (header_result cert_bad_bc_ku),
                         snd (header_result cert_bad_bc_ku))) by evaluate.
    assert (Htlv : extensions_tlv (tbs_ (fst (header_result cert_bad_bc_ku)))
                   = Some (region cert_bad_bc_ku)) by evaluate.
    assert (Htable : ParseExtensions (region cert_bad_bc_ku)
                     = Some (table cert_bad_bc_ku)) by evaluate.
    assert (Horder : dispatch_order
                     = [] ++ ExtBasicConstraints :: tl dispatch_order) by evaluate.
    assert (Hk : malformed (table cert_bad_bc_ku) ExtBasicConstraints = true)
      by evaluate.
    exact (C10_earliest_malformed_extension _ _ _ _ _ _ _ _ _
             Hh Htlv Htable Horder Hk eq_refl).
  - assert (Hh : header cert_san_then_malformed no_options
                 = Some (fst (header_result cert_san_then_malformed),
                         snd (header_result cert_san_then_malformed))) by evaluate.
    assert (Htlv : extensions_tlv
                     (tbs_ (fst (header_result cert_san_then_malformed)))
                   = Some (region cert_san_then_malformed)) by evaluate.
    assert (Htable : ParseExtensions (region cert_san_then_malformed)
                     = Some (table cert_san_then_malformed)) by evaluate.
    assert (Horder : dispatch_order
                     = [ExtBasicConstraints; ExtKeyUsage; ExtExtKeyUsage;
                        ExtSubjectAltName]
                       ++ ExtNameConstraints :: tl (tl (tl (tl (tl dispatch_order)))))
      by evaluate.
    assert (Hk : malformed (table cert_san_then_malformed) ExtNameConstraints = true)
      by evaluate.
    assert (Hpre : forallb
                     (fun j => negb (malformed (table cert_san_then_malformed) j))
                     [ExtBasicConstraints; ExtKeyUsage; ExtExtKeyUsage;
                      ExtSubjectAltName] = true) by evaluate.
    assert (Hcheck : existsb is_SubjectAltName
                       [ExtBasicConstraints; ExtKeyUsage; ExtExtKeyUsage;
                        ExtSubjectAltName]
                     && san_check_fails (snd (header_result cert_san_then_malformed))
                          (table cert_san_then_malformed) = true) by evaluate.
    pose proof (C10_earliest_malformed_extension _ _ _ _ _ _ _ _ _
                  Hh Htlv Htable Horder Hk Hpre) as Hfails.
    rewrite Hcheck in Hfails. exact Hfails.
Defined.

(** C10 as stated fails: nameConstraints is the earliest malformed extension
    (authorityInfoAccess is malformed too, the four extensions before are
    not), and the error [Create] records is the one of the check of
    subjectAltName, not [kFailedParsingNameConstraints]. *)
Lemma C10_counterexample :
  ParseExtensions (region cert_san_then_malformed)
  = Some (table cert_san_then_malformed)
  /\ malformed (table cert_san_then_malformed) ExtNameConstraints = true
  /\ malformed (table cert_san_then_malformed) ExtAuthorityInfoAccess = true
  /\ forallb (fun j => negb (malformed (table cert_san_then_malformed) j))
       [ExtBasicConstraints; ExtKeyUsage; ExtExtKeyUsage; ExtSubjectAltName] = true
  /\ Create cert_san_then_malformed no_options (Some [])
     = (None, Some [high kSubjectAltNameNotCritical])
  /\ ~ fails_with (ext_error ExtNameConstraints)
         (Create cert_san_then_malformed no_options (Some [])).
Proof.
  split; [evaluate|]. split; [evaluate|]. split; [evaluate|].
  split; [evaluate|]. split; [evaluate|].
  intros [_ Hlast]. vm_compute in Hlast. discriminate.
Qed.

(** * Evaluation of the further properties *)

Import MoreDoubles RdataDoubles.

(** X3, at a certificate with key usage, an unrecognized extension and a
    critical subjectAltName. *)
Lemma X3_witness :
  fst (Create cert_three no_options None) = Some (created cert_three)
  /\ forall k out,
       is_present k (created cert_three)
       = fst (GetExtension (created cert_three) (ext_oid k) out).
Proof.
  assert (Hc : fst (Create cert_three no_options None)
               = Some (created cert_three)) by evaluate.
  exact (conj Hc (X3_presence_agrees_with_lookup _ _ _ _ Hc)).
Defined.

(** X4, at the certificate with all twelve recognized extensions. *)
Lemma X4_witness :
  fst (Create cert_all no_options None) = Some (created cert_all)
  /\ forall k out e,
       GetExtension (created cert_all) (ext_oid k) out = (true, e) ->
       stored k (created cert_all) e.
Proof.
  assert (Hc : fst (Create cert_all no_options None)
               = Some (created cert_all)) by evaluate.
  exact (conj Hc (X4_recognized_extensions_are_stored _ _ _ _ Hc)).
Defined.

(** X5, at a certificate without an extensions region. *)
Lemma X5_witness :
  cert_data_ (created cert_plain) = cert_plain
  /\ cert_ (created cert_plain) = cert_plain
  /\ fst (ParseCertificate cert_plain)
     = Some (tbs_certificate_tlv_ (created cert_plain),
             signature_algorithm_tlv_ (created cert_plain),
             signature_value_ (created cert_plain))
  /\ fst (ParseTbsCertificate (tbs_certificate_tlv_ (created cert_plain))
            no_options)
     = Some (tbs_ (created cert_plain))
  /\ fst (ParseSignatureAlgorithm (signature_algorithm_tlv_ (created cert_plain)))
     = Some (signature_algorithm_ (created cert_plain))
  /\ (exists subject_value,
        GetSequenceValue (subject_tlv (tbs_ (created cert_plain)))
        = Some subject_value
        /\ fst (NormalizeName subject_value)
           = Some (normalized_subject_ (created cert_plain)))
  /\ (exists issuer_value,
        GetSequenceValue (issuer_tlv (tbs_ (created cert_plain)))
        = Some issuer_value
        /\ fst (NormalizeName issuer_value)
           = Some (normalized_issuer_ (created cert_plain))).
Proof.
  assert (Hc : fst (Create cert_plain no_options None)
               = Some (created cert_plain)) by evaluate.
  exact (X5_returned_certificate_header_members _ _ _ _ Hc).
Defined.

(** X6, at a certificate with an empty subject and a critical
    subjectAltName. *)
Lemma X6_witness :
  fst (Create cert_san_critical no_options None)
  = Some (created cert_san_critical)
  /\ forall out e,
       GetExtension (created cert_san_critical) kSubjectAltNameOid out
       = (true, e) ->
       critical e = true.
Proof.
  assert (Hc : fst (Create cert_san_critical no_options None)
               = Some (created cert_san_critical)) by evaluate.
  assert (Hs : GetSequenceValue (subject_tlv (tbs_ (created cert_san_critical)))
               = Some []) by evaluate.
  exact (conj Hc (X6_empty_subject_has_critical_subjectAltName _ _ _ _ Hc Hs)).
Defined.

(** X7, at two certificates that differ by a critical extension of an
    unrecognized identifier. *)
Lemma X7_witness :
  table cert_two !! [0x2a; 0x03; 0x04] = None
  /\ (critical <$> table cert_two_and_unknown !! [0x2a; 0x03; 0x04]) = Some true
  /\ (forall sink sink',
        is_Some (fst (Create cert_two no_options sink))
        <-> is_Some (fst (Create cert_two_and_unknown no_options sink')))
  /\ (forall id errors errors',
        fails_with id (Create cert_two no_options (Some errors))
        <-> fails_with id (Create cert_two_and_unknown no_options (Some errors'))).
Proof.
  split; [evaluate|]. split; [evaluate|].
  assert (Hh : header cert_two no_options
               = Some (fst (header_result cert_two),
                       snd (header_result cert_two))) by evaluate.
  assert (Ht : extensions_tlv (tbs_ (fst (header_result cert_two)))
               = Some (region cert_two)) by evaluate.
  assert (Hp : ParseExtensions (region cert_two) = Some (table cert_two))
    by evaluate.
  assert (Hh' : header cert_two_and_unknown no_options
                = Some (fst (header_result cert_two_and_unknown),
                        snd (header_result cert_two))) by evaluate.
  assert (Ht' : extensions_tlv (tbs_ (fst (header_result cert_two_and_unknown)))
                = Some (region cert_two_and_unknown)) by evaluate.
  assert (Hp' : ParseExtensions (region cert_two_and_unknown)
                = Some (table cert_two_and_unknown)) by evaluate.
  assert (Hagree : forall k,
            table cert_two !! ext_oid k
            = table cert_two_and_unknown !! ext_oid k)
    by (intros k; destruct k; evaluate).
  exact (X7_unrecognized_extensions_change_nothing _ _ _ _ _ _ _ _ _ _ _
           Hh Ht Hp Hh' Ht' Hp' Hagree).
Defined.

(** X8, at a certificate with two malformed extensions. *)
Lemma X8_witness :
  exists id,
    In id Create_error_ids
    /\ fails_with id (Create cert_bad_bc_ku no_options (Some [])).
Proof.
  assert (Hn : fst (Create cert_bad_bc_ku no_options (Some [])) = None)
    by evaluate.
  exact (X8_failure_has_an_identifier_of_Create _ _ _ Hn).
Defined.

(** X9, with the quiet parsers, at a certificate with a subjectAltName
    that holds no name. *)
Lemma X9_witness :
  @quiet types quiet_parsers
  /\ ((exists cert,
         @Create types quiet_parsers cert_empty_san no_options (Some [])
         = (Some cert, Some []))
      \/ (exists id,
            In id Create_error_ids
            /\ @Create types quiet_parsers cert_empty_san no_options (Some [])
               = (None, Some (AddError id [])))).
Proof.
  assert (Hq : @quiet types quiet_parsers).
  { unfold quiet. repeat (split; [intros; reflexivity|]). intros; reflexivity. }
  exact (conj Hq (@X9_one_node_per_failure types quiet_parsers cert_empty_san
                    no_options [] Hq)).
Defined.

(** X10, at three character strings. *)
Lemma X10_witness :
  exists result,
    TxtRecordRdata_Create txt_three = Done result
    /\ (forall texts, result = Some texts <-> txt_three = txt_wire texts)
    /\ (forall texts, result = Some texts ->
          Forall (fun text => size_of text <= 255 /\ is_bytes text) texts).
Proof.
  assert (Hb : is_bytes txt_three) by (apply is_bytes_forallb; evaluate).
  assert (Hw : size_of txt_three + 255 < 2 ^ SIZE_WIDTH) by evaluate.
  exact (X10_TxtRecordRdata_Create_reads_length_prefixed_strings _ Hb Hw).
Defined.

(** X11, at a string of two bytes followed by a length of three and two
    bytes only. *)
Lemma X11_witness :
  TxtRecordRdata_Create (txt_wire [[104; 105]] ++ 3 :: [1; 2]) = Done None.
Proof.
  assert (Hb : is_bytes (txt_wire [[104; 105]] ++ 3 :: [1; 2]))
    by (apply is_bytes_forallb; evaluate).
  assert (Hw : size_of (txt_wire [[104; 105]] ++ 3 :: [1; 2]) + 255
               < 2 ^ SIZE_WIDTH) by evaluate.
  assert (Hcut : size_of [1; 2] < 3) by evaluate.
  exact (X11_TxtRecordRdata_Create_rejects_a_cut_string _ _ _ Hb Hw Hcut).
Defined.

(** X12, at bit 15 of a bitmap of two bytes. *)
Lemma X12_witness :
  NsecRecordRdata_GetBit [0x40; 0x01] 15
  = match [0x40; 0x01] !! Z.to_nat (15 / 8) with
    | Some byte => Z.testbit byte (7 - 15 mod 8)
    | None => false
    end
  /\ (8 * size_of [0x40; 0x01] <= 15 ->
      NsecRecordRdata_GetBit [0x40; 0x01] 15 = false).
Proof.
  assert (Hw : 3 <= UINT_WIDTH) by (by vm_compute).
  assert (Hi : 0 <= 15 < 2 ^ UINT_WIDTH) by (by vm_compute).
  exact (X12_GetBit_counts_from_the_most_significant_bit [0x40; 0x01] 15 Hw Hi).
Defined.

(** X13, at a record with a name of three bytes and a bitmap of two. *)
Lemma X13_witness :
  NsecRecordRdata_Create nsec_name_length 0 nsec_record = Some [0x40; 0x01]
  <-> 0 < nsec_name_length 0
      /\ 1 <= size_of [0x40; 0x01] <= 32
      /\ exists name,
           size_of name = nsec_name_length 0
           /\ nsec_record = name ++ 0 :: size_of [0x40; 0x01] :: [0x40; 0x01].
Proof.
  assert (Hb : is_bytes nsec_record) by (apply is_bytes_forallb; evaluate).
  assert (Hp : 0 <= nsec_name_length 0) by (by vm_compute).
  assert (Hw : nsec_name_length 0 + 2 < 2 ^ UINT_WIDTH) by evaluate.
  exact (X13_NsecRecordRdata_Create_accepts_one_block nsec_name_length 0
           nsec_record [0x40; 0x01] Hb Hp Hw).
Defined.

(** X14, at bit 15 of the same record. *)
Lemma X14_witness :
  NsecRecordRdata_GetBit [0x40; 0x01] 15
  = (15 <? 8 * at_ nsec_record (nsec_name_length 0 + 1))
    && Z.testbit (at_ nsec_record (nsec_name_length 0 + 2 + 15 / 8))
         (7 - 15 mod 8)
  /\ (256 <= 15 -> NsecRecordRdata_GetBit [0x40; 0x01] 15 = false).
Proof.
  assert (Hb : is_bytes nsec_record) by (apply is_bytes_forallb; evaluate).
  assert (Hp : 0 <= nsec_name_length 0) by (by vm_compute).
  assert (Hw : nsec_name_length 0 + 2 < 2 ^ UINT_WIDTH) by evaluate.
  assert (Hu : 3 <= UINT_WIDTH) by (by vm_compute).
  assert (Hi : 0 <= 15 < 2 ^ UINT_WIDTH) by (by vm_compute).
  assert (Hc : NsecRecordRdata_Create nsec_name_length 0 nsec_record
               = Some [0x40; 0x01]) by evaluate.
  exact (X14_created_bitmap_has_256_bits nsec_name_length 0 nsec_record
           [0x40; 0x01] 15 Hb Hp Hw Hu Hi Hc).
Defined.

(** X15, at data that announces a nonce of five bytes and holds one. *)
Lemma X15_witness :
  exists record,
    IntegrityRecordRdata_Create [0; 5; 1] = Returns record
    /\ nonce_ record = []
    /\ digest_ record = replicate (Z.to_nat kDigestLen) 0
    /\ (is_intact_ record = true
        <-> size_of [0; 5; 1] = LengthForSerialization []
            /\ SHA256 [] = replicate (Z.to_nat kDigestLen) 0)
    /\ (SHA256 [] <> replicate (Z.to_nat kDigestLen) 0 ->
        is_intact_ record = false).
Proof.
  assert (Hl : 0 <= kDigestLen) by (by vm_compute).
  assert (Hp : parse_success [0; 5; 1] = false) by evaluate.
  exact (X15_failed_parse_gives_the_empty_record [0; 5; 1] Hl Hp).
Defined.

(** X16, at the same data. *)
Lemma X16_witness :
  exists record,
    IntegrityRecordRdata_Create [0; 5; 1] = Returns record
    /\ size_of (digest_ record) = kDigestLen.
Proof.
  assert (Hr : big_endian_reader) by (split; intros; reflexivity).
  assert (Hl : 0 <= kDigestLen) by (by vm_compute).
  assert (Hb : is_bytes [0; 5; 1]) by (apply is_bytes_forallb; evaluate).
  exact (X16_Create_always_gives_a_record [0; 5; 1] Hr Hl Hb).
Defined.

(** X17, at the record of the nonce of one byte. *)
Lemma X17_witness :
  is_intact_ (IntegrityRecordRdata_of_nonce [7]) = true
  <-> size_of (nonce_ (IntegrityRecordRdata_of_nonce [7])) < 2 ^ 16
      /\ digest_ (IntegrityRecordRdata_of_nonce [7])
         = SHA256 (nonce_ (IntegrityRecordRdata_of_nonce [7]))
      /\ size_of (digest_ (IntegrityRecordRdata_of_nonce [7])) = kDigestLen
      /\ integrity_record
         = size_of (nonce_ (IntegrityRecordRdata_of_nonce [7])) / 256
           :: size_of (nonce_ (IntegrityRecordRdata_of_nonce [7])) mod 256
           :: nonce_ (IntegrityRecordRdata_of_nonce [7])
              ++ digest_ (IntegrityRecordRdata_of_nonce [7]).
Proof.
  assert (Hr : big_endian_reader) by (split; intros; reflexivity).
  assert (Hl : 0 <= kDigestLen) by (by vm_compute).
  assert (Hb : is_bytes integrity_record) by (apply is_bytes_forallb; evaluate).
  assert (Hw : size_of integrity_record < 2 ^ SIZE_WIDTH) by evaluate.
  assert (Hz : SHA256 [] <> replicate (Z.to_nat kDigestLen) 0)
    by (by vm_compute).
  assert (Hc : IntegrityRecordRdata_Create integrity_record
               = Returns (IntegrityRecordRdata_of_nonce [7])) by evaluate.
  exact (X17_intact_records_are_nonce_and_hash integrity_record
           (IntegrityRecordRdata_of_nonce [7]) Hr Hl Hb Hw Hz Hc).
Defined.

(** X18, at the same record. *)
Lemma X18_witness :
  IntegrityRecordRdata_Serialize (IntegrityRecordRdata_of_nonce [7])
  = Returns
      (if is_intact_ (IntegrityRecordRdata_of_nonce [7])
       then Some (uint16_t (size_of (nonce_ (IntegrityRecordRdata_of_nonce [7])))
                  / 256
                  :: uint16_t (size_of (nonce_ (IntegrityRecordRdata_of_nonce [7])))
                     mod 256
                  :: nonce_ (IntegrityRecordRdata_of_nonce [7])
                     ++ digest_ (IntegrityRecordRdata_of_nonce [7]))
       else None).
Proof.
  assert (Hw : big_endian_writer) by (split; intros; reflexivity).
  assert (Hd : size_of (digest_ (IntegrityRecordRdata_of_nonce [7]))
               = kDigestLen) by evaluate.
  assert (Hs : 2 + size_of (nonce_ (IntegrityRecordRdata_of_nonce [7]))
               + kDigestLen < 2 ^ SIZE_WIDTH) by evaluate.
  exact (X18_Serialize_writes_length_nonce_digest
           (IntegrityRecordRdata_of_nonce [7]) Hw Hd Hs).
Defined.

(** X19, at the bytes of the same record. *)
Lemma X19_witness :
  IntegrityRecordRdata_Serialize (IntegrityRecordRdata_of_nonce [7])
  = Returns (Some integrity_record).
Proof.
  assert (Hr : big_endian_reader) by (split; intros; reflexivity).
  assert (Hw : big_endian_writer) by (split; intros; reflexivity).
  assert (Hl : 0 <= kDigestLen) by (by vm_compute).
  assert (Hb : is_bytes integrity_record) by (apply is_bytes_forallb; evaluate).
  assert (Hs : size_of integrity_record < 2 ^ SIZE_WIDTH) by evaluate.
  assert (Hz : SHA256 [] <> replicate (Z.to_nat kDigestLen) 0)
    by (by vm_compute).
  assert (Hc : IntegrityRecordRdata_Create integrity_record
               = Returns (IntegrityRecordRdata_of_nonce [7])) by evaluate.
  assert (Hi : is_intact_ (IntegrityRecordRdata_of_nonce [7]) = true)
    by evaluate.
  exact (X19_Serialize_gives_back_the_data integrity_record
           (IntegrityRecordRdata_of_nonce [7]) Hr Hw Hl Hb Hs Hz Hc Hi).
Defined.

(** X20, at the same record. *)
Lemma X20_witness :
  IntegrityRecordRdata_Create integrity_record
  = Returns (IntegrityRecordRdata_of_nonce [7]).
Proof.
  assert (Hr : big_endian_reader) by (split; intros; reflexivity).
  assert (Hw : big_endian_writer) by (split; intros; reflexivity).
  assert (Hl : 0 <= kDigestLen) by (by vm_compute).
  assert (Hn : size_of (nonce_ (IntegrityRecordRdata_of_nonce [7])) < 2 ^ 16)
    by evaluate.
  assert (Hd : size_of (digest_ (IntegrityRecordRdata_of_nonce [7]))
               = kDigestLen) by evaluate.
  assert (Hs : 2 + size_of (nonce_ (IntegrityRecordRdata_of_nonce [7]))
               + kDigestLen < 2 ^ SIZE_WIDTH) by evaluate.
  assert (Hh : IntegrityRecordRdata_Hash (nonce_ (IntegrityRecordRdata_of_nonce [7]))
               = digest_ (IntegrityRecordRdata_of_nonce [7])) by evaluate.
  assert (Hser : IntegrityRecordRdata_Serialize (IntegrityRecordRdata_of_nonce [7])
                 = Returns (Some integrity_record)) by evaluate.
  exact (X20_Create_gives_back_the_record (IntegrityRecordRdata_of_nonce [7])
           integrity_record Hr Hw Hl Hn Hd Hs Hh Hser).
Defined.

(** X22, with the random source that gives the least length and zero
    bytes. *)
Lemma X22_witness :
  is_intact_ IntegrityRecordRdata_Random = true
  /\ 32 <= size_of (nonce_ IntegrityRecordRdata_Random) <= 512
  /\ exists bytes,
       IntegrityRecordRdata_Serialize IntegrityRecordRdata_Random
       = Returns (Some bytes)
       /\ size_of bytes
          = 2 + size_of (nonce_ IntegrityRecordRdata_Random) + kDigestLen
       /\ IntegrityRecordRdata_Create bytes
          = Returns IntegrityRecordRdata_Random.
Proof.
  assert (Hr : big_endian_reader) by (split; intros; reflexivity).
  assert (Hw : big_endian_writer) by (split; intros; reflexivity).
  assert (Hl : 0 <= kDigestLen) by (by vm_compute).
  assert (Hs : kDigestLen < 2 ^ SIZE_WIDTH - 514) by evaluate.
  assert (Hint : forall low high, low <= high -> low <= RandInt low high <= high)
    by (intros low high Hle; simpl; lia).
  assert (Hbytes : forall n, 0 <= n -> size_of (RandBytes n) = n)
    by (intros n Hn; simpl; unfold size_of; rewrite length_replicate; lia).
  assert (Hsha : forall nonce, size_of (SHA256 nonce) = kDigestLen)
    by (intros nonce; reflexivity).
  exact (X22_Random_record_round_trips Hr Hw Hl Hs Hint Hbytes Hsha).
Defined.
